(** * Repayment allocation engine of the loan-management back-end

    A shallow embedding of [src/service/repayment.service.ts]
    ([RepaymentService.createRepayment], [allocatePayment],
    [checkLoanCompletion], [deleteRepayment]) together with the slice of
    the Prisma store these functions talk to, and the properties of the
    allocation, completion and reversal logic.

    Modelling conventions.
    - [Decimal] values (Prisma's arbitrary-precision decimal) are exact
      integers counting the smallest currency unit; [plus], [minus],
      [lte], [gte], [lt] are the integer operations. No rounding occurs
      anywhere.
    - Row identifiers (opaque strings generated by the store) are natural
      numbers; a [create] picks an identifier that no row of the table
      carries.
    - [Date] values are integers (milliseconds since the epoch).
    - Every [await prisma....] call is a computation in the monad
      [Prisma]: it reads or writes the tables of the [World] and may throw.
      A thrown error leaves the tables as they are at the point of the
      throw: the service opens no transaction. *)

From Stdlib Require Import ZArith List Bool Arith Lia String.
From Stdlib Require Import Permutation Sorted.
Import ListNotations.

Local Open Scope Z_scope.

(** ** Data model *)

Definition Id := nat.
Bind Scope nat_scope with Id.
Definition Date := Z.
Definition Decimal := Z.

Inductive RepaymentMethod := CASH | TRANSFER | POS | MOBILE | USSD | OTHER.

Inductive ScheduleStatus := PENDING | PARTIAL | PAID | OVERDUE.

Inductive Role := ADMIN | BRANCH_MANAGER | CREDIT_OFFICER.

Inductive LoanStatus :=
  | DRAFT | PENDING_APPROVAL | APPROVED | ACTIVE
  | COMPLETED | DEFAULTED | WRITTEN_OFF | CANCELED.

Definition ScheduleStatus_eqb (a b : ScheduleStatus) : bool :=
  match a, b with
  | PENDING, PENDING | PARTIAL, PARTIAL | PAID, PAID | OVERDUE, OVERDUE => true
  | _, _ => false
  end.

Definition LoanStatus_eqb (a b : LoanStatus) : bool :=
  match a, b with
  | DRAFT, DRAFT | PENDING_APPROVAL, PENDING_APPROVAL | APPROVED, APPROVED
  | ACTIVE, ACTIVE | COMPLETED, COMPLETED | DEFAULTED, DEFAULTED
  | WRITTEN_OFF, WRITTEN_OFF | CANCELED, CANCELED => true
  | _, _ => false
  end.

Definition Role_eqb (a b : Role) : bool :=
  match a, b with
  | ADMIN, ADMIN | BRANCH_MANAGER, BRANCH_MANAGER
  | CREDIT_OFFICER, CREDIT_OFFICER => true
  | _, _ => false
  end.

(** JavaScript truthiness of a nullable [Date] column. *)
Definition truthy {A} (o : option A) : bool :=
  match o with Some _ => true | None => false end.

Record Loan := mkLoan {
  loan_id : Id;
  loan_status : LoanStatus;
  loan_branchId : Id;
  loan_closedAt : option Date;
  loan_deletedAt : option Date
}.

Record RepaymentScheduleItem := mkItem {
  item_id : Id;
  item_loanId : Id;
  sequence : nat;
  dueDate : Date;
  totalDue : Decimal;
  paidAmount : Decimal;
  item_status : ScheduleStatus;
  item_closedAt : option Date;
  item_deletedAt : option Date
}.

Record Repayment := mkRepayment {
  rep_id : Id;
  rep_loanId : Id;
  receivedByUserId : Id;
  rep_amount : Decimal;
  paidAt : Date;
  method : RepaymentMethod;
  reference : option string;
  notes : option string;
  createdAt : Date;
  rep_deletedAt : option Date
}.

Record RepaymentAllocation := mkAlloc {
  repaymentId : Id;
  scheduleItemId : Id;
  alloc_amount : Decimal
}.

Record CreateRepaymentData := mkData {
  data_loanId : Id;
  data_amount : Decimal;
  data_paidAt : option Date;
  data_method : RepaymentMethod;
  data_reference : option string;
  data_notes : option string
}.

(** ** The store *)

(** Tables are lists of rows in the store's own row order. *)
Record Db := mkDb {
  loans : list Loan;
  scheduleItems : list RepaymentScheduleItem;
  repayments : list Repayment;
  allocations : list RepaymentAllocation
}.

(** [clock] is what [new Date()] and [Date.now()] return. [faults] is the
    environment's failure schedule for the store: [None] is a store that
    performs every write; [Some n] performs [n] more writes and rejects
    the next one. *)
Record World := mkWorld {
  db : Db;
  clock : Date;
  faults : option nat
}.

Inductive Outcome (A : Type) :=
  | Ok (a : A)
  | Throw (msg : string).
Arguments Ok {A} a.
Arguments Throw {A} msg.

Definition Prisma (A : Type) : Type := World -> Outcome A * World.

Definition ret {A} (a : A) : Prisma A := fun w => (Ok a, w).

Definition bind {A B} (m : Prisma A) (k : A -> Prisma B) : Prisma B :=
  fun w =>
    match m w with
    | (Ok a, w') => k a w'
    | (Throw e, w') => (Throw e, w')
    end.

Definition throw {A} (msg : string) : Prisma A := fun w => (Throw msg, w).

Notation "x <- m ;; k" := (bind m (fun x => k))
  (at level 61, m at next level, right associativity).
Notation "m ;;; k" := (bind m (fun _ => k))
  (at level 61, right associativity).

Definition newDate : Prisma Date := fun w => (Ok (clock w), w).

Definition query {A} (f : Db -> A) : Prisma A := fun w => (Ok (f (db w)), w).

Definition set_db (w : World) (d : Db) : World :=
  mkWorld d (clock w) (faults w).

(** One write to the store. *)
Definition commit (f : Db -> Db) : Prisma unit :=
  fun w =>
    match faults w with
    | None => (Ok tt, set_db w (f (db w)))
    | Some (S n) => (Ok tt, mkWorld (f (db w)) (clock w) (Some n))
    | Some O => (Throw "store failure", w)
    end.

(** *** Table primitives *)

Definition set_loans (d : Db) (l : list Loan) : Db :=
  mkDb l (scheduleItems d) (repayments d) (allocations d).
Definition set_scheduleItems (d : Db) (l : list RepaymentScheduleItem) : Db :=
  mkDb (loans d) l (repayments d) (allocations d).
Definition set_repayments (d : Db) (l : list Repayment) : Db :=
  mkDb (loans d) (scheduleItems d) l (allocations d).
Definition set_allocations (d : Db) (l : list RepaymentAllocation) : Db :=
  mkDb (loans d) (scheduleItems d) (repayments d) l.

(** [prisma.loan.findUnique({ where: { id } })] *)
Definition loan_findUnique (id : Id) : Prisma (option Loan) :=
  query (fun d => find (fun l => Nat.eqb (loan_id l) id) (loans d)).

(** [prisma.repaymentScheduleItem.findUnique({ where: { id } })] *)
Definition scheduleItem_findUnique (id : Id)
  : Prisma (option RepaymentScheduleItem) :=
  query (fun d => find (fun i => Nat.eqb (item_id i) id) (scheduleItems d)).

(** [orderBy: { dueDate: "asc" }]: the rows sorted on the due date alone.
    Rows with equal due dates come back in the store's row order. *)
Fixpoint insert_by_dueDate (x : RepaymentScheduleItem)
  (l : list RepaymentScheduleItem) : list RepaymentScheduleItem :=
  match l with
  | [] => [x]
  | y :: l' =>
      if dueDate x <=? dueDate y then x :: y :: l'
      else y :: insert_by_dueDate x l'
  end.

Definition orderBy_dueDate_asc (l : list RepaymentScheduleItem)
  : list RepaymentScheduleItem :=
  fold_right insert_by_dueDate [] l.

(** [where: { loanId, status: { in: [PENDING, PARTIAL, OVERDUE] },
              deletedAt: null }] *)
Definition outstanding_filter (loanId : Id) (i : RepaymentScheduleItem) : bool :=
  Nat.eqb (item_loanId i) loanId
  && (ScheduleStatus_eqb (item_status i) PENDING
      || ScheduleStatus_eqb (item_status i) PARTIAL
      || ScheduleStatus_eqb (item_status i) OVERDUE)
  && negb (truthy (item_deletedAt i)).

Definition findMany_outstanding (loanId : Id) (d : Db)
  : list RepaymentScheduleItem :=
  orderBy_dueDate_asc (filter (outstanding_filter loanId) (scheduleItems d)).

(** [where: { loanId, status: { notIn: [PAID] }, deletedAt: null }] *)
Definition notPaid_filter (loanId : Id) (i : RepaymentScheduleItem) : bool :=
  Nat.eqb (item_loanId i) loanId
  && negb (ScheduleStatus_eqb (item_status i) PAID)
  && negb (truthy (item_deletedAt i)).

Definition count_notPaid (loanId : Id) (d : Db) : nat :=
  List.length (filter (notPaid_filter loanId) (scheduleItems d)).

Definition has_id {A} (key : A -> Id) (id : Id) (l : list A) : bool :=
  existsb (fun r => Nat.eqb (key r) id) l.

(** [prisma.<table>.update({ where: { id }, data })]: rejects an unknown
    id, otherwise rewrites the row carrying it. *)
Definition update_row {A} (key : A -> Id) (id : Id) (f : A -> A)
  (l : list A) : list A :=
  map (fun r => if Nat.eqb (key r) id then f r else r) l.

(** [data: { paidAmount, status, closedAt }] *)
Definition set_payment (newPaidAmount : Decimal) (newStatus : ScheduleStatus)
  (closedAt' : option Date) (i : RepaymentScheduleItem)
  : RepaymentScheduleItem :=
  mkItem (item_id i) (item_loanId i) (sequence i) (dueDate i) (totalDue i)
    newPaidAmount newStatus closedAt' (item_deletedAt i).

(** [data: { status, closedAt }] *)
Definition set_loan_status (newStatus : LoanStatus) (closedAt' : option Date)
  (l : Loan) : Loan :=
  mkLoan (loan_id l) newStatus (loan_branchId l) closedAt' (loan_deletedAt l).

(** [data: { deletedAt }] *)
Definition set_rep_deletedAt (at_ : option Date) (r : Repayment) : Repayment :=
  mkRepayment (rep_id r) (rep_loanId r) (receivedByUserId r) (rep_amount r)
    (paidAt r) (method r) (reference r) (notes r) (createdAt r) at_.

Definition scheduleItem_update (id : Id) (newPaidAmount : Decimal)
  (newStatus : ScheduleStatus) (closedAt' : option Date) : Prisma unit :=
  fun w =>
    if has_id item_id id (scheduleItems (db w)) then
      commit (fun d => set_scheduleItems d
        (update_row item_id id
           (set_payment newPaidAmount newStatus closedAt')
           (scheduleItems d))) w
    else (Throw "Record to update not found", w).

Definition loan_update (id : Id) (newStatus : LoanStatus)
  (closedAt' : option Date) : Prisma unit :=
  fun w =>
    if has_id loan_id id (loans (db w)) then
      commit (fun d => set_loans d
        (update_row loan_id id (set_loan_status newStatus closedAt')
           (loans d))) w
    else (Throw "Record to update not found", w).

Definition repayment_softDelete (id : Id) (at_ : Date) : Prisma unit :=
  fun w =>
    if has_id rep_id id (repayments (db w)) then
      commit (fun d => set_repayments d
        (update_row rep_id id (set_rep_deletedAt (Some at_))
           (repayments d))) w
    else (Throw "Record to update not found", w).

(** The identifier the store gives a new repayment row. *)
Definition fresh_id (l : list Repayment) : Id :=
  S (list_max (map rep_id l)).

(** [prisma.repayment.create({ data })]. The store picks the identifier;
    the schema, which is not among the sources, is taken to stamp
    [createdAt] with the time of creation and to leave [deletedAt] null. *)
Definition repayment_create (loanId user : Id) (amount : Decimal)
  (paidAt' : Date) (m : RepaymentMethod) (ref nts : option string)
  : Prisma Repayment :=
  fun w =>
    let r := mkRepayment (fresh_id (repayments (db w))) loanId user amount
               paidAt' m ref nts (clock w) None in
    match commit (fun d => set_repayments d (repayments d ++ [r])) w with
    | (Ok _, w') => (Ok r, w')
    | (Throw e, w') => (Throw e, w')
    end.

(** [prisma.repaymentAllocation.createMany({ data })] *)
Definition allocation_createMany (rows : list RepaymentAllocation)
  : Prisma unit :=
  commit (fun d => set_allocations d (allocations d ++ rows)).

(** ** The service *)

(** [closedAt: newStatus === ScheduleStatus.PAID ? new Date() : null] *)
Definition closedAt_for (newStatus : ScheduleStatus) : Prisma (option Date) :=
  if ScheduleStatus_eqb newStatus PAID
  then now <- newDate ;; ret (Some now)
  else ret None.

(** The body of [for (const item of scheduleItems)] in [allocatePayment];
    [allocs] is the array [allocations] built so far. *)
Fixpoint allocate_loop (repaymentId' : Id)
  (items : list RepaymentScheduleItem) (remainingAmount : Decimal)
  (allocs : list RepaymentAllocation) : Prisma (list RepaymentAllocation) :=
  match items with
  | [] => ret allocs
  | item :: rest =>
      if remainingAmount <=? 0 then ret allocs
      else
        let itemOutstanding := totalDue item - paidAmount item in
        if itemOutstanding <=? 0 then
          allocate_loop repaymentId' rest remainingAmount allocs
        else
          let allocationAmount :=
            if remainingAmount >=? itemOutstanding
            then itemOutstanding else remainingAmount in
          let allocs' :=
            allocs ++ [mkAlloc repaymentId' (item_id item) allocationAmount] in
          let newPaidAmount := paidAmount item + allocationAmount in
          let newStatus :=
            if newPaidAmount >=? totalDue item then PAID else PARTIAL in
          closedAt' <- closedAt_for newStatus ;;
          scheduleItem_update (item_id item) newPaidAmount newStatus
            closedAt' ;;;
          allocate_loop repaymentId' rest
            (remainingAmount - allocationAmount) allocs'
  end.

Definition allocatePayment (repaymentId' loanId : Id) (amount : Decimal)
  : Prisma unit :=
  items <- query (findMany_outstanding loanId) ;;
  allocs <- allocate_loop repaymentId' items amount [] ;;
  match allocs with
  | [] => ret tt
  | _ :: _ => allocation_createMany allocs
  end.

Definition checkLoanCompletion (loanId : Id) : Prisma unit :=
  pendingItems <- query (count_notPaid loanId) ;;
  if Nat.eqb pendingItems 0 then
    now <- newDate ;;
    loan_update loanId COMPLETED (Some now)
  else ret tt.

Definition createRepayment (data : CreateRepaymentData) (user : Id)
  : Prisma Repayment :=
  loan <- loan_findUnique (data_loanId data) ;;
  match loan with
  | None => throw "Loan not found"
  | Some l =>
      if truthy (loan_deletedAt l) then throw "Loan not found"
      else if negb (LoanStatus_eqb (loan_status l) ACTIVE)
      then throw "Can only make payments on active loans"
      else
        let amount := data_amount data in
        now <- newDate ;;
        let paidAt' :=
          match data_paidAt data with Some d => d | None => now end in
        repayment <- repayment_create (data_loanId data) user amount paidAt'
                       (data_method data) (data_reference data)
                       (data_notes data) ;;
        allocatePayment (rep_id repayment) (data_loanId data) amount ;;;
        checkLoanCompletion (data_loanId data) ;;;
        ret repayment
  end.

(** The body of [for (const allocation of repayment.allocations)]. *)
Fixpoint reverse_loop (allocs : list RepaymentAllocation) : Prisma unit :=
  match allocs with
  | [] => ret tt
  | allocation :: rest =>
      scheduleItem <- scheduleItem_findUnique (scheduleItemId allocation) ;;
      match scheduleItem with
      | Some it =>
          let newPaidAmount := paidAmount it - alloc_amount allocation in
          let newStatus :=
            if newPaidAmount <=? 0 then PENDING
            else if newPaidAmount <? totalDue it then PARTIAL
            else PAID in
          scheduleItem_update (scheduleItemId allocation) newPaidAmount
            newStatus None ;;;
          reverse_loop rest
      | None => reverse_loop rest
      end
  end.

(** [userRole === Role.BRANCH_MANAGER && userBranchId &&
     repayment.loan.branchId !== userBranchId]; [loan] is the included
    relation [repayment.loan]. *)
Definition branch_guard (userRole : Role) (userBranchId : option Id)
  (loan : option Loan) : Prisma unit :=
  match userRole, userBranchId with
  | BRANCH_MANAGER, Some b =>
      match loan with
      | Some l =>
          if negb (Nat.eqb (loan_branchId l) b)
          then throw "You do not have permission to delete this repayment"
          else ret tt
      | None => throw "Cannot read properties of null (reading 'branchId')"
      end
  | _, _ => ret tt
  end.

(** 24 hours in milliseconds: [(Date.now() - createdAt) / (1000*60*60) > 24]. *)
Definition day_ms : Z := 24 * (1000 * 60 * 60).

Definition deleteRepayment (id : Id) (userRole : Role)
  (userBranchId : option Id) : Prisma unit :=
  repayment <- query (fun d =>
                 find (fun r => Nat.eqb (rep_id r) id) (repayments d)) ;;
  match repayment with
  | None => throw "Repayment not found"
  | Some r =>
      if truthy (rep_deletedAt r) then throw "Repayment not found"
      else
        loan <- loan_findUnique (rep_loanId r) ;;
        allocs <- query (fun d =>
                    filter (fun a => Nat.eqb (repaymentId a) id)
                      (allocations d)) ;;
        if Role_eqb userRole CREDIT_OFFICER
        then throw "Credit officers cannot delete repayments"
        else
          branch_guard userRole userBranchId loan ;;;
          now <- newDate ;;
          if now - createdAt r >? day_ms
          then throw "Cannot delete repayment after 24 hours. Contact admin."
          else
            reverse_loop allocs ;;;
            now' <- newDate ;;
            repayment_softDelete id now' ;;;
            pendingItems <- query (count_notPaid (rep_loanId r)) ;;
            if Nat.ltb 0 pendingItems
            then loan_update (rep_loanId r) ACTIVE None
            else ret tt
  end.

(** ** The service on a reliable store, as table transformers

    What the loops compute when no write is rejected: [walk] is the list of
    (item, allocated amount) pairs the allocation loop goes through, and the
    tables after the loops are given row by row. *)

Definition Plan := list (RepaymentScheduleItem * Decimal).

(** The loop of [allocatePayment] without the store: the items it updates,
    each with its [allocationAmount], in the order of the loop. *)
Fixpoint walk (items : list RepaymentScheduleItem) (remainingAmount : Decimal)
  : Plan :=
  match items with
  | [] => []
  | item :: rest =>
      if remainingAmount <=? 0 then []
      else
        let itemOutstanding := totalDue item - paidAmount item in
        if itemOutstanding <=? 0 then walk rest remainingAmount
        else
          let allocationAmount :=
            if remainingAmount >=? itemOutstanding
            then itemOutstanding else remainingAmount in
          (item, allocationAmount)
            :: walk rest (remainingAmount - allocationAmount)
  end.

(** The row pushed on [allocations] for one step of the loop. *)
Definition to_alloc (rid : Id) (p : RepaymentScheduleItem * Decimal)
  : RepaymentAllocation :=
  mkAlloc rid (item_id (fst p)) (snd p).

(** [newPaidAmount.gte(item.totalDue) ? PAID : PARTIAL] *)
Definition paid_status (newPaidAmount total : Decimal) : ScheduleStatus :=
  if newPaidAmount >=? total then PAID else PARTIAL.

(** The update one step of the loop writes; the new values come from the
    fetched copy of the item. *)
Definition settle (now : Date) (p : RepaymentScheduleItem * Decimal)
  : RepaymentScheduleItem -> RepaymentScheduleItem :=
  let newPaidAmount := paidAmount (fst p) + snd p in
  let newStatus := paid_status newPaidAmount (totalDue (fst p)) in
  set_payment newPaidAmount newStatus
    (if ScheduleStatus_eqb newStatus PAID then Some now else None).

(** The schedule-item table after the updates of a whole walk. *)
Definition apply_walk (now : Date) (plan : Plan)
  (tbl : list RepaymentScheduleItem) : list RepaymentScheduleItem :=
  fold_left
    (fun t p => update_row item_id (item_id (fst p)) (settle now p) t)
    plan tbl.

(** Row-by-row reading of the two loops. *)
Definition touch (now : Date) (r : RepaymentScheduleItem)
  (p : RepaymentScheduleItem * Decimal) : RepaymentScheduleItem :=
  if Nat.eqb (item_id r) (item_id (fst p)) then settle now p r else r.

Definition settle_row (now : Date) (plan : Plan) (r : RepaymentScheduleItem)
  : RepaymentScheduleItem :=
  fold_left (touch now) plan r.

(** The entry of the plan for the row with identifier [id]. *)
Definition plan_entry (id : Id) (plan : Plan)
  : option (RepaymentScheduleItem * Decimal) :=
  find (fun p => Nat.eqb (item_id (fst p)) id) plan.

(** The row [createRepayment] creates. *)
Definition new_repayment (data : CreateRepaymentData) (user : Id)
  (now : Date) (d : Db) : Repayment :=
  mkRepayment (fresh_id (repayments d)) (data_loanId data) user
    (data_amount data)
    (match data_paidAt data with Some t => t | None => now end)
    (data_method data) (data_reference data) (data_notes data) now None.

(** The tables after [allocatePayment], [checkLoanCompletion] and
    [createRepayment] when every write is served. *)
Definition allocate_db (rid loanId : Id) (amount : Decimal) (now : Date)
  (d : Db) : Db :=
  let plan := walk (findMany_outstanding loanId d) amount in
  set_allocations
    (set_scheduleItems d (apply_walk now plan (scheduleItems d)))
    (allocations d ++ map (to_alloc rid) plan).

Definition complete_db (loanId : Id) (now : Date) (d : Db) : Db :=
  if Nat.eqb (count_notPaid loanId d) 0
  then set_loans d
         (update_row loan_id loanId (set_loan_status COMPLETED (Some now))
            (loans d))
  else d.

Definition create_db (data : CreateRepaymentData) (user : Id) (now : Date)
  (d : Db) : Db :=
  let r := new_repayment data user now d in
  complete_db (data_loanId data) now
    (allocate_db (rep_id r) (data_loanId data) (data_amount data) now
       (set_repayments d (repayments d ++ [r]))).

(** [newPaidAmount.lte(0) ? PENDING
     : newPaidAmount.lt(totalDue) ? PARTIAL : PAID] *)
Definition reversed_status (newPaidAmount total : Decimal) : ScheduleStatus :=
  if newPaidAmount <=? 0 then PENDING
  else if newPaidAmount <? total then PARTIAL
  else PAID.

(** What reversing one allocation does to a row of the item table. *)
Definition unpay (a : RepaymentAllocation) (r : RepaymentScheduleItem)
  : RepaymentScheduleItem :=
  if Nat.eqb (item_id r) (scheduleItemId a)
  then set_payment (paidAmount r - alloc_amount a)
         (reversed_status (paidAmount r - alloc_amount a) (totalDue r))
         None r
  else r.

Definition reverse_items (allocs : list RepaymentAllocation)
  (tbl : list RepaymentScheduleItem) : list RepaymentScheduleItem :=
  fold_left (fun t a => map (unpay a) t) allocs tbl.

Definition unpay_row (allocs : list RepaymentAllocation)
  (r : RepaymentScheduleItem) : RepaymentScheduleItem :=
  fold_left (fun r a => unpay a r) allocs r.

(** [include: { allocations: true }] *)
Definition allocations_of (id : Id) (d : Db) : list RepaymentAllocation :=
  filter (fun a => Nat.eqb (repaymentId a) id) (allocations d).

(** The tables after the re-check of the loan status and after the whole
    of [deleteRepayment], when every write is served. *)
Definition reopen_db (loanId : Id) (d : Db) : Db :=
  if Nat.ltb 0 (count_notPaid loanId d)
  then set_loans d
         (update_row loan_id loanId (set_loan_status ACTIVE None) (loans d))
  else d.

Definition delete_db (id loanId : Id) (now : Date) (d : Db) : Db :=
  reopen_db loanId
    (set_repayments
       (set_scheduleItems d
          (reverse_items (allocations_of id d) (scheduleItems d)))
       (update_row rep_id id (set_rep_deletedAt (Some now)) (repayments d))).

(** ** Conditions on the world and on a call *)

(** The store serves every write. *)
Definition reliable (w : World) : Prop := faults w = None.

(** A payment is accepted when the loan exists, is not soft-deleted and is
    ACTIVE. *)
Definition payable (loanId : Id) (d : Db) : Prop :=
  exists l, find (fun x => Nat.eqb (loan_id x) loanId) (loans d) = Some l
            /\ loan_deletedAt l = None /\ loan_status l = ACTIVE.

(** The checks [deleteRepayment] makes before it touches the store. *)
Definition branch_ok (userRole : Role) (userBranchId : option Id)
  (loan : option Loan) : bool :=
  match userRole, userBranchId with
  | BRANCH_MANAGER, Some b =>
      match loan with
      | Some l => Nat.eqb (loan_branchId l) b
      | None => false
      end
  | _, _ => true
  end.

Definition may_delete (userRole : Role) (userBranchId : option Id)
  (r : Repayment) (w : World) : bool :=
  negb (truthy (rep_deletedAt r))
  && negb (Role_eqb userRole CREDIT_OFFICER)
  && branch_ok userRole userBranchId
       (find (fun x => Nat.eqb (loan_id x) (rep_loanId r)) (loans (db w)))
  && negb (clock w - createdAt r >? day_ms).

(** Every allocation row points to an existing repayment row. *)
Definition allocations_linked (d : Db) : Prop :=
  forall a, In a (allocations d) ->
            has_id rep_id (repaymentId a) (repayments d) = true.

(** ** Orderings of the outstanding items *)

(** The order the query asks for: ascending due date. *)
Definition due_le (a b : RepaymentScheduleItem) : Prop :=
  dueDate a <= dueDate b.

(** The order with the tie-break on the sequence number: ascending due
    date, and ascending sequence number among equal due dates. *)
Definition due_seq_leb (a b : RepaymentScheduleItem) : bool :=
  (dueDate a <? dueDate b)
  || ((dueDate a =? dueDate b) && Nat.leb (sequence a) (sequence b)).

Fixpoint sorted_by (leb : RepaymentScheduleItem -> RepaymentScheduleItem -> bool)
  (l : list RepaymentScheduleItem) : bool :=
  match l with
  | [] => true
  | x :: rest => forallb (leb x) rest && sorted_by leb rest
  end.

(** ** Amounts *)

(** Step 3 of the allocation in the specification's words: skip an item
    with nothing outstanding, give the item [min(remaining, outstanding)],
    subtract it, and stop once nothing remains. *)
Fixpoint spec_walk (items : list RepaymentScheduleItem) (remaining : Decimal)
  : Plan :=
  match items with
  | [] => []
  | item :: rest =>
      let outstanding := totalDue item - paidAmount item in
      if outstanding <=? 0 then spec_walk rest remaining
      else
        let allocated := Z.min remaining outstanding in
        (item, allocated)
          :: (if remaining - allocated <=? 0 then []
              else spec_walk rest (remaining - allocated))
  end.

(** [totalDue - paidAmount], the outstanding amount of an installment. *)
Definition outstanding (i : RepaymentScheduleItem) : Decimal :=
  totalDue i - paidAmount i.

Definition owing (i : RepaymentScheduleItem) : bool := 0 <? outstanding i.

Definition sumZ (l : list Z) : Z := fold_right Z.add 0 l.

(** What all outstanding items of a fetched list still owe together. *)
Definition total_outstanding (items : list RepaymentScheduleItem) : Decimal :=
  sumZ (map (fun i => Z.max 0 (outstanding i)) items).

(** ** Reversal of the payment just made *)

(** The schedule items that hold an allocation of repayment [rid]. *)
Definition touched_by (rid : Id) (d : Db) (x : RepaymentScheduleItem) : bool :=
  existsb (fun a => Nat.eqb (scheduleItemId a) (item_id x))
    (allocations_of rid d).

(** What the reversal writes into an item the payment had touched: the
    paid amount as it was, the status recomputed from that amount alone, and
    no closing date. *)
Definition restored (x : RepaymentScheduleItem) : RepaymentScheduleItem :=
  set_payment (paidAmount x)
    (if paidAmount x <=? 0 then PENDING else PARTIAL) None x.

(** ** The ledger *)

(** An allocation is active when its repayment exists and is not
    soft-deleted. *)
Definition active (d : Db) (a : RepaymentAllocation) : bool :=
  match find (fun r => Nat.eqb (rep_id r) (repaymentId a)) (repayments d) with
  | Some r => negb (truthy (rep_deletedAt r))
  | None => false
  end.

(** Sum of the active allocation amounts of the schedule item [itemId]. *)
Definition active_sum (d : Db) (itemId : Id) : Decimal :=
  sumZ (map alloc_amount
          (filter (fun a => Nat.eqb (scheduleItemId a) itemId && active d a)
             (allocations d))).

(** A consistent ledger: item identifiers are unique, every allocation
    points to an existing repayment and is not negative, and every item has
    been paid at least what its active allocations say and at most what is
    due. A loan that has just been activated (nothing paid, no allocation)
    is in this state. *)
Record ledger_ok (d : Db) : Prop := mkLedger {
  ledger_ids : NoDup (map item_id (scheduleItems d));
  ledger_linked : allocations_linked d;
  ledger_amounts : forall a, In a (allocations d) -> 0 <= alloc_amount a;
  ledger_paid :
    forall i, In i (scheduleItems d) ->
              active_sum d (item_id i) <= paidAmount i <= totalDue i
}.

(** A call of one of the two operations of the engine. *)
Inductive Call :=
  | RecordPayment (data : CreateRepaymentData) (user : Id)
  | ReverseRepayment (id : Id) (userRole : Role) (userBranchId : option Id).

(** The store after a call made at time [now] on a reliable store,
    whether the call returns or throws. *)
Definition after_call (now : Date) (c : Call) (d : Db) : Db :=
  match c with
  | RecordPayment data user =>
      db (snd (createRepayment data user (mkWorld d now None)))
  | ReverseRepayment id userRole userBranchId =>
      db (snd (deleteRepayment id userRole userBranchId (mkWorld d now None)))
  end.

Definition after_calls (calls : list (Date * Call)) (d : Db) : Db :=
  fold_left (fun d tc => after_call (fst tc) (snd tc) d) calls d.

(** ** Sample stores *)

Definition jan_1_2024 : Date := 1704067200000.
Definition feb_1_2024 : Date := 1706745600000.
Definition mar_1_2024 : Date := 1709251200000.

(** One hour, in milliseconds. *)
Definition hour_ms : Z := 1000 * 60 * 60.

Definition active_loan : Loan := mkLoan 1 ACTIVE 10 None None.

Definition cash (loanId : Id) (amount : Decimal) : CreateRepaymentData :=
  mkData loanId amount None CASH None None.

(** One ACTIVE loan with a single PENDING installment of 50. *)
Definition one_pending_db : Db :=
  mkDb [active_loan]
       [mkItem 1 1 1 jan_1_2024 50 0 PENDING None None] [] [].

(** Two PENDING installments of 50 due on different days, stored with the
    later one first. *)
Definition two_pending_db : Db :=
  mkDb [active_loan]
       [mkItem 2 1 2 feb_1_2024 50 0 PENDING None None;
        mkItem 1 1 1 jan_1_2024 50 0 PENDING None None] [] [].

(** Two installments of one loan due on the same day, stored with the
    later installment first. *)
Definition same_day_db : Db :=
  mkDb [active_loan]
       [mkItem 2 1 2 jan_1_2024 50 0 PENDING None None;
        mkItem 1 1 1 jan_1_2024 50 0 PENDING None None] [] [].

(** The same rows, stored with the earlier installment first. *)
Definition same_day_db' : Db :=
  mkDb [active_loan]
       [mkItem 1 1 1 jan_1_2024 50 0 PENDING None None;
        mkItem 2 1 2 jan_1_2024 50 0 PENDING None None] [] [].

(** One ACTIVE loan whose only unpaid installment is PARTIAL, 60 of 100. *)
Definition last_partial_db : Db :=
  mkDb [active_loan]
       [mkItem 1 1 1 jan_1_2024 100 100 PAID (Some jan_1_2024) None;
        mkItem 2 1 2 feb_1_2024 100 60 PARTIAL None None]
       [mkRepayment 1 1 7 160 jan_1_2024 CASH None None jan_1_2024 None]
       [mkAlloc 1 1 100; mkAlloc 1 2 60].

(** One ACTIVE loan with an OVERDUE installment of 50, nothing paid. *)
Definition overdue_db : Db :=
  mkDb [active_loan]
       [mkItem 1 1 1 jan_1_2024 50 0 OVERDUE None None] [] [].

(** A DEFAULTED loan with one PARTIAL installment (20 of 50) paid by a
    repayment recorded on 1 March 2024. *)
Definition defaulted_db : Db :=
  mkDb [mkLoan 1 DEFAULTED 10 None None]
       [mkItem 1 1 1 jan_1_2024 50 20 PARTIAL None None]
       [mkRepayment 1 1 7 20 mar_1_2024 CASH None None mar_1_2024 None]
       [mkAlloc 1 1 20].

(** ** Further properties of the engine *)

(** The allocation rows a call has appended: the rows of [w'] after those
    of [w]. *)
Definition added_allocations (w w' : World) : list RepaymentAllocation :=
  skipn (List.length (allocations (db w))) (allocations (db w')).

(** What the new allocation rows [news] give to the item [itemId]. *)
Definition given_to (itemId : Id) (news : list RepaymentAllocation) : Decimal :=
  sumZ (map alloc_amount
          (filter (fun a => Nat.eqb (scheduleItemId a) itemId) news)).

(** The columns of a schedule item the engine never writes. *)
Definition fixed_columns (x : RepaymentScheduleItem)
  : Id * Id * nat * Date * Decimal * option Date :=
  (item_id x, item_loanId x, sequence x, dueDate x, totalDue x,
   item_deletedAt x).

(** The item table [t'] has the rows of [t], rewritten at most in
    paidAmount, status and closedAt, and the rows whose identifier is not
    in [ids] are as they were. *)
Definition only_rows (ids : list Id)
  (t t' : list RepaymentScheduleItem) : Prop :=
  exists g, t' = map g t
            /\ (forall x, fixed_columns (g x) = fixed_columns x)
            /\ (forall x, ~ In (item_id x) ids -> g x = x).

(** The books are exact: every item has been paid exactly what its active
    allocations say. *)
Definition books_exact (d : Db) : Prop :=
  forall i, In i (scheduleItems d) -> paidAmount i = active_sum d (item_id i).

(** The status of an item with a positive totalDue tells whether it is
    fully paid. *)
Definition status_sound (x : RepaymentScheduleItem) : Prop :=
  0 < totalDue x -> (item_status x = PAID <-> totalDue x <= paidAmount x).

(** ** The other operations of the repayment service *)

(** Columns of the Loan table that [Loan] leaves out and that the service
    only reads: the officer the loan is assigned to and the user who
    created it (null when absent), looked up by the loan's identifier. *)
Record LoanStaff := mkStaff {
  assignedOfficerId : option Id;
  createdByUserId : option Id
}.

Definition StaffColumns := Id -> LoanStaff.

(** [column === userId] on a nullable column and an optional argument:
    [null] and [undefined] equal no identifier and are not equal to each
    other. *)
Definition same_user (column userId : option Id) : bool :=
  match column, userId with
  | Some a, Some u => Nat.eqb a u
  | _, _ => false
  end.

(** The [data] of [updateRepayment]; an absent field leaves the column as
    it is. *)
Record UpdateRepaymentData := mkUpdate {
  upd_method : option RepaymentMethod;
  upd_reference : option string;
  upd_notes : option string
}.

(** [data: { method, reference, notes }] *)
Definition set_metadata (data : UpdateRepaymentData) (r : Repayment)
  : Repayment :=
  mkRepayment (rep_id r) (rep_loanId r) (receivedByUserId r) (rep_amount r)
    (paidAt r)
    (match upd_method data with Some m => m | None => method r end)
    (match upd_reference data with Some s => Some s | None => reference r end)
    (match upd_notes data with Some s => Some s | None => notes r end)
    (createdAt r) (rep_deletedAt r).

(** [prisma.repayment.update({ where: { id }, data })], returning the
    updated row. *)
Definition repayment_update (id : Id) (data : UpdateRepaymentData)
  (r : Repayment) : Prisma Repayment :=
  fun w =>
    if has_id rep_id id (repayments (db w)) then
      match commit (fun d => set_repayments d
                      (update_row rep_id id (set_metadata data)
                         (repayments d))) w with
      | (Ok _, w') => (Ok (set_metadata data r), w')
      | (Throw e, w') => (Throw e, w')
      end
    else (Throw "Record to update not found", w).

(** [userRole === Role.CREDIT_OFFICER &&
     repayment.loan.assignedOfficerId !== userId] *)
Definition officer_guard (staff : StaffColumns) (userRole : Role)
  (userId : option Id) (loan : option Loan) : Prisma unit :=
  match userRole with
  | CREDIT_OFFICER =>
      match loan with
      | Some l =>
          if negb (same_user (assignedOfficerId (staff (loan_id l))) userId)
          then throw "You do not have permission to update this repayment"
          else ret tt
      | None =>
          throw "Cannot read properties of null (reading 'assignedOfficerId')"
      end
  | _ => ret tt
  end.

(** [userRole === Role.BRANCH_MANAGER && userBranchId &&
     repayment.loan.branchId !== userBranchId] *)
Definition manager_guard (userRole : Role) (userBranchId : option Id)
  (loan : option Loan) : Prisma unit :=
  match userRole, userBranchId with
  | BRANCH_MANAGER, Some b =>
      match loan with
      | Some l =>
          if negb (Nat.eqb (loan_branchId l) b)
          then throw "You do not have permission to update this repayment"
          else ret tt
      | None => throw "Cannot read properties of null (reading 'branchId')"
      end
  | _, _ => ret tt
  end.

Definition updateRepayment (staff : StaffColumns) (id : Id)
  (data : UpdateRepaymentData) (userRole : Role)
  (userBranchId userId : option Id) : Prisma Repayment :=
  repayment <- query (fun d =>
                 find (fun r => Nat.eqb (rep_id r) id) (repayments d)) ;;
  match repayment with
  | None => throw "Repayment not found"
  | Some r =>
      if truthy (rep_deletedAt r) then throw "Repayment not found"
      else
        loan <- loan_findUnique (rep_loanId r) ;;
        officer_guard staff userRole userId loan ;;;
        manager_guard userRole userBranchId loan ;;;
        now <- newDate ;;
        if now - createdAt r >? day_ms
        then throw "Cannot update repayment after 24 hours"
        else repayment_update id data r
  end.

(** What [getRepaymentById] returns: the repayment with its loan and its
    allocations. *)
Record RepaymentView := mkView {
  view_repayment : Repayment;
  view_loan : Loan;
  view_allocations : list RepaymentAllocation
}.

Definition getRepaymentById (staff : StaffColumns) (id : Id)
  (userRole : Role) (userBranchId userId : option Id)
  : Prisma RepaymentView :=
  repayment <- query (fun d =>
                 find (fun r => Nat.eqb (rep_id r) id
                                && negb (truthy (rep_deletedAt r)))
                   (repayments d)) ;;
  match repayment with
  | None => throw "Repayment not found"
  | Some r =>
      loan <- loan_findUnique (rep_loanId r) ;;
      allocs <- query (allocations_of id) ;;
      match loan with
      | None => throw "Cannot read properties of null (reading 'branchId')"
      | Some l =>
          let view := mkView r l allocs in
          match userRole, userBranchId with
          | ADMIN, _ => ret view
          | BRANCH_MANAGER, Some b =>
              if negb (Nat.eqb (loan_branchId l) b)
              then throw "You do not have permission to view this repayment"
              else ret view
          | CREDIT_OFFICER, _ =>
              if negb (same_user (assignedOfficerId (staff (loan_id l))) userId)
                 && negb (same_user (createdByUserId (staff (loan_id l))) userId)
              then throw "You do not have permission to view this repayment"
              else ret view
          | BRANCH_MANAGER, None =>
              throw "You do not have permission to view this repayment"
          end
      end
  end.

(** [filters] of [getRepayments]; [None] is an absent field. Page and
    limit are natural numbers. *)
Record RepaymentFilters := mkFilters {
  filter_page : option nat;
  filter_limit : option nat;
  filter_loanId : option Id;
  filter_receivedByUserId : option Id;
  filter_method : option RepaymentMethod;
  filter_dateFrom : option Date;
  filter_dateTo : option Date
}.

(** [n || d] on an optional number: absent and zero both give [d]. *)
Definition or_default (n : option nat) (d : nat) : nat :=
  match n with
  | Some (S k) => S k
  | _ => d
  end.

Definition RepaymentMethod_eqb (a b : RepaymentMethod) : bool :=
  match a, b with
  | CASH, CASH | TRANSFER, TRANSFER | POS, POS | MOBILE, MOBILE
  | USSD, USSD | OTHER, OTHER => true
  | _, _ => false
  end.

(** An optional filter on a column: absent filters let every row pass. *)
Definition passes {A} (eqb : A -> A -> bool) (f : option A) (v : A) : bool :=
  match f with Some x => eqb v x | None => true end.

(** [where.paidAt = { gte: dateFrom, lte: dateTo }], each bound optional. *)
Definition in_range (from to : option Date) (t : Date) : bool :=
  match from with Some a => a <=? t | None => true end
  && match to with Some b => t <=? b | None => true end.

Definition loan_of (d : Db) (r : Repayment) : option Loan :=
  find (fun l => Nat.eqb (loan_id l) (rep_loanId r)) (loans d).

(** The [where.loan] relation filter [getRepayments] builds from the role:
    nothing for ADMIN; the caller's branch and a non-deleted loan for a
    BRANCH_MANAGER with a branch; loans assigned to or created by the caller
    and not deleted for a CREDIT_OFFICER; a filter nothing satisfies
    otherwise. [userId] is the identifier of the authenticated caller. *)
Definition list_scope (staff : StaffColumns) (userRole : Role)
  (userBranchId : option Id) (userId : Id) (d : Db) (r : Repayment) : bool :=
  match userRole, userBranchId with
  | ADMIN, _ => true
  | BRANCH_MANAGER, Some b =>
      match loan_of d r with
      | Some l => Nat.eqb (loan_branchId l) b
                  && negb (truthy (loan_deletedAt l))
      | None => false
      end
  | CREDIT_OFFICER, _ =>
      match loan_of d r with
      | Some l =>
          (same_user (assignedOfficerId (staff (loan_id l))) (Some userId)
           || same_user (createdByUserId (staff (loan_id l))) (Some userId))
          && negb (truthy (loan_deletedAt l))
      | None => false
      end
  | BRANCH_MANAGER, None => false
  end.

(** The whole [where] of [getRepayments]. *)
Definition list_where (staff : StaffColumns) (filters : RepaymentFilters)
  (userRole : Role) (userBranchId : option Id) (userId : Id) (d : Db)
  (r : Repayment) : bool :=
  negb (truthy (rep_deletedAt r))
  && list_scope staff userRole userBranchId userId d r
  && passes Nat.eqb (filter_loanId filters) (rep_loanId r)
  && passes Nat.eqb (filter_receivedByUserId filters) (receivedByUserId r)
  && passes RepaymentMethod_eqb (filter_method filters) (method r)
  && in_range (filter_dateFrom filters) (filter_dateTo filters) (paidAt r).

(** [orderBy: { paidAt: "desc" }]; rows with equal [paidAt] keep the
    store's row order. *)
Fixpoint insert_by_paidAt (x : Repayment) (l : list Repayment)
  : list Repayment :=
  match l with
  | [] => [x]
  | y :: l' =>
      if paidAt y <=? paidAt x then x :: y :: l'
      else y :: insert_by_paidAt x l'
  end.

Definition orderBy_paidAt_desc (l : list Repayment) : list Repayment :=
  fold_right insert_by_paidAt [] l.

Record RepaymentPage := mkPage {
  page_repayments : list Repayment;
  page_total : nat;
  page_page : nat;
  page_limit : nat
}.

Definition getRepayments (staff : StaffColumns) (filters : RepaymentFilters)
  (userRole : Role) (userBranchId : option Id) (userId : Id)
  : Prisma RepaymentPage :=
  let page := or_default (filter_page filters) 1 in
  let limit := or_default (filter_limit filters) 20 in
  let skip := ((page - 1) * limit)%nat in
  let where_ := list_where staff filters userRole userBranchId userId in
  repayments_ <- query (fun d =>
                   firstn limit
                     (skipn skip
                        (orderBy_paidAt_desc
                           (filter (where_ d) (repayments d))))) ;;
  total <- query (fun d => List.length (filter (where_ d) (repayments d))) ;;
  ret (mkPage repayments_ total page limit).

(** [filters] of [getRepaymentSummary]. *)
Record SummaryFilters := mkSummaryFilters {
  summary_loanId : option Id;
  summary_dateFrom : option Date;
  summary_dateTo : option Date
}.

(** The [where] of [getRepaymentSummary]: non-deleted repayments, the
    optional filters, and by role the loans of the caller's branch
    (BRANCH_MANAGER with a branch) or the loans assigned to the caller
    (CREDIT_OFFICER); no restriction otherwise. *)
Definition summary_where (staff : StaffColumns) (filters : SummaryFilters)
  (userRole : Role) (userBranchId : option Id) (userId : Id) (d : Db)
  (r : Repayment) : bool :=
  negb (truthy (rep_deletedAt r))
  && passes Nat.eqb (summary_loanId filters) (rep_loanId r)
  && in_range (summary_dateFrom filters) (summary_dateTo filters) (paidAt r)
  && match userRole, userBranchId with
     | BRANCH_MANAGER, Some b =>
         match loan_of d r with
         | Some l => Nat.eqb (loan_branchId l) b
         | None => false
         end
     | CREDIT_OFFICER, _ =>
         match loan_of d r with
         | Some l =>
             same_user (assignedOfficerId (staff (loan_id l))) (Some userId)
         | None => false
         end
     | _, _ => true
     end.

Definition all_methods : list RepaymentMethod :=
  [CASH; TRANSFER; POS; MOBILE; USSD; OTHER].

(** One group of [groupBy({ by: ["method"], _sum: { amount }, _count })]. *)
Record MethodGroup := mkGroup {
  group_method : RepaymentMethod;
  group_sum : Decimal;
  group_count : nat
}.

(** The groups of the methods that occur, in the order of the enum. *)
Definition groupBy_method (rows : list Repayment) : list MethodGroup :=
  flat_map
    (fun m =>
       match filter (fun r => RepaymentMethod_eqb (method r) m) rows with
       | [] => []
       | g => [mkGroup m (sumZ (map rep_amount g)) (List.length g)]
       end)
    all_methods.

Record RepaymentSummary := mkSummary {
  totalRepayments : nat;
  totalAmount : Decimal;
  methodBreakdown : list MethodGroup;
  recentRepayments : list Repayment
}.

Definition getRepaymentSummary (staff : StaffColumns)
  (filters : SummaryFilters) (userRole : Role) (userBranchId : option Id)
  (userId : Id) : Prisma RepaymentSummary :=
  let where_ := summary_where staff filters userRole userBranchId userId in
  count <- query (fun d => List.length (filter (where_ d) (repayments d))) ;;
  sum <- query (fun d => sumZ (map rep_amount
                                 (filter (where_ d) (repayments d)))) ;;
  groups <- query (fun d => groupBy_method (filter (where_ d) (repayments d))) ;;
  recent <- query (fun d =>
              firstn 5 (orderBy_paidAt_desc
                          (filter (where_ d) (repayments d)))) ;;
  ret (mkSummary count sum groups recent).

(** Every repayment row points to an existing loan row. *)
Definition repayments_linked (d : Db) : Prop :=
  forall r, In r (repayments d) -> loan_of d r <> None.


(** Descending [paidAt]. *)
Definition paidAt_ge (a b : Repayment) : Prop := paidAt b <= paidAt a.

(** ** Repayment schedules *)

(** [orderBy: { sequence: "asc" }]; rows with equal [sequence] keep the
    store's row order. *)
Fixpoint insert_by_sequence (x : RepaymentScheduleItem)
  (l : list RepaymentScheduleItem) : list RepaymentScheduleItem :=
  match l with
  | [] => [x]
  | y :: l' =>
      if (sequence x <=? sequence y)%nat then x :: y :: l'
      else y :: insert_by_sequence x l'
  end.

Definition orderBy_sequence_asc (l : list RepaymentScheduleItem)
  : list RepaymentScheduleItem :=
  fold_right insert_by_sequence [] l.

(** A schedule item with its included [allocations] relation. *)
Record ScheduleItemView := mkItemView {
  view_item : RepaymentScheduleItem;
  view_item_allocations : list RepaymentAllocation
}.

(** [include: { allocations: ... }]: every allocation row of the item. *)
Definition with_allocations (d : Db) (i : RepaymentScheduleItem)
  : ScheduleItemView :=
  mkItemView i
    (filter (fun a => Nat.eqb (scheduleItemId a) (item_id i)) (allocations d)).

(** What [getRepaymentScheduleByLoan] returns. *)
Record LoanSchedule := mkLoanSchedule {
  schedule_loan : Loan;
  schedule : list ScheduleItemView
}.

(** [where: { loanId, deletedAt: null }] *)
Definition schedule_of_loan (loanId : Id) (i : RepaymentScheduleItem) : bool :=
  Nat.eqb (item_loanId i) loanId && negb (truthy (item_deletedAt i)).

Definition getRepaymentScheduleByLoan (staff : StaffColumns) (loanId : Id)
  (userRole : Role) (userBranchId userId : option Id) : Prisma LoanSchedule :=
  loan <- loan_findUnique loanId ;;
  match loan with
  | None => throw "Loan not found"
  | Some l =>
      if truthy (loan_deletedAt l) then throw "Loan not found"
      else if Role_eqb userRole BRANCH_MANAGER
              && match userBranchId with
                 | Some b => negb (Nat.eqb (loan_branchId l) b)
                 | None => false
                 end
      then throw "You do not have permission to view this loan's schedule"
      else if Role_eqb userRole CREDIT_OFFICER
              && negb (same_user (assignedOfficerId (staff (loan_id l))) userId)
      then throw "You do not have permission to view this loan's schedule"
      else
        schedule_ <- query (fun d =>
                       map (with_allocations d)
                         (orderBy_sequence_asc
                            (filter (schedule_of_loan loanId)
                               (scheduleItems d)))) ;;
        ret (mkLoanSchedule l schedule_)
  end.

(** [filters] of [getRepaymentSchedules]. [page] and [limit] are required
    numbers, here natural numbers; [status] is one of the values of the
    enum. *)
Record ScheduleFilters := mkScheduleFilters {
  sched_page : nat;
  sched_limit : nat;
  sched_loanId : option Id;
  sched_status : option ScheduleStatus;
  sched_dateFrom : option Date;
  sched_dateTo : option Date
}.

(** The [where] of [getRepaymentSchedules]; the role-based part is commented
    out in the source. *)
Definition schedules_where (filters : ScheduleFilters)
  (i : RepaymentScheduleItem) : bool :=
  negb (truthy (item_deletedAt i))
  && passes Nat.eqb (sched_loanId filters) (item_loanId i)
  && passes ScheduleStatus_eqb (sched_status filters) (item_status i)
  && in_range (sched_dateFrom filters) (sched_dateTo filters) (dueDate i).

Record SchedulePage := mkSchedulePage {
  page_schedules : list ScheduleItemView;
  schedules_total : nat;
  schedules_page : nat;
  schedules_limit : nat
}.

(** [skip = (page - 1) * limit] is negative for page 0 and a positive
    limit, and the store rejects a negative [skip]; the three debugging
    queries before the page is read are reads whose results are only
    logged. *)
Definition getRepaymentSchedules (filters : ScheduleFilters) (userRole : Role)
  (userBranchId userId : option Id) : Prisma SchedulePage :=
  let where_ := schedules_where filters in
  totalScheduleItems <- query (fun d => List.length (scheduleItems d)) ;;
  totalActiveScheduleItems <-
    query (fun d => List.length
                      (filter (fun i => negb (truthy (item_deletedAt i)))
                         (scheduleItems d))) ;;
  testQuery <- query (fun d => firstn 5 (filter where_ (scheduleItems d))) ;;
  if Nat.eqb (sched_page filters) 0 && Nat.ltb 0 (sched_limit filters)
  then throw "Invalid value for skip argument: Value can only be positive"
  else
    let skip := ((sched_page filters - 1) * sched_limit filters)%nat in
    schedules <- query (fun d =>
                   map (with_allocations d)
                     (firstn (sched_limit filters)
                        (skipn skip
                           (orderBy_dueDate_asc
                              (filter where_ (scheduleItems d)))))) ;;
    total <- query (fun d => List.length (filter where_ (scheduleItems d))) ;;
    ret (mkSchedulePage schedules total (sched_page filters)
           (sched_limit filters)).

(** Ascending [sequence]. *)
Definition sequence_le (a b : RepaymentScheduleItem) : Prop :=
  (sequence a <= sequence b)%nat.

(** Who [getRepaymentScheduleByLoan] lets through. *)
Definition schedule_allowed (staff : StaffColumns) (userRole : Role)
  (userBranchId userId : option Id) (l : Loan) : bool :=
  negb (truthy (loan_deletedAt l))
  && negb (Role_eqb userRole BRANCH_MANAGER
           && match userBranchId with
              | Some b => negb (Nat.eqb (loan_branchId l) b)
              | None => false
              end)
  && negb (Role_eqb userRole CREDIT_OFFICER
           && negb (same_user (assignedOfficerId (staff (loan_id l))) userId)).

(** ** The role guard of the routes (role.middleware.ts) *)

(** What a middleware does with a request: hand it on ([next()]) or answer
    it with an error status and message. *)
Inductive Guard :=
  | Next
  | Respond (status : nat) (message : string).

(** [requireRole(...roles)] applied to [req.user], of which only the role is
    read; [None] is a request without a user. *)
Definition requireRole (roles : list Role) (user : option Role) : Guard :=
  match user with
  | None => Respond 401 "Unauthorized"
  | Some role =>
      if negb (existsb (Role_eqb role) roles)
      then Respond 403 "Forbidden: Insufficient permissions"
      else Next
  end.

Definition requireAdmin := requireRole [ADMIN].
Definition requireBranchManager := requireRole [ADMIN; BRANCH_MANAGER].
Definition requireAdminOrManager := requireRole [ADMIN; BRANCH_MANAGER].
Definition requireStaff := requireRole [ADMIN; BRANCH_MANAGER; CREDIT_OFFICER].
Definition requireAdminOrBranchManager := requireRole [ADMIN; BRANCH_MANAGER].

(** ** The repayment routes (the router of the repayment endpoints) *)

Inductive Verb := GET | POST | PUT | DELETE.

Definition Verb_eqb (a b : Verb) : bool :=
  match a, b with
  | GET, GET | POST, POST | PUT, PUT | DELETE, DELETE => true
  | _, _ => false
  end.

(** One part of a route path between two slashes: a literal or a named
    parameter ([:id]). *)
Inductive Segment :=
  | Lit (s : string)
  | Param (name : string).

(** The handlers of [RepaymentController] the routes end in. *)
Module RepaymentController.
Inductive Handler :=
  | createRepayment | getRepayments | getRepaymentById | updateRepayment
  | deleteRepayment | getRepaymentSchedules | getRepaymentScheduleByLoan
  | getRepaymentSummary.
End RepaymentController.

(** A route: method, path, the roles of its [requireRole] guard, handler. *)
Record Route := mkRoute {
  route_verb : Verb;
  route_path : list Segment;
  route_roles : list Role;
  route_handler : RepaymentController.Handler
}.

(** The routes in the order in which the router registers them. *)
Definition repayment_routes : list Route :=
  [ mkRoute POST [] [ADMIN; BRANCH_MANAGER; CREDIT_OFFICER]
      RepaymentController.createRepayment;
    mkRoute GET [] [ADMIN; BRANCH_MANAGER; CREDIT_OFFICER]
      RepaymentController.getRepayments;
    mkRoute GET [Param "id"] [ADMIN; BRANCH_MANAGER; CREDIT_OFFICER]
      RepaymentController.getRepaymentById;
    mkRoute PUT [Param "id"] [ADMIN; BRANCH_MANAGER; CREDIT_OFFICER]
      RepaymentController.updateRepayment;
    mkRoute DELETE [Param "id"] [ADMIN; BRANCH_MANAGER]
      RepaymentController.deleteRepayment;
    mkRoute GET [Lit "schedules"] [ADMIN; BRANCH_MANAGER; CREDIT_OFFICER]
      RepaymentController.getRepaymentSchedules;
    mkRoute GET [Lit "schedules"; Param "loanId"]
      [ADMIN; BRANCH_MANAGER; CREDIT_OFFICER]
      RepaymentController.getRepaymentScheduleByLoan;
    mkRoute GET [Lit "summary"] [ADMIN; BRANCH_MANAGER; CREDIT_OFFICER]
      RepaymentController.getRepaymentSummary ].

(** Literal parts are compared without regard to case (the router's
    default). *)
Definition lower_ascii (c : Ascii.ascii) : Ascii.ascii :=
  let n := Ascii.nat_of_ascii c in
  if Nat.leb 65 n && Nat.leb n 90 then Ascii.ascii_of_nat (n + 32) else c.

Fixpoint lower (s : string) : string :=
  match s with
  | EmptyString => EmptyString
  | String c s' => String (lower_ascii c) (lower s')
  end.

(** A parameter matches any one part of the request path. *)
Definition segment_matches (p : Segment) (s : string) : bool :=
  match p with
  | Lit x => String.eqb (lower s) (lower x)
  | Param _ => true
  end.

(** A request path is the list of its parts between the slashes. *)
Fixpoint path_matches (pattern : list Segment) (path : list string) : bool :=
  match pattern, path with
  | [], [] => true
  | p :: ps, s :: ss => segment_matches p s && path_matches ps ss
  | _, _ => false
  end.

(** The route a request is given to: the first one, in the order of
    registration, whose method and path match. *)
Definition dispatch (routes : list Route) (verb : Verb) (path : list string)
  : option Route :=
  find (fun r => Verb_eqb (route_verb r) verb
                 && path_matches (route_path r) path) routes.

(** ** Completion, in the words of the specification *)

(** A schedule item that stands in the way of the completion of the loan
    [loanId]: an item of that loan that is not deleted and whose status is
    not PAID. *)
Definition unpaid_item (loanId : Id) (i : RepaymentScheduleItem) : Prop :=
  item_loanId i = loanId /\ item_deletedAt i = None /\ item_status i <> PAID.


(** ** Monad and store lemmas *)

Lemma bind_ok {A B} (m : Prisma A) (k : A -> Prisma B) w a w' :
  m w = (Ok a, w') -> bind m k w = k a w'.
Proof. intros H. unfold bind. now rewrite H. Qed.

Lemma bind_throw {A B} (m : Prisma A) (k : A -> Prisma B) w e w' :
  m w = (Throw e, w') -> bind m k w = (Throw e, w').
Proof. intros H. unfold bind. now rewrite H. Qed.

Lemma set_db_same w : set_db w (db w) = w.
Proof. now destruct w. Qed.

Lemma set_scheduleItems_same d : set_scheduleItems d (scheduleItems d) = d.
Proof. now destruct d. Qed.

Lemma commit_reliable f w :
  reliable w -> commit f w = (Ok tt, set_db w (f (db w))).
Proof. unfold reliable, commit. now intros ->. Qed.

Lemma has_id_true {A} (key : A -> Id) id l :
  has_id key id l = true <-> exists r, In r l /\ key r = id.
Proof.
  unfold has_id. rewrite existsb_exists. split.
  - intros (r & Hin & He). exists r. split; [assumption|].
    now apply Nat.eqb_eq.
  - intros (r & Hin & He). exists r. split; [assumption|].
    now apply Nat.eqb_eq.
Qed.

Lemma has_id_In {A} (key : A -> Id) r l :
  In r l -> has_id key (key r) l = true.
Proof. intros H. apply has_id_true. now exists r. Qed.

Lemma update_row_ids {A} (key : A -> Id) id f (l : list A) :
  (forall r, key (f r) = key r) ->
  map key (update_row key id f l) = map key l.
Proof.
  intros Hf. unfold update_row. rewrite map_map. apply map_ext.
  intros r. destruct (Nat.eqb (key r) id); [apply Hf|reflexivity].
Qed.

Lemma has_id_map_key {A} (key : A -> Id) id (l l' : list A) :
  map key l' = map key l -> has_id key id l' = has_id key id l.
Proof.
  unfold has_id. revert l'.
  induction l as [|r l IH]; intros [|r' l'] H; simpl in *;
    try discriminate; [reflexivity|].
  injection H as Hk Ht. now rewrite Hk, (IH l' Ht).
Qed.

Lemma apply_walk_ids now plan tbl :
  map item_id (apply_walk now plan tbl) = map item_id tbl.
Proof.
  unfold apply_walk. revert tbl.
  induction plan as [|p plan IH]; intros tbl; simpl; [reflexivity|].
  rewrite IH. now apply update_row_ids.
Qed.

(** ** The operations on a reliable store *)

Lemma closedAt_for_run s w :
  closedAt_for s w
  = (Ok (if ScheduleStatus_eqb s PAID then Some (clock w) else None), w).
Proof. unfold closedAt_for. now destruct (ScheduleStatus_eqb s PAID). Qed.

Lemma scheduleItem_update_reliable id p s c w :
  reliable w ->
  has_id item_id id (scheduleItems (db w)) = true ->
  scheduleItem_update id p s c w
  = (Ok tt, set_db w (set_scheduleItems (db w)
       (update_row item_id id (set_payment p s c) (scheduleItems (db w))))).
Proof.
  intros Hr Hid. unfold scheduleItem_update. rewrite Hid.
  now rewrite commit_reliable.
Qed.

Lemma allocate_loop_reliable rid items :
  forall rem acc w,
    reliable w ->
    (forall it, In it items ->
                has_id item_id (item_id it) (scheduleItems (db w)) = true) ->
    allocate_loop rid items rem acc w
    = (Ok (acc ++ map (to_alloc rid) (walk items rem)),
       set_db w (set_scheduleItems (db w)
         (apply_walk (clock w) (walk items rem) (scheduleItems (db w))))).
Proof.
  induction items as [|item rest IH]; intros rem acc w Hr Hids; simpl.
  - unfold ret. now rewrite app_nil_r, set_scheduleItems_same, set_db_same.
  - destruct (rem <=? 0).
    { unfold ret. simpl.
      now rewrite app_nil_r, set_scheduleItems_same, set_db_same. }
    destruct (totalDue item - paidAmount item <=? 0).
    { apply IH; [assumption|]. intros it Hit. apply Hids. now right. }
    set (a := if rem >=? totalDue item - paidAmount item
              then totalDue item - paidAmount item else rem).
    erewrite bind_ok by apply closedAt_for_run.
    erewrite bind_ok.
    2:{ apply scheduleItem_update_reliable; [assumption|].
        apply Hids. now left. }
    rewrite IH.
    + simpl. rewrite <- app_assoc. reflexivity.
    + exact Hr.
    + intros it Hit. simpl.
      erewrite has_id_map_key; [apply Hids; now right|].
      now apply update_row_ids.
Qed.

Lemma insert_by_dueDate_perm x l : Permutation (insert_by_dueDate x l) (x :: l).
Proof.
  induction l as [|y l IH]; simpl; [reflexivity|].
  destruct (dueDate x <=? dueDate y); [reflexivity|].
  rewrite IH. apply perm_swap.
Qed.

Lemma orderBy_dueDate_asc_perm l : Permutation (orderBy_dueDate_asc l) l.
Proof.
  induction l as [|x l IH]; simpl; [reflexivity|].
  rewrite insert_by_dueDate_perm. now constructor.
Qed.

Lemma findMany_outstanding_In loanId d it :
  In it (findMany_outstanding loanId d) <->
  In it (scheduleItems d) /\ outstanding_filter loanId it = true.
Proof.
  unfold findMany_outstanding. rewrite <- filter_In. split; intros H.
  - eapply Permutation_in; [apply orderBy_dueDate_asc_perm|exact H].
  - eapply Permutation_in;
      [apply Permutation_sym, orderBy_dueDate_asc_perm|exact H].
Qed.

Lemma allocatePayment_reliable rid loanId amount w :
  reliable w ->
  allocatePayment rid loanId amount w
  = (Ok tt, set_db w (allocate_db rid loanId amount (clock w) (db w))).
Proof.
  intros Hr. unfold allocatePayment.
  erewrite bind_ok by reflexivity.
  erewrite bind_ok.
  2:{ apply allocate_loop_reliable; [assumption|].
      intros it Hit. apply has_id_In.
      now apply findMany_outstanding_In in Hit. }
  simpl. unfold allocate_db.
  destruct (walk (findMany_outstanding loanId (db w)) amount) as [|p plan] eqn:E.
  - simpl. unfold ret. rewrite app_nil_r. reflexivity.
  - cbn [map app]. unfold allocation_createMany.
    rewrite commit_reliable by exact Hr. reflexivity.
Qed.

Lemma loan_update_reliable id s c w :
  reliable w ->
  has_id loan_id id (loans (db w)) = true ->
  loan_update id s c w
  = (Ok tt, set_db w (set_loans (db w)
       (update_row loan_id id (set_loan_status s c) (loans (db w))))).
Proof.
  intros Hr Hid. unfold loan_update. rewrite Hid.
  now rewrite commit_reliable.
Qed.

Lemma checkLoanCompletion_reliable loanId w :
  reliable w ->
  has_id loan_id loanId (loans (db w)) = true ->
  checkLoanCompletion loanId w
  = (Ok tt, set_db w (complete_db loanId (clock w) (db w))).
Proof.
  intros Hr Hid. unfold checkLoanCompletion, complete_db.
  erewrite bind_ok by reflexivity.
  destruct (Nat.eqb (count_notPaid loanId (db w)) 0).
  - erewrite bind_ok by reflexivity.
    now apply loan_update_reliable.
  - unfold ret. now rewrite set_db_same.
Qed.

Lemma find_some_has_id {A} (key : A -> Id) id l r :
  find (fun x => Nat.eqb (key x) id) l = Some r ->
  has_id key id l = true /\ In r l /\ key r = id.
Proof.
  intros H. apply find_some in H. destruct H as [Hin He].
  apply Nat.eqb_eq in He. repeat split; try assumption.
  apply has_id_true. now exists r.
Qed.

Lemma createRepayment_reliable data user w :
  reliable w ->
  payable (data_loanId data) (db w) ->
  createRepayment data user w
  = (Ok (new_repayment data user (clock w) (db w)),
     set_db w (create_db data user (clock w) (db w))).
Proof.
  intros Hr (l & Hf & Hdel & Hst). unfold createRepayment.
  erewrite bind_ok by (unfold loan_findUnique, query; rewrite Hf; reflexivity).
  cbv beta iota. rewrite Hdel, Hst. cbn [truthy LoanStatus_eqb negb].
  erewrite bind_ok by reflexivity.
  erewrite bind_ok.
  2:{ unfold repayment_create. rewrite commit_reliable by exact Hr.
      reflexivity. }
  fold (new_repayment data user (clock w) (db w)).
  erewrite bind_ok.
  2:{ apply allocatePayment_reliable. exact Hr. }
  erewrite bind_ok.
  2:{ apply checkLoanCompletion_reliable; [exact Hr|].
      simpl. apply (find_some_has_id loan_id _ _ _ Hf). }
  reflexivity.
Qed.

Lemma key_unique {A} (key : A -> Id) (l : list A) r r' :
  NoDup (map key l) -> In r l -> In r' l -> key r = key r' -> r = r'.
Proof.
  induction l as [|x l IH]; simpl; intros Hnd Hr Hr' Hk; [contradiction|].
  inversion Hnd as [|? ? Hx Hnd']; subst.
  destruct Hr as [->|Hr], Hr' as [->|Hr']; auto.
  - exfalso. apply Hx. rewrite Hk. now apply in_map.
  - exfalso. apply Hx. rewrite <- Hk. now apply in_map.
Qed.

Lemma reverse_step_found tbl a it :
  NoDup (map item_id tbl) ->
  find (fun i => Nat.eqb (item_id i) (scheduleItemId a)) tbl = Some it ->
  update_row item_id (scheduleItemId a)
    (set_payment (paidAmount it - alloc_amount a)
       (reversed_status (paidAmount it - alloc_amount a) (totalDue it)) None)
    tbl
  = map (unpay a) tbl.
Proof.
  intros Hnd Hf. apply find_some_has_id in Hf. destruct Hf as (_ & Hin & Hid).
  unfold update_row. apply map_ext_in. intros r Hr. unfold unpay.
  destruct (Nat.eqb (item_id r) (scheduleItemId a)) eqn:E; [|reflexivity].
  apply Nat.eqb_eq in E.
  assert (r = it) as -> by (eapply key_unique; eauto; congruence).
  reflexivity.
Qed.

Lemma reverse_step_missing tbl a :
  find (fun i => Nat.eqb (item_id i) (scheduleItemId a)) tbl = None ->
  map (unpay a) tbl = tbl.
Proof.
  intros Hf. rewrite <- (map_id tbl) at 2. apply map_ext_in. intros r Hr.
  unfold unpay. now rewrite (find_none _ _ Hf r Hr).
Qed.

Lemma unpay_id a r : item_id (unpay a r) = item_id r.
Proof. unfold unpay. now destruct (Nat.eqb _ _). Qed.

Lemma map_unpay_ids a tbl : map item_id (map (unpay a) tbl) = map item_id tbl.
Proof. rewrite map_map. apply map_ext. apply unpay_id. Qed.

Lemma reverse_items_ids allocs :
  forall tbl, map item_id (reverse_items allocs tbl) = map item_id tbl.
Proof.
  unfold reverse_items.
  induction allocs as [|a allocs IH]; intros tbl; simpl; [reflexivity|].
  now rewrite IH, map_unpay_ids.
Qed.

Lemma reverse_loop_reliable allocs :
  forall w,
    reliable w ->
    NoDup (map item_id (scheduleItems (db w))) ->
    reverse_loop allocs w
    = (Ok tt, set_db w (set_scheduleItems (db w)
         (reverse_items allocs (scheduleItems (db w))))).
Proof.
  induction allocs as [|a allocs IH]; intros w Hr Hnd; simpl.
  - unfold ret. now rewrite set_scheduleItems_same, set_db_same.
  - erewrite bind_ok by reflexivity.
    destruct (find (fun i => Nat.eqb (item_id i) (scheduleItemId a))
                (scheduleItems (db w))) as [it|] eqn:Hf.
    + erewrite bind_ok.
      2:{ apply scheduleItem_update_reliable; [exact Hr|].
          apply (find_some_has_id item_id _ _ _ Hf). }
      rewrite IH; [|exact Hr|].
      * pose proof (reverse_step_found _ _ _ Hnd Hf) as E.
        unfold reversed_status in E. simpl. unfold Decimal in *.
        rewrite E. reflexivity.
      * simpl. rewrite update_row_ids; [exact Hnd|reflexivity].
    + rewrite IH by assumption.
      now rewrite (reverse_step_missing _ _ Hf).
Qed.

Lemma update_row_missing {A} (key : A -> Id) id f (l : list A) :
  has_id key id l = false -> update_row key id f l = l.
Proof.
  intros H. unfold update_row. rewrite <- (map_id l) at 2.
  apply map_ext_in. intros r Hr.
  destruct (Nat.eqb (key r) id) eqn:E; [|reflexivity].
  apply Nat.eqb_eq in E. subst id.
  now rewrite (has_id_In key r l Hr) in H.
Qed.

Lemma branch_guard_run role b loan w :
  branch_guard role b loan w
  = if branch_ok role b loan then (Ok tt, w)
    else (Throw (match loan with
                 | Some _ =>
                     "You do not have permission to delete this repayment"
                 | None =>
                     "Cannot read properties of null (reading 'branchId')"
                 end),
          w).
Proof.
  unfold branch_guard, branch_ok.
  destruct role, b as [b|], loan as [l|]; try reflexivity.
  destruct (Nat.eqb (loan_branchId l) b); reflexivity.
Qed.

Lemma deleteRepayment_refused id role b w :
  (forall r, find (fun x => Nat.eqb (rep_id x) id) (repayments (db w)) = Some r
             -> may_delete role b r w = false) ->
  exists e, deleteRepayment id role b w = (Throw e, w).
Proof.
  intros H. unfold deleteRepayment.
  erewrite bind_ok by reflexivity.
  destruct (find _ (repayments (db w))) as [r|] eqn:Hf; [|eexists; reflexivity].
  specialize (H r eq_refl). unfold may_delete in H.
  destruct (truthy (rep_deletedAt r)); [eexists; reflexivity|].
  erewrite bind_ok by reflexivity. erewrite bind_ok by reflexivity.
  destruct (Role_eqb role CREDIT_OFFICER); [eexists; reflexivity|].
  unfold bind at 1. rewrite branch_guard_run.
  destruct (branch_ok role b _); [|eexists; reflexivity].
  erewrite bind_ok by reflexivity.
  simpl in H. rewrite negb_false_iff in H. rewrite H.
  eexists; reflexivity.
Qed.

Lemma deleteRepayment_reliable id role b w r :
  reliable w ->
  NoDup (map item_id (scheduleItems (db w))) ->
  find (fun x => Nat.eqb (rep_id x) id) (repayments (db w)) = Some r ->
  may_delete role b r w = true ->
  exists o,
    deleteRepayment id role b w
    = (o, set_db w (delete_db id (rep_loanId r) (clock w) (db w)))
    /\ (has_id loan_id (rep_loanId r) (loans (db w)) = true -> o = Ok tt).
Proof.
  intros Hr Hnd Hf Hg. unfold may_delete in Hg.
  repeat rewrite andb_true_iff in Hg. destruct Hg as (((Hd & Hc) & Hb) & Ht).
  rewrite negb_true_iff in Hd, Hc, Ht.
  unfold deleteRepayment.
  erewrite bind_ok by reflexivity. rewrite Hf, Hd.
  erewrite bind_ok by reflexivity. erewrite bind_ok by reflexivity.
  rewrite Hc. unfold bind at 1. rewrite branch_guard_run, Hb.
  erewrite bind_ok by reflexivity. rewrite Ht.
  erewrite bind_ok by (apply reverse_loop_reliable; assumption).
  erewrite bind_ok by reflexivity.
  erewrite bind_ok.
  2:{ unfold repayment_softDelete. simpl.
      rewrite (proj1 (find_some_has_id rep_id _ _ _ Hf)).
      rewrite commit_reliable by exact Hr. reflexivity. }
  erewrite bind_ok by reflexivity.
  unfold delete_db, reopen_db, allocations_of. simpl.
  match goal with |- context [Nat.ltb 0 ?c] => destruct (Nat.ltb 0 c) end.
  - destruct (has_id loan_id (rep_loanId r) (loans (db w))) eqn:Hl.
    + eexists. split; [|reflexivity].
      rewrite loan_update_reliable by (try exact Hr; exact Hl). reflexivity.
    + eexists. split; [|discriminate].
      unfold loan_update. simpl. rewrite Hl.
      rewrite (update_row_missing loan_id _ _ _ Hl). reflexivity.
  - eexists. split; [reflexivity|reflexivity].
Qed.

(** ** Frame lemmas valid on any store, reliable or not *)

Lemma commit_run f w o w' :
  commit f w = (o, w') ->
  (o = Ok tt /\ db w' = f (db w) /\ clock w' = clock w)
  \/ (faults w = Some O /\ w' = w /\ o = Throw "store failure").
Proof.
  unfold commit. destruct (faults w) as [[|n]|] eqn:E; intros H;
    injection H as <- <-; auto.
Qed.

Lemma loan_update_frame id s c w o w' :
  loan_update id s c w = (o, w') ->
  scheduleItems (db w') = scheduleItems (db w)
  /\ repayments (db w') = repayments (db w)
  /\ allocations (db w') = allocations (db w).
Proof.
  unfold loan_update. destruct (has_id loan_id id (loans (db w))).
  - intros H. apply commit_run in H.
    destruct H as [(_ & -> & _)|(_ & -> & _)]; auto.
  - intros H. injection H as _ <-. auto.
Qed.

Lemma checkLoanCompletion_frame loanId w o w' :
  checkLoanCompletion loanId w = (o, w') ->
  scheduleItems (db w') = scheduleItems (db w)
  /\ repayments (db w') = repayments (db w)
  /\ allocations (db w') = allocations (db w).
Proof.
  unfold checkLoanCompletion. erewrite bind_ok by reflexivity.
  destruct (Nat.eqb (count_notPaid loanId (db w)) 0).
  - erewrite bind_ok by reflexivity. apply loan_update_frame.
  - intros H. injection H as _ <-. auto.
Qed.

Lemma walk_nonpositive items amount : amount <= 0 -> walk items amount = [].
Proof.
  intros H. destruct items as [|it rest]; simpl; [reflexivity|].
  now rewrite (proj2 (Z.leb_le amount 0) H).
Qed.

Lemma allocate_loop_nonpositive rid items amount acc w :
  amount <= 0 -> allocate_loop rid items amount acc w = (Ok acc, w).
Proof.
  intros H. destruct items as [|it rest]; simpl; [reflexivity|].
  now rewrite (proj2 (Z.leb_le amount 0) H).
Qed.

Lemma allocatePayment_nonpositive rid loanId amount w :
  amount <= 0 -> allocatePayment rid loanId amount w = (Ok tt, w).
Proof.
  intros H. unfold allocatePayment.
  erewrite bind_ok by reflexivity.
  erewrite bind_ok by (now apply allocate_loop_nonpositive).
  reflexivity.
Qed.

(** ** Non-positive amounts *)

(** C10. On an ACTIVE, non-deleted loan and a store that accepts the first
    write, [createRepayment] with an amount that is zero or negative still
    appends a Repayment row carrying that very amount, while the allocation
    walk leaves at once: the allocation table and every schedule item (paid
    amount, status, closedAt and all other columns) are as before. On a
    reliable store the call returns that repayment. *)
Theorem createRepayment_nonpositive_amount data user w :
  payable (data_loanId data) (db w) ->
  data_amount data <= 0 ->
  faults w <> Some O ->
  let r := new_repayment data user (clock w) (db w) in
  let (o, w') := createRepayment data user w in
  rep_amount r = data_amount data
  /\ repayments (db w') = repayments (db w) ++ [r]
  /\ allocations (db w') = allocations (db w)
  /\ scheduleItems (db w') = scheduleItems (db w)
  /\ (reliable w -> o = Ok r).
Proof.
  intros (l & Hf & Hdel & Hst) Hamt Hfl r.
  destruct (createRepayment data user w) as [o w'] eqn:E.
  split; [reflexivity|].
  unfold createRepayment in E.
  erewrite bind_ok in E
    by (unfold loan_findUnique, query; rewrite Hf; reflexivity).
  cbv beta iota in E. rewrite Hdel, Hst in E.
  cbn [truthy LoanStatus_eqb negb] in E.
  erewrite bind_ok in E by reflexivity.
  assert (exists w1,
            repayment_create (data_loanId data) user (data_amount data)
              (match data_paidAt data with Some d => d | None => clock w end)
              (data_method data) (data_reference data) (data_notes data) w
            = (Ok r, w1)
            /\ db w1 = set_repayments (db w) (repayments (db w) ++ [r])
            /\ (reliable w -> reliable w1)) as (w1 & Hc & Hdb & Hrel).
  { unfold repayment_create, commit. fold r.
    destruct (faults w) as [[|n]|] eqn:Ef.
    - now elim Hfl.
    - eexists. split; [reflexivity|]. split; [reflexivity|].
      unfold reliable. rewrite Ef. discriminate.
    - eexists. split; [reflexivity|]. split; [reflexivity|].
      unfold reliable. simpl. now rewrite Ef. }
  erewrite bind_ok in E by exact Hc.
  erewrite bind_ok in E by (now apply allocatePayment_nonpositive).
  unfold bind in E at 1.
  destruct (checkLoanCompletion (data_loanId data) w1) as [o2 w2] eqn:E2.
  pose proof (checkLoanCompletion_frame _ _ _ _ E2) as (Hi & Hrp & Hal).
  assert (db w' = db w2) as Hw.
  { destruct o2; injection E as _ <-; reflexivity. }
  rewrite Hw, Hi, Hrp, Hal, Hdb. simpl.
  repeat split; try reflexivity.
  intros Hr. rewrite checkLoanCompletion_reliable in E2.
  - injection E2 as <- _. now injection E as <- _.
  - now apply Hrel.
  - rewrite Hdb. simpl. apply (find_some_has_id loan_id _ _ _ Hf).
Qed.

(** ** Validation performed by [createRepayment] *)

Lemma createRepayment_rejected data user w :
  ~ payable (data_loanId data) (db w) ->
  exists e, createRepayment data user w = (Throw e, w)
            /\ (e = "Loan not found"%string
                \/ e = "Can only make payments on active loans"%string).
Proof.
  intros Hn. unfold createRepayment.
  erewrite bind_ok by reflexivity.
  destruct (find _ (loans (db w))) as [l|] eqn:Hf.
  - destruct (loan_deletedAt l) as [t|] eqn:Hd; simpl.
    { eexists. split; [reflexivity|]. now left. }
    destruct (loan_status l) eqn:Hs; simpl;
      try (eexists; split; [reflexivity|]; now right).
    exfalso. apply Hn. now exists l.
  - eexists. split; [reflexivity|]. now left.
Qed.

Lemma payable_dec loanId d : payable loanId d \/ ~ payable loanId d.
Proof.
  unfold payable.
  destruct (find (fun x => Nat.eqb (loan_id x) loanId) (loans d)) as [l|].
  - destruct (loan_deletedAt l) as [t|] eqn:Hd.
    { right. intros (l' & E & Hd' & _). injection E as <-. congruence. }
    destruct (loan_status l) eqn:Hs;
      try (right; intros (l' & E & _ & Hs'); injection E as <-; congruence).
    left. now exists l.
  - right. intros (l' & E & _). discriminate.
Qed.

(** C2, as stated, fails: a payment of [-5] (and one of [0]) on an ACTIVE
    loan does not fail; the call returns the new Repayment and the row is in
    the store. *)
Lemma createRepayment_accepts_nonpositive :
  let w := mkWorld one_pending_db mar_1_2024 None in
  (let (o, w') := createRepayment (cash 1 (-5)) 7 w in
   (exists r, o = Ok r) /\ map rep_amount (repayments (db w')) = [-5])
  /\ (let (o, w') := createRepayment (cash 1 0) 7 w in
      (exists r, o = Ok r) /\ map rep_amount (repayments (db w')) = [0]).
Proof. vm_compute. repeat split; eexists; reflexivity. Qed.

(** C2, amended. [createRepayment] checks the loan and nothing else. When
    the loan is missing, soft-deleted or not ACTIVE the call throws
    "Loan not found" or "Can only make payments on active loans" and the
    world is exactly as before, whatever the amount. When the loan is
    ACTIVE and the store reliable the call succeeds whatever the sign of
    the amount, and the Repayment row carries the amount as supplied. *)
Theorem createRepayment_validation data user w :
  (~ payable (data_loanId data) (db w) ->
   exists e, createRepayment data user w = (Throw e, w)
             /\ (e = "Loan not found"%string
                 \/ e = "Can only make payments on active loans"%string))
  /\ (payable (data_loanId data) (db w) -> reliable w ->
      exists r w', createRepayment data user w = (Ok r, w')
                   /\ rep_amount r = data_amount data
                   /\ In r (repayments (db w'))).
Proof.
  split.
  - apply createRepayment_rejected.
  - intros Hp Hr. rewrite createRepayment_reliable by assumption.
    do 2 eexists. split; [reflexivity|]. split; [reflexivity|].
    simpl. unfold create_db, complete_db.
    match goal with |- context [if ?c then _ else _] => destruct c end;
      simpl; apply in_or_app; right; now left.
Qed.

Lemma createRepayment_validation_witness :
  (exists r w', createRepayment (cash 1 (-5)) 7
                  (mkWorld one_pending_db mar_1_2024 None) = (Ok r, w')
                /\ rep_amount r = -5 /\ In r (repayments (db w')))
  /\ (exists e, createRepayment (cash 2 30) 7
                  (mkWorld one_pending_db mar_1_2024 None)
                = (Throw e, mkWorld one_pending_db mar_1_2024 None)
                /\ (e = "Loan not found"%string
                    \/ e = "Can only make payments on active loans"%string)).
Proof.
  split.
  - apply (proj2 (createRepayment_validation (cash 1 (-5)) 7
                    (mkWorld one_pending_db mar_1_2024 None))).
    + exists active_loan. repeat split.
    + reflexivity.
  - apply (proj1 (createRepayment_validation (cash 2 30) 7
                    (mkWorld one_pending_db mar_1_2024 None))).
    intros (l & Hf & _). discriminate Hf.
Defined.

(** ** The loops, row by row *)

Section KeyedFold.
Context {P R : Type} (key : P -> Id) (rid : R -> Id) (F : P -> R -> R).
Hypothesis F_id : forall p r, rid (F p r) = rid r.

Let step (r : R) (p : P) : R :=
  if Nat.eqb (rid r) (key p) then F p r else r.

Lemma keyed_fold_id ps : forall r, rid (fold_left step ps r) = rid r.
Proof.
  induction ps as [|p ps IH]; intros r; simpl; [reflexivity|].
  rewrite IH. unfold step. destruct (Nat.eqb (rid r) (key p)); auto.
Qed.

Lemma keyed_fold_absent ps r :
  find (fun p => Nat.eqb (key p) (rid r)) ps = None ->
  fold_left step ps r = r.
Proof.
  revert r. induction ps as [|p ps IH]; intros r; simpl; [reflexivity|].
  destruct (Nat.eqb (key p) (rid r)) eqn:E; [discriminate|].
  intros H. unfold step at 2. rewrite Nat.eqb_sym, E. now apply IH.
Qed.

Lemma find_key_absent ps k :
  ~ In k (map key ps) -> find (fun p => Nat.eqb (key p) k) ps = None.
Proof.
  intros H. induction ps as [|p ps IH]; simpl; [reflexivity|].
  destruct (Nat.eqb (key p) k) eqn:E.
  - apply Nat.eqb_eq in E. elim H. now left.
  - apply IH. intros Hin. apply H. now right.
Qed.

Lemma keyed_fold_unique ps :
  NoDup (map key ps) ->
  forall r,
    fold_left step ps r
    = match find (fun p => Nat.eqb (key p) (rid r)) ps with
      | Some p => F p r
      | None => r
      end.
Proof.
  induction ps as [|p ps IH]; intros Hnd r; simpl; [reflexivity|].
  inversion Hnd as [|? ? Hp Hnd']; subst.
  unfold step at 2. rewrite (Nat.eqb_sym (rid r) (key p)).
  destruct (Nat.eqb (key p) (rid r)) eqn:E.
  - apply keyed_fold_absent. rewrite F_id.
    apply find_key_absent. apply Nat.eqb_eq in E. now rewrite <- E.
  - now apply IH.
Qed.
End KeyedFold.

Lemma fold_left_map_rows {A B} (f : A -> B -> A) (ps : list B) :
  forall (tbl : list A),
    fold_left (fun t p => map (fun r => f r p) t) ps tbl
    = map (fun r => fold_left f ps r) tbl.
Proof.
  induction ps as [|p ps IH]; intros tbl; simpl.
  - now rewrite map_id.
  - rewrite IH, map_map. reflexivity.
Qed.

Lemma apply_walk_rows now plan tbl :
  apply_walk now plan tbl = map (settle_row now plan) tbl.
Proof.
  unfold apply_walk, settle_row.
  rewrite <- (fold_left_map_rows (touch now)). reflexivity.
Qed.

Lemma reverse_items_rows allocs tbl :
  reverse_items allocs tbl = map (unpay_row allocs) tbl.
Proof.
  unfold reverse_items, unpay_row.
  now rewrite <- (fold_left_map_rows (fun r a => unpay a r)).
Qed.

Lemma settle_id now p r : item_id (settle now p r) = item_id r.
Proof. reflexivity. Qed.

Lemma settle_row_entry now plan r :
  NoDup (map (fun p => item_id (fst p)) plan) ->
  settle_row now plan r
  = match plan_entry (item_id r) plan with
    | Some p => settle now p r
    | None => r
    end.
Proof.
  intros Hnd. unfold settle_row, plan_entry.
  apply (keyed_fold_unique (fun p => item_id (fst p)) item_id
           (fun p r => settle now p r) (settle_id now) plan Hnd r).
Qed.

(** *** What the walk hands out *)

Lemma walk_In items :
  forall rem it a,
    In (it, a) (walk items rem) ->
    In it items /\ 0 < a /\ a <= totalDue it - paidAmount it /\ a <= rem.
Proof.
  induction items as [|x rest IH]; intros rem it a; simpl; [contradiction|].
  destruct (rem <=? 0) eqn:Er; [contradiction|].
  apply Z.leb_gt in Er.
  destruct (totalDue x - paidAmount x <=? 0) eqn:Eo.
  - intros H. apply IH in H. tauto.
  - apply Z.leb_gt in Eo. intros [H|H].
    + injection H as <- <-. split; [now left|].
      destruct (rem >=? totalDue x - paidAmount x) eqn:Eg; lia.
    + apply IH in H. destruct H as (H1 & H2 & H3 & H4).
      split; [now right|]. repeat split; try assumption.
      destruct (rem >=? totalDue x - paidAmount x) eqn:Eg; lia.
Qed.

Lemma walk_ids_NoDup items :
  NoDup (map item_id items) ->
  forall rem, NoDup (map (fun p => item_id (fst p)) (walk items rem)).
Proof.
  induction items as [|x rest IH]; intros Hnd rem; simpl; [constructor|].
  inversion Hnd as [|? ? Hx Hnd']; subst.
  destruct (rem <=? 0); [constructor|].
  destruct (totalDue x - paidAmount x <=? 0); [now apply IH|].
  simpl. constructor; [|now apply IH].
  intros Hin. apply Hx. apply in_map_iff in Hin.
  destruct Hin as ([it a] & Hid & Hin). simpl in Hid.
  apply walk_In in Hin. rewrite <- Hid. apply in_map. tauto.
Qed.

Lemma findMany_outstanding_ids_NoDup loanId d :
  NoDup (map item_id (scheduleItems d)) ->
  NoDup (map item_id (findMany_outstanding loanId d)).
Proof.
  intros Hnd. unfold findMany_outstanding.
  eapply Permutation_NoDup.
  - apply Permutation_map, Permutation_sym, orderBy_dueDate_asc_perm.
  - induction (scheduleItems d) as [|x l IH]; simpl; [constructor|].
    inversion Hnd as [|? ? Hx Hnd']; subst.
    destruct (outstanding_filter loanId x); [|now apply IH].
    simpl. constructor; [|now apply IH].
    intros Hin. apply Hx. apply in_map_iff in Hin.
    destruct Hin as (y & Hy & Hin). apply filter_In in Hin.
    rewrite <- Hy. apply in_map. tauto.
Qed.

Lemma plan_entry_In id plan p :
  plan_entry id plan = Some p -> In p plan /\ item_id (fst p) = id.
Proof.
  unfold plan_entry. intros H. apply find_some in H.
  destruct H as [Hin He]. now apply Nat.eqb_eq in He.
Qed.

(** With unique row identifiers, the plan entry found for a row of the
    table is the snapshot of that very row. *)
Lemma plan_entry_row loanId d amount r p :
  NoDup (map item_id (scheduleItems d)) ->
  In r (scheduleItems d) ->
  plan_entry (item_id r) (walk (findMany_outstanding loanId d) amount) = Some p ->
  fst p = r /\ outstanding_filter loanId r = true
  /\ 0 < snd p /\ snd p <= totalDue r - paidAmount r /\ snd p <= amount.
Proof.
  intros Hnd Hr He. apply plan_entry_In in He. destruct He as [Hin Hid].
  destruct p as [it a]. simpl in *. apply walk_In in Hin.
  destruct Hin as (Hit & Ha & Hle & Hrem).
  apply findMany_outstanding_In in Hit. destruct Hit as [Hit Hflt].
  assert (it = r) as -> by (eapply key_unique; eauto).
  auto.
Qed.

(** ** Order of consumption *)

Lemma insert_by_dueDate_sorted x l :
  StronglySorted due_le l -> StronglySorted due_le (insert_by_dueDate x l).
Proof.
  induction 1 as [|y l Hs IH Hy]; simpl.
  - repeat constructor.
  - destruct (dueDate x <=? dueDate y) eqn:E.
    + apply Z.leb_le in E. constructor; [now constructor|].
      constructor; [exact E|].
      eapply Forall_impl; [|exact Hy]. unfold due_le. intros; lia.
    + apply Z.leb_gt in E. constructor; [exact IH|].
      eapply Permutation_Forall;
        [apply Permutation_sym, insert_by_dueDate_perm|].
      constructor; [unfold due_le; lia|exact Hy].
Qed.

Lemma orderBy_dueDate_asc_sorted l :
  StronglySorted due_le (orderBy_dueDate_asc l).
Proof.
  induction l as [|x l IH]; simpl; [constructor|].
  now apply insert_by_dueDate_sorted.
Qed.

(** A list sorted on pairwise distinct due dates is determined by its
    elements. *)
Lemma sorted_by_due_unique l1 :
  forall l2,
    StronglySorted due_le l1 -> StronglySorted due_le l2 ->
    Permutation l1 l2 -> NoDup (map dueDate l1) -> l1 = l2.
Proof.
  induction l1 as [|a l1 IH]; intros l2 S1 S2 Hp Hnd.
  - apply Permutation_nil in Hp. now subst.
  - destruct l2 as [|b l2].
    { apply Permutation_sym, Permutation_nil in Hp. discriminate. }
    inversion S1 as [|? ? S1' Ha]; subst.
    inversion S2 as [|? ? S2' Hb]; subst.
    inversion Hnd as [|? ? Hna Hnd']; subst.
    assert (a = b) as ->.
    { assert (In a (b :: l2)) as Ia
        by (eapply Permutation_in; [exact Hp|now left]).
      assert (In b (a :: l1)) as Ib
        by (eapply Permutation_in; [apply Permutation_sym, Hp|now left]).
      destruct Ia as [->|Ia]; [reflexivity|].
      destruct Ib as [->|Ib]; [reflexivity|].
      rewrite Forall_forall in Ha, Hb.
      specialize (Ha b Ib). specialize (Hb a Ia). unfold due_le in *.
      exfalso. apply Hna. replace (dueDate a) with (dueDate b) by lia.
      now apply in_map. }
    f_equal. apply IH; try assumption.
    eapply Permutation_cons_inv. exact Hp.
Qed.

Lemma filter_perm {A} (f : A -> bool) l l' :
  Permutation l l' -> Permutation (filter f l) (filter f l').
Proof.
  induction 1 as [|x l l' Hp IH|x y l|l l' l'' H1 IH1 H2 IH2]; simpl.
  - constructor.
  - destruct (f x); [now constructor|assumption].
  - destruct (f x), (f y); try reflexivity. apply perm_swap.
  - now transitivity (filter f l').
Qed.

(** C3, as stated, fails on ties. Two installments of one loan are due on
    the same day; the store holds the later installment (sequence 2) first.
    The fetched list has sequence 2 before sequence 1, so it is not in the
    order "due date, then sequence number", and a payment of 50 settles
    installment 2. With the very same rows stored the other way round the
    payment settles installment 1: the outcome is not a function of the set
    of outstanding items. *)
Lemma allocation_ties_not_by_sequence :
  map sequence (findMany_outstanding 1 same_day_db) = [2; 1]%nat
  /\ sorted_by due_seq_leb (findMany_outstanding 1 same_day_db) = false
  /\ Permutation (scheduleItems same_day_db) (scheduleItems same_day_db')
  /\ map (fun p => (sequence (fst p), snd p))
       (walk (findMany_outstanding 1 same_day_db) 50) = [(2%nat, 50)]
  /\ map (fun p => (sequence (fst p), snd p))
       (walk (findMany_outstanding 1 same_day_db') 50) = [(1%nat, 50)].
Proof.
  repeat split; try reflexivity. apply perm_swap.
Qed.

(** C3, amended. Allocation fetches exactly the loan's non-deleted schedule
    items whose status is PENDING, PARTIAL or OVERDUE (each row once, no
    other row) and consumes them in ascending due-date order; that list is
    what the allocation loop walks. Items with equal due dates are taken in
    the order the store returns them; the sequence number plays no part.
    When the due dates of the outstanding items are pairwise distinct, the
    fetched list, and with it the allocation, is the same for every row
    order of the table. *)
Theorem allocation_order loanId d :
  Permutation (findMany_outstanding loanId d)
    (filter (fun i => Nat.eqb (item_loanId i) loanId
                      && (ScheduleStatus_eqb (item_status i) PENDING
                          || ScheduleStatus_eqb (item_status i) PARTIAL
                          || ScheduleStatus_eqb (item_status i) OVERDUE)
                      && negb (truthy (item_deletedAt i)))
       (scheduleItems d))
  /\ StronglySorted due_le (findMany_outstanding loanId d)
  /\ (forall rid amount w, reliable w -> db w = d ->
        allocatePayment rid loanId amount w
        = (Ok tt, set_db w
             (set_allocations
                (set_scheduleItems d
                   (apply_walk (clock w)
                      (walk (findMany_outstanding loanId d) amount)
                      (scheduleItems d)))
                (allocations d
                 ++ map (to_alloc rid)
                      (walk (findMany_outstanding loanId d) amount)))))
  /\ (forall d',
        NoDup (map dueDate (findMany_outstanding loanId d)) ->
        Permutation (scheduleItems d) (scheduleItems d') ->
        findMany_outstanding loanId d' = findMany_outstanding loanId d
        /\ forall amount,
             walk (findMany_outstanding loanId d') amount
             = walk (findMany_outstanding loanId d) amount).
Proof.
  split; [apply orderBy_dueDate_asc_perm|].
  split; [apply orderBy_dueDate_asc_sorted|].
  split.
  - intros rid amount w Hr <-. now rewrite allocatePayment_reliable.
  - intros d' Hnd Hp.
    assert (findMany_outstanding loanId d' = findMany_outstanding loanId d)
      as E.
    { symmetry. apply sorted_by_due_unique.
      - apply orderBy_dueDate_asc_sorted.
      - apply orderBy_dueDate_asc_sorted.
      - unfold findMany_outstanding.
        rewrite !orderBy_dueDate_asc_perm. now apply filter_perm.
      - exact Hnd. }
    split; [exact E|]. intros amount. now rewrite E.
Qed.

Lemma allocation_order_witness :
  findMany_outstanding 1
    (mkDb [active_loan] (rev (scheduleItems two_pending_db)) [] [])
  = findMany_outstanding 1 two_pending_db.
Proof.
  apply (proj2 (proj2 (proj2 (allocation_order 1 two_pending_db)))
           (mkDb [active_loan] (rev (scheduleItems two_pending_db)) [] [])).
  - vm_compute. repeat constructor; simpl; intuition discriminate.
  - apply Permutation_rev.
Defined.

(** ** Allocation amounts *)

Lemma walk_spec_walk items :
  forall rem, 0 < rem -> walk items rem = spec_walk items rem.
Proof.
  induction items as [|x rest IH]; intros rem Hrem; simpl; [reflexivity|].
  rewrite (proj2 (Z.leb_gt rem 0) Hrem).
  destruct (totalDue x - paidAmount x <=? 0) eqn:Eo; [now apply IH|].
  apply Z.leb_gt in Eo.
  assert ((if rem >=? totalDue x - paidAmount x
           then totalDue x - paidAmount x else rem)
          = Z.min rem (totalDue x - paidAmount x)) as ->.
  { destruct (rem >=? totalDue x - paidAmount x) eqn:Eg.
    - apply Z.geb_le in Eg. lia.
    - rewrite Z.geb_leb in Eg. apply Z.leb_gt in Eg. lia. }
  f_equal.
  destruct (rem - Z.min rem (totalDue x - paidAmount x) <=? 0) eqn:Ez.
  - apply walk_nonpositive. now apply Z.leb_le.
  - apply IH. now apply Z.leb_gt.
Qed.

Lemma outstanding_is_notPaid loanId i :
  outstanding_filter loanId i = notPaid_filter loanId i.
Proof.
  unfold outstanding_filter, notPaid_filter.
  now destruct (item_status i).
Qed.

Lemma filter_none {A} (f : A -> bool) l :
  (forall x, In x l -> f x = false) -> filter f l = [].
Proof.
  induction l as [|x l IH]; intros H; simpl; [reflexivity|].
  rewrite (H x (or_introl eq_refl)). apply IH. intros y Hy. apply H. now right.
Qed.

Lemma paid_status_full t : paid_status t t = PAID.
Proof. unfold paid_status. now rewrite Z.geb_leb, Z.leb_refl. Qed.

(** A loan whose only unpaid installment is [i]: a payment covering what
    [i] still owes settles it and completes the loan; exactly one
    allocation, of the outstanding amount, is recorded, and the Repayment
    keeps the full amount supplied. *)
Lemma last_item_settled data user w i :
  reliable w ->
  NoDup (map item_id (scheduleItems (db w))) ->
  payable (data_loanId data) (db w) ->
  filter (notPaid_filter (data_loanId data)) (scheduleItems (db w)) = [i] ->
  0 < outstanding i <= data_amount data ->
  exists r w',
    createRepayment data user w = (Ok r, w')
    /\ rep_amount r = data_amount data
    /\ repayments (db w') = repayments (db w) ++ [r]
    /\ allocations (db w')
       = allocations (db w) ++ [mkAlloc (rep_id r) (item_id i) (outstanding i)]
    /\ scheduleItems (db w')
       = update_row item_id (item_id i)
           (set_payment (totalDue i) PAID (Some (clock w)))
           (scheduleItems (db w))
    /\ loans (db w')
       = update_row loan_id (data_loanId data)
           (set_loan_status COMPLETED (Some (clock w))) (loans (db w)).
Proof.
  intros Hr Hnd Hp Hflt [Hpos Hle].
  rewrite createRepayment_reliable by assumption.
  do 2 eexists. split; [reflexivity|]. split; [reflexivity|].
  unfold create_db.
  set (r := new_repayment data user (clock w) (db w)).
  set (d0 := set_repayments (db w) (repayments (db w) ++ [r])).
  assert (findMany_outstanding (data_loanId data) d0 = [i]) as Hfetch.
  { unfold findMany_outstanding. simpl.
    rewrite (filter_ext _ _ (outstanding_is_notPaid (data_loanId data))).
    now rewrite Hflt. }
  assert (walk [i] (data_amount data) = [(i, outstanding i)]) as Hwalk.
  { unfold outstanding in *. simpl.
    rewrite (proj2 (Z.leb_gt (data_amount data) 0)) by lia.
    rewrite (proj2 (Z.leb_gt (totalDue i - paidAmount i) 0)) by lia.
    rewrite (proj2 (Z.geb_le (data_amount data) _)) by lia.
    reflexivity. }
  assert (settle (clock w) (i, outstanding i)
          = set_payment (totalDue i) PAID (Some (clock w))) as Hset.
  { unfold settle, outstanding. simpl.
    replace (paidAmount i + (totalDue i - paidAmount i)) with (totalDue i)
      by lia.
    now rewrite paid_status_full. }
  assert (scheduleItems (allocate_db (rep_id r) (data_loanId data)
                           (data_amount data) (clock w) d0)
          = update_row item_id (item_id i)
              (set_payment (totalDue i) PAID (Some (clock w)))
              (scheduleItems (db w))) as Hitems.
  { unfold allocate_db. rewrite Hfetch, Hwalk. simpl. now rewrite Hset. }
  assert (count_notPaid (data_loanId data)
            (allocate_db (rep_id r) (data_loanId data) (data_amount data)
               (clock w) d0) = 0%nat) as Hcount.
  { unfold count_notPaid. rewrite Hitems. unfold update_row.
    rewrite filter_none; [reflexivity|].
    intros x Hx. apply in_map_iff in Hx. destruct Hx as (y & <- & Hy).
    destruct (Nat.eqb (item_id y) (item_id i)) eqn:E.
    - unfold notPaid_filter. simpl. now rewrite andb_false_r.
    - destruct (notPaid_filter (data_loanId data) y) eqn:Ey; [|reflexivity].
      assert (In y [i]) as Hin by (rewrite <- Hflt; now apply filter_In).
      destruct Hin as [<-|[]]. now rewrite Nat.eqb_refl in E. }
  unfold complete_db. rewrite Hcount. simpl.
  rewrite apply_walk_rows in *. unfold allocate_db in Hitems.
  simpl in Hitems. rewrite apply_walk_rows in Hitems. rewrite Hitems.
  rewrite Hfetch, Hwalk. simpl. repeat split; reflexivity.
Qed.

Lemma find_update_row {A} (key : A -> Id) id f (l : list A) :
  (forall r, key (f r) = key r) ->
  find (fun r => Nat.eqb (key r) id) (update_row key id f l)
  = option_map f (find (fun r => Nat.eqb (key r) id) l).
Proof.
  intros Hf. induction l as [|x l IH]; simpl; [reflexivity|].
  destruct (Nat.eqb (key x) id) eqn:E.
  - rewrite Hf, E. reflexivity.
  - rewrite E. exact IH.
Qed.

(** ** Completion *)

Lemma notPaid_filter_unpaid loanId i :
  notPaid_filter loanId i = true <-> unpaid_item loanId i.
Proof.
  unfold notPaid_filter, unpaid_item. rewrite !andb_true_iff, !negb_true_iff.
  rewrite Nat.eqb_eq. split.
  - intros [[Hl Hs] Hd]. split; [exact Hl|]. split.
    + destruct (item_deletedAt i); [discriminate Hd|reflexivity].
    + intros E. rewrite E in Hs. discriminate Hs.
  - intros (Hl & Hd & Hs). split; [split; [exact Hl|]|].
    + destruct (item_status i); try reflexivity. now elim Hs.
    + now rewrite Hd.
Qed.

Lemma count_notPaid_zero loanId d :
  count_notPaid loanId d = 0%nat
  <-> forall i, In i (scheduleItems d) -> ~ unpaid_item loanId i.
Proof.
  unfold count_notPaid. split.
  - intros H i Hi Hu. apply length_zero_iff_nil in H.
    assert (In i (filter (notPaid_filter loanId) (scheduleItems d))) as Hin
      by (apply filter_In; split; [exact Hi|now apply notPaid_filter_unpaid]).
    rewrite H in Hin. destruct Hin.
  - intros H. rewrite filter_none; [reflexivity|].
    intros i Hi. destruct (notPaid_filter loanId i) eqn:E; [|reflexivity].
    apply notPaid_filter_unpaid in E. now elim (H i Hi).
Qed.

(** On a reliable store, a payment of less than what the only unpaid item
    [i] still owes leaves that item PARTIAL and the loan as it was. *)
Lemma last_item_part_paid data user w i :
  reliable w ->
  NoDup (map item_id (scheduleItems (db w))) ->
  payable (data_loanId data) (db w) ->
  filter (notPaid_filter (data_loanId data)) (scheduleItems (db w)) = [i] ->
  0 < data_amount data < outstanding i ->
  exists r w',
    createRepayment data user w = (Ok r, w')
    /\ scheduleItems (db w')
       = update_row item_id (item_id i)
           (set_payment (paidAmount i + data_amount data) PARTIAL None)
           (scheduleItems (db w))
    /\ loans (db w') = loans (db w).
Proof.
  intros Hr Hnd Hp Hflt [Hpos Hlt].
  rewrite createRepayment_reliable by assumption.
  do 2 eexists. split; [reflexivity|].
  unfold create_db.
  set (r := new_repayment data user (clock w) (db w)).
  set (d0 := set_repayments (db w) (repayments (db w) ++ [r])).
  assert (findMany_outstanding (data_loanId data) d0 = [i]) as Hfetch.
  { unfold findMany_outstanding. simpl.
    rewrite (filter_ext _ _ (outstanding_is_notPaid (data_loanId data))).
    now rewrite Hflt. }
  assert (walk [i] (data_amount data) = [(i, data_amount data)]) as Hwalk.
  { unfold outstanding in *. simpl.
    rewrite (proj2 (Z.leb_gt (data_amount data) 0)) by lia.
    rewrite (proj2 (Z.leb_gt (totalDue i - paidAmount i) 0)) by lia.
    destruct (data_amount data >=? totalDue i - paidAmount i) eqn:E;
      [|reflexivity].
    apply Z.geb_le in E. lia. }
  assert (settle (clock w) (i, data_amount data)
          = set_payment (paidAmount i + data_amount data) PARTIAL None)
    as Hset.
  { unfold settle, paid_status, outstanding in *. cbn [fst snd].
    destruct (paidAmount i + data_amount data >=? totalDue i) eqn:E;
      [|reflexivity].
    apply Z.geb_le in E. lia. }
  assert (In i (scheduleItems (db w))
          /\ notPaid_filter (data_loanId data) i = true) as [Hin Hunpaid].
  { apply filter_In. rewrite Hflt. now left. }
  assert (scheduleItems (allocate_db (rep_id r) (data_loanId data)
                           (data_amount data) (clock w) d0)
          = update_row item_id (item_id i)
              (set_payment (paidAmount i + data_amount data) PARTIAL None)
              (scheduleItems (db w))) as Hitems.
  { unfold allocate_db. rewrite Hfetch, Hwalk. simpl. now rewrite Hset. }
  assert (Nat.eqb (count_notPaid (data_loanId data)
                     (allocate_db (rep_id r) (data_loanId data)
                        (data_amount data) (clock w) d0)) 0 = false)
    as Hcount.
  { apply Nat.eqb_neq. intros Hz.
    apply (proj1 (count_notPaid_zero _ _) Hz
             (set_payment (paidAmount i + data_amount data) PARTIAL None i)).
    - rewrite Hitems. unfold update_row. apply in_map_iff.
      exists i. split; [now rewrite Nat.eqb_refl|exact Hin].
    - apply notPaid_filter_unpaid in Hunpaid.
      destruct Hunpaid as (Hl & Hd & _).
      repeat split; [exact Hl|exact Hd|discriminate]. }
  unfold complete_db. rewrite Hcount.
  split; [exact Hitems|reflexivity].
Qed.

(** C9. The count of [checkLoanCompletion] is the number of schedule items
    of the loan that are not deleted and whose status is not PAID; it is
    zero exactly when the loan has no such item. On a reliable store
    [checkLoanCompletion] sets the loan to COMPLETED and stamps [closedAt]
    with the current time when the loan has no such item, and changes
    nothing when it has one. [createRepayment] runs it after every
    allocation: the loan it was called on, ACTIVE before, is COMPLETED with
    [closedAt] stamped afterwards exactly when no unpaid item is left, and
    is left as it was, still ACTIVE, when an unpaid item is left. In
    particular, when the only unpaid item of the loan is PARTIAL with
    totalDue 100 and paidAmount 60, a payment of 40 makes that item PAID
    (paidAmount 100) and the loan COMPLETED, whereas a smaller payment
    leaves the item PARTIAL and the loan as it was. *)
Theorem completion_check :
  (forall loanId d,
      count_notPaid loanId d
      = List.length (filter (notPaid_filter loanId) (scheduleItems d))
      /\ (forall i, notPaid_filter loanId i = true
                    <-> item_loanId i = loanId
                        /\ item_deletedAt i = None
                        /\ item_status i <> PAID)
      /\ (count_notPaid loanId d = 0%nat
          <-> forall i, In i (scheduleItems d) -> ~ unpaid_item loanId i))
  /\ (forall loanId w,
         reliable w ->
         has_id loan_id loanId (loans (db w)) = true ->
         exists w',
           checkLoanCompletion loanId w = (Ok tt, w')
           /\ ((forall i, In i (scheduleItems (db w)) ->
                          ~ unpaid_item loanId i) ->
               db w' = set_loans (db w)
                         (update_row loan_id loanId
                            (set_loan_status COMPLETED (Some (clock w)))
                            (loans (db w))))
           /\ (forall i, In i (scheduleItems (db w)) ->
                         unpaid_item loanId i -> w' = w))
  /\ (forall data user w l,
         reliable w ->
         find (fun x => Nat.eqb (loan_id x) (data_loanId data))
           (loans (db w)) = Some l ->
         loan_deletedAt l = None -> loan_status l = ACTIVE ->
         exists r w' l',
           createRepayment data user w = (Ok r, w')
           /\ find (fun x => Nat.eqb (loan_id x) (data_loanId data))
                (loans (db w')) = Some l'
           /\ (loan_status l' = COMPLETED
               <-> forall i, In i (scheduleItems (db w')) ->
                             ~ unpaid_item (data_loanId data) i)
           /\ (loan_status l' = COMPLETED ->
               l' = set_loan_status COMPLETED (Some (clock w)) l)
           /\ (forall i, In i (scheduleItems (db w')) ->
                         unpaid_item (data_loanId data) i ->
                         l' = l /\ loans (db w') = loans (db w)))
  /\ (forall data user w i,
         reliable w ->
         NoDup (map item_id (scheduleItems (db w))) ->
         payable (data_loanId data) (db w) ->
         filter (notPaid_filter (data_loanId data)) (scheduleItems (db w))
         = [i] ->
         item_status i = PARTIAL -> totalDue i = 100 -> paidAmount i = 60 ->
         (data_amount data = 40 ->
          exists r w',
            createRepayment data user w = (Ok r, w')
            /\ scheduleItems (db w')
               = update_row item_id (item_id i)
                   (set_payment 100 PAID (Some (clock w)))
                   (scheduleItems (db w))
            /\ loans (db w')
               = update_row loan_id (data_loanId data)
                   (set_loan_status COMPLETED (Some (clock w)))
                   (loans (db w)))
         /\ (0 < data_amount data < 40 ->
             exists r w',
               createRepayment data user w = (Ok r, w')
               /\ scheduleItems (db w')
                  = update_row item_id (item_id i)
                      (set_payment (60 + data_amount data) PARTIAL None)
                      (scheduleItems (db w))
               /\ loans (db w') = loans (db w))).
Proof.
  split; [|split; [|split]].
  - intros loanId d. split; [reflexivity|].
    split; [intros i; apply notPaid_filter_unpaid|apply count_notPaid_zero].
  - intros loanId w Hr Hid. rewrite checkLoanCompletion_reliable by assumption.
    eexists. split; [reflexivity|]. unfold complete_db. split.
    + intros Hall. apply count_notPaid_zero in Hall. rewrite Hall.
      reflexivity.
    + intros i Hi Hu.
      destruct (Nat.eqb (count_notPaid loanId (db w)) 0) eqn:Ec.
      * apply Nat.eqb_eq in Ec.
        now elim (proj1 (count_notPaid_zero _ _) Ec i Hi).
      * apply set_db_same.
  - intros data user w l Hr Hf Hdel Hst.
    rewrite createRepayment_reliable
      by (try assumption; exists l; repeat split; assumption).
    unfold create_db.
    set (d1 := allocate_db _ _ _ _ _).
    assert (loans d1 = loans (db w)) as Hl by reflexivity.
    unfold complete_db.
    destruct (Nat.eqb (count_notPaid (data_loanId data) d1) 0) eqn:Ec.
    + exists (new_repayment data user (clock w) (db w)). eexists.
      exists (set_loan_status COMPLETED (Some (clock w)) l).
      split; [reflexivity|]. cbn [db set_db loans set_loans]. split.
      * rewrite find_update_row by reflexivity.
        change (loans d1) with (loans (db w)). rewrite Hf. reflexivity.
      * apply Nat.eqb_eq in Ec.
        pose proof (proj1 (count_notPaid_zero _ _) Ec) as Hall.
        split; [split; [intros _; exact Hall|reflexivity]|].
        split; [reflexivity|].
        intros i Hi Hu. now elim (Hall i Hi).
    + exists (new_repayment data user (clock w) (db w)). eexists. exists l.
      split; [reflexivity|]. cbn [db set_db]. split; [now rewrite Hl|].
      apply Nat.eqb_neq in Ec. rewrite Hst.
      split.
      * split; [discriminate|]. intros Hall. elim Ec.
        now apply count_notPaid_zero.
      * split; [discriminate|]. intros i _ _. split; [reflexivity|exact Hl].
  - intros data user w i Hr Hnd Hp Hflt Hs Ht Hpd. split.
    + intros Ha.
      destruct (last_item_settled data user w i Hr Hnd Hp Hflt)
        as (r & w' & Hc & _ & _ & _ & Hi & Hl).
      { unfold outstanding. lia. }
      exists r, w'. rewrite Ht in Hi. auto.
    + intros Ha.
      destruct (last_item_part_paid data user w i Hr Hnd Hp Hflt)
        as (r & w' & Hc & Hi & Hl).
      { unfold outstanding. lia. }
      exists r, w'. rewrite Hpd in Hi. auto.
Qed.

Lemma completion_check_witness :
  let w := mkWorld last_partial_db mar_1_2024 None in
  (exists r w',
      createRepayment (cash 1 40) 7 w = (Ok r, w')
      /\ scheduleItems (db w')
         = [mkItem 1 1 1 jan_1_2024 100 100 PAID (Some jan_1_2024) None;
            mkItem 2 1 2 feb_1_2024 100 100 PAID (Some mar_1_2024) None]
      /\ loans (db w') = [mkLoan 1 COMPLETED 10 (Some mar_1_2024) None])
  /\ (exists r w',
         createRepayment (cash 1 30) 7 w = (Ok r, w')
         /\ scheduleItems (db w')
            = [mkItem 1 1 1 jan_1_2024 100 100 PAID (Some jan_1_2024) None;
               mkItem 2 1 2 feb_1_2024 100 90 PARTIAL None None]
         /\ loans (db w') = [active_loan])
  /\ (exists w', checkLoanCompletion 1 w = (Ok tt, w') /\ w' = w).
Proof.
  intros w.
  assert (reliable w) as Hr by reflexivity.
  assert (forall a, payable (data_loanId (cash 1 a)) (db w)) as Hp
    by (intros a; exists active_loan; repeat split).
  assert (NoDup (map item_id (scheduleItems (db w)))) as Hnd
    by (simpl; repeat constructor; simpl; intuition discriminate).
  destruct completion_check as (_ & Hcheck & _ & Hlast).
  split; [|split].
  - exact (proj1 (Hlast (cash 1 40) 7%nat w
                    (mkItem 2 1 2 feb_1_2024 100 60 PARTIAL None None)
                    Hr Hnd (Hp 40) eq_refl eq_refl eq_refl eq_refl) eq_refl).
  - refine (proj2 (Hlast (cash 1 30) 7%nat w
                     (mkItem 2 1 2 feb_1_2024 100 60 PARTIAL None None)
                     Hr Hnd (Hp 30) eq_refl eq_refl eq_refl eq_refl) _).
    cbn. lia.
  - destruct (Hcheck 1%nat w Hr eq_refl) as (w' & Hrun & _ & Hstay).
    exists w'. split; [exact Hrun|].
    apply (Hstay (mkItem 2 1 2 feb_1_2024 100 60 PARTIAL None None)).
    + right. left. reflexivity.
    + repeat split. discriminate.
Defined.

(** ** Overpayment *)

Lemma total_outstanding_nonneg items : 0 <= total_outstanding items.
Proof.
  unfold total_outstanding, sumZ.
  induction items as [|x l IH]; simpl; lia.
Qed.

Lemma walk_overpaid items :
  forall rem,
    total_outstanding items <= rem ->
    walk items rem = map (fun i => (i, outstanding i)) (filter owing items).
Proof.
  induction items as [|x rest IH]; intros rem Hle; [reflexivity|].
  pose proof (total_outstanding_nonneg rest) as Hnn.
  assert (total_outstanding (x :: rest)
          = Z.max 0 (outstanding x) + total_outstanding rest) as Ht
    by reflexivity.
  simpl. unfold owing at 1. fold (outstanding x).
  destruct (rem <=? 0) eqn:Er.
  - apply Z.leb_le in Er.
    rewrite (proj2 (Z.ltb_ge 0 (outstanding x))) by lia.
    rewrite <- (IH rem) by lia. symmetry. now apply walk_nonpositive.
  - apply Z.leb_gt in Er.
    destruct (outstanding x <=? 0) eqn:Eo.
    + apply Z.leb_le in Eo.
      rewrite (proj2 (Z.ltb_ge 0 (outstanding x))) by lia.
      apply IH. lia.
    + apply Z.leb_gt in Eo.
      rewrite (proj2 (Z.ltb_lt 0 (outstanding x))) by lia.
      rewrite (proj2 (Z.geb_le rem (outstanding x))) by lia.
      simpl. f_equal. apply IH. lia.
Qed.

(** C8. When the amount is at least what all eligible items of the loan
    still owe together, every eligible item that owes something becomes
    PAID with [paidAmount = totalDue], one allocation of exactly the
    outstanding amount is recorded per such item, and nothing else is
    recorded or changed for the excess: the tables after the call do not
    depend on how large the excess is, while the Repayment row carries the
    full amount supplied. In particular, when the only unpaid item of the
    loan is PENDING with totalDue 50 and nothing paid, a payment of 80 leaves
    that item PAID with paidAmount 50, the loan COMPLETED, exactly one new
    allocation, of 50, and a Repayment of amount 80. *)
Theorem overpayment data user w :
  reliable w ->
  NoDup (map item_id (scheduleItems (db w))) ->
  payable (data_loanId data) (db w) ->
  total_outstanding (findMany_outstanding (data_loanId data) (db w))
  <= data_amount data ->
  exists r w',
    createRepayment data user w = (Ok r, w')
    /\ rep_amount r = data_amount data
    /\ repayments (db w') = repayments (db w) ++ [r]
    /\ allocations (db w')
       = allocations (db w)
         ++ map (fun i => mkAlloc (rep_id r) (item_id i) (outstanding i))
              (filter owing (findMany_outstanding (data_loanId data) (db w)))
    /\ scheduleItems (db w')
       = map (fun i => if outstanding_filter (data_loanId data) i && owing i
                       then set_payment (totalDue i) PAID (Some (clock w)) i
                       else i)
           (scheduleItems (db w))
    /\ (forall i,
          filter (notPaid_filter (data_loanId data)) (scheduleItems (db w))
          = [i] ->
          item_status i = PENDING -> totalDue i = 50 -> paidAmount i = 0 ->
          data_amount data = 80 ->
          allocations (db w')
          = allocations (db w) ++ [mkAlloc (rep_id r) (item_id i) 50]
          /\ scheduleItems (db w')
             = update_row item_id (item_id i)
                 (set_payment 50 PAID (Some (clock w))) (scheduleItems (db w))
          /\ loans (db w')
             = update_row loan_id (data_loanId data)
                 (set_loan_status COMPLETED (Some (clock w))) (loans (db w))
          /\ rep_amount r = 80).
Proof.
  intros Hr Hnd Hp Hle.
  pose proof (createRepayment_reliable data user w Hr Hp) as Hrun.
  exists (new_repayment data user (clock w) (db w)).
  exists (set_db w (create_db data user (clock w) (db w))).
  split; [exact Hrun|]. split; [reflexivity|].
  set (r := new_repayment data user (clock w) (db w)).
  set (fetched := findMany_outstanding (data_loanId data) (db w)) in *.
  assert (walk fetched (data_amount data)
          = map (fun i => (i, outstanding i)) (filter owing fetched)) as Hwalk
    by (now apply walk_overpaid).
  assert (repayments (create_db data user (clock w) (db w))
          = repayments (db w) ++ [r]
          /\ allocations (create_db data user (clock w) (db w))
             = allocations (db w) ++ map (to_alloc (rep_id r))
                                       (walk fetched (data_amount data))
          /\ scheduleItems (create_db data user (clock w) (db w))
             = apply_walk (clock w) (walk fetched (data_amount data))
                 (scheduleItems (db w))) as (Hreps & Hallocs & Hitems).
  { unfold create_db, complete_db.
    match goal with |- context [if ?c then _ else _] => destruct c end;
      repeat split; reflexivity. }
  cbn [db set_db]. rewrite Hreps, Hallocs, Hitems, Hwalk.
  split; [reflexivity|].
  split; [now rewrite map_map|].
  split.
  - rewrite apply_walk_rows. apply map_ext_in. intros x Hx.
    rewrite <- Hwalk.
    rewrite settle_row_entry
      by (apply walk_ids_NoDup, findMany_outstanding_ids_NoDup, Hnd).
    destruct (plan_entry (item_id x) (walk fetched (data_amount data)))
      as [p|] eqn:Ep.
    + pose proof (plan_entry_In _ _ _ Ep) as [Hin _].
      destruct (plan_entry_row _ _ _ _ _ Hnd Hx Ep) as (Hfst & Hf & Hpos & _).
      rewrite Hwalk in Hin. apply in_map_iff in Hin.
      destruct Hin as (y & <- & Hy). simpl in Hfst. subst y.
      apply filter_In in Hy. destruct Hy as [_ Hy]. rewrite Hf, Hy. simpl.
      unfold settle, outstanding. simpl.
      replace (paidAmount x + (totalDue x - paidAmount x)) with (totalDue x)
        by lia.
      now rewrite paid_status_full.
    + destruct (outstanding_filter (data_loanId data) x && owing x) eqn:E;
        [|reflexivity].
      apply andb_true_iff in E. destruct E as [Ef Eo]. exfalso.
      unfold plan_entry in Ep.
      assert (In (x, outstanding x) (walk fetched (data_amount data))) as Hin.
      { rewrite Hwalk.
        apply (in_map (fun i => (i, outstanding i))).
        apply filter_In. split; [|exact Eo].
        apply findMany_outstanding_In. auto. }
      pose proof (find_none _ _ Ep _ Hin) as Hc. simpl in Hc.
      rewrite Nat.eqb_refl in Hc. discriminate.
  - intros i Hflt Hs Ht Hpd Ha.
    destruct (last_item_settled data user w i Hr Hnd Hp Hflt)
      as (r' & w' & Hc & Hamt & _ & Hal & Hi & Hl).
    { unfold outstanding. lia. }
    rewrite Hrun in Hc. injection Hc as <- <-.
    cbn [db set_db] in Hal, Hi, Hl.
    unfold outstanding in Hal. rewrite Ht, Hpd in Hal. rewrite Ht in Hi.
    rewrite <- Hwalk, <- Hallocs, <- Hitems.
    repeat split; assumption.
Qed.

Lemma overpayment_witness :
  exists r w',
    createRepayment (cash 1 80) 7 (mkWorld one_pending_db mar_1_2024 None)
    = (Ok r, w')
    /\ rep_amount r = 80
    /\ allocations (db w') = [mkAlloc (rep_id r) 1 50]
    /\ scheduleItems (db w')
       = [mkItem 1 1 1 jan_1_2024 50 50 PAID (Some mar_1_2024) None]
    /\ loans (db w') = [mkLoan 1 COMPLETED 10 (Some mar_1_2024) None].
Proof.
  destruct (overpayment (cash 1 80) 7%nat
              (mkWorld one_pending_db mar_1_2024 None))
    as (r & w' & Hc & Hamt & _ & _ & _ & Hone).
  - reflexivity.
  - simpl. repeat constructor; simpl; intuition.
  - exists active_loan. repeat split.
  - vm_compute. discriminate.
  - destruct (Hone (mkItem 1 1 1 jan_1_2024 50 0 PENDING None None)
                eq_refl eq_refl eq_refl eq_refl eq_refl)
      as (Hal & Hi & Hl & _).
    exists r, w'. repeat split; assumption.
Defined.

(** ** Partial distribution *)

Lemma create_db_tables data user now d :
  let r := new_repayment data user now d in
  let plan := walk (findMany_outstanding (data_loanId data) d)
                (data_amount data) in
  repayments (create_db data user now d) = repayments d ++ [r]
  /\ allocations (create_db data user now d)
     = allocations d ++ map (to_alloc (rep_id r)) plan
  /\ scheduleItems (create_db data user now d)
     = map (settle_row now plan) (scheduleItems d)
  /\ loans (create_db data user now d)
     = if Nat.eqb (count_notPaid (data_loanId data)
                     (set_scheduleItems d
                        (map (settle_row now plan) (scheduleItems d)))) 0
       then update_row loan_id (data_loanId data)
              (set_loan_status COMPLETED (Some now)) (loans d)
       else loans d.
Proof.
  intros r plan. unfold create_db, complete_db, allocate_db, count_notPaid.
  cbn [scheduleItems set_allocations set_scheduleItems set_repayments].
  fold r. change (findMany_outstanding (data_loanId data)
                    (set_repayments d (repayments d ++ [r])))
            with (findMany_outstanding (data_loanId data) d).
  fold plan. rewrite apply_walk_rows.
  destruct (Nat.eqb _ 0); repeat split; reflexivity.
Qed.

(** C7. The allocation walk gives each outstanding item
    [min(remaining, outstanding)]: for a positive amount the allocation rows
    recorded and the schedule-item updates made by [createRepayment] are
    those of the walk worded with [min]. In particular, when the loan's
    outstanding items are two PENDING items with totalDue 50 and nothing
    paid, one due earlier than the other, a payment of 70 makes the earlier
    one PAID with paidAmount 50 and the later one PARTIAL with paidAmount 20,
    records allocations of 50 and 20, and leaves the loan as it was
    (ACTIVE). *)
Theorem partial_distribution data user w :
  reliable w ->
  NoDup (map item_id (scheduleItems (db w))) ->
  payable (data_loanId data) (db w) ->
  exists r w',
    createRepayment data user w = (Ok r, w')
    /\ (0 < data_amount data ->
        let plan := spec_walk (findMany_outstanding (data_loanId data) (db w))
                      (data_amount data) in
        allocations (db w')
        = allocations (db w) ++ map (to_alloc (rep_id r)) plan
        /\ scheduleItems (db w')
           = apply_walk (clock w) plan (scheduleItems (db w)))
    /\ (forall i1 i2,
          Permutation
            (filter (outstanding_filter (data_loanId data))
               (scheduleItems (db w)))
            [i1; i2] ->
          item_status i1 = PENDING -> totalDue i1 = 50 -> paidAmount i1 = 0 ->
          item_status i2 = PENDING -> totalDue i2 = 50 -> paidAmount i2 = 0 ->
          dueDate i1 < dueDate i2 ->
          data_amount data = 70 ->
          scheduleItems (db w')
          = map (fun x =>
                   if Nat.eqb (item_id x) (item_id i1)
                   then set_payment 50 PAID (Some (clock w)) x
                   else if Nat.eqb (item_id x) (item_id i2)
                   then set_payment 20 PARTIAL None x
                   else x)
              (scheduleItems (db w))
          /\ allocations (db w')
             = allocations (db w)
               ++ [mkAlloc (rep_id r) (item_id i1) 50;
                   mkAlloc (rep_id r) (item_id i2) 20]
          /\ loans (db w') = loans (db w)
          /\ payable (data_loanId data) (db w')).
Proof.
  intros Hr Hnd Hp.
  rewrite createRepayment_reliable by assumption.
  do 2 eexists. split; [reflexivity|]. cbn [db set_db].
  destruct (create_db_tables data user (clock w) (db w))
    as (_ & Hal & Hit & Hlo).
  split.
  - intros Hpos. rewrite <- walk_spec_walk by exact Hpos.
    rewrite apply_walk_rows. auto.
  - intros i1 i2 Hperm Hs1 Ht1 Hp1 Hs2 Ht2 Hp2 Hdue Hamt.
    assert (In i1 (scheduleItems (db w))
            /\ outstanding_filter (data_loanId data) i1 = true) as [Hin1 Hf1].
    { apply filter_In. eapply Permutation_in;
        [apply Permutation_sym, Hperm|now left]. }
    assert (In i2 (scheduleItems (db w))
            /\ outstanding_filter (data_loanId data) i2 = true) as [Hin2 Hf2].
    { apply filter_In. eapply Permutation_in;
        [apply Permutation_sym, Hperm|right; now left]. }
    assert (item_id i1 <> item_id i2) as Hne.
    { intros E. assert (i1 = i2) by (eapply key_unique; eauto).
      subst i2. lia. }
    assert (findMany_outstanding (data_loanId data) (db w) = [i1; i2])
      as Hfetch.
    { symmetry. apply sorted_by_due_unique.
      - repeat constructor. unfold due_le. lia.
      - apply orderBy_dueDate_asc_sorted.
      - unfold findMany_outstanding. rewrite orderBy_dueDate_asc_perm.
        now apply Permutation_sym.
      - simpl. repeat constructor; simpl; intuition lia. }
    assert (walk [i1; i2] 70 = [(i1, 50); (i2, 20)]) as Hwalk.
    { simpl. rewrite Ht1, Hp1, Ht2, Hp2. reflexivity. }
    rewrite Hfetch, Hamt, Hwalk in Hal, Hit, Hlo.
    assert (map (settle_row (clock w) [(i1, 50); (i2, 20)])
              (scheduleItems (db w))
            = map (fun x =>
                     if Nat.eqb (item_id x) (item_id i1)
                     then set_payment 50 PAID (Some (clock w)) x
                     else if Nat.eqb (item_id x) (item_id i2)
                     then set_payment 20 PARTIAL None x
                     else x)
                (scheduleItems (db w))) as Hrows.
    { apply map_ext. intros x. unfold settle_row, touch, settle. simpl.
      rewrite Ht1, Hp1, Ht2, Hp2. simpl.
      destruct (Nat.eqb (item_id x) (item_id i1)) eqn:E1.
      - simpl. apply Nat.eqb_eq in E1. rewrite E1.
        now rewrite (proj2 (Nat.eqb_neq _ _) Hne).
      - reflexivity. }
    rewrite Hrows in Hit, Hlo.
    assert (Nat.eqb
              (count_notPaid (data_loanId data)
                 (set_scheduleItems (db w)
                    (map (fun x =>
                            if Nat.eqb (item_id x) (item_id i1)
                            then set_payment 50 PAID (Some (clock w)) x
                            else if Nat.eqb (item_id x) (item_id i2)
                            then set_payment 20 PARTIAL None x
                            else x)
                       (scheduleItems (db w))))) 0 = false) as Hcount.
    { apply Nat.eqb_neq. unfold count_notPaid. simpl.
      assert (In (set_payment 20 PARTIAL None i2)
                (filter (notPaid_filter (data_loanId data))
                   (map (fun x =>
                           if Nat.eqb (item_id x) (item_id i1)
                           then set_payment 50 PAID (Some (clock w)) x
                           else if Nat.eqb (item_id x) (item_id i2)
                           then set_payment 20 PARTIAL None x
                           else x)
                      (scheduleItems (db w))))) as Hin.
      { apply filter_In. split.
        - apply in_map_iff. exists i2. split; [|exact Hin2].
          rewrite (proj2 (Nat.eqb_neq (item_id i2) (item_id i1)))
            by (intros E; now apply Hne).
          now rewrite Nat.eqb_refl.
        - unfold outstanding_filter in Hf2. unfold notPaid_filter. simpl.
          apply andb_true_iff in Hf2. destruct Hf2 as [Hf2 Hd].
          apply andb_true_iff in Hf2. destruct Hf2 as [Hl _].
          now rewrite Hl, Hd. }
      intros Hlen. apply length_zero_iff_nil in Hlen.
      rewrite Hlen in Hin. contradiction. }
    rewrite Hcount in Hlo.
    repeat split; try assumption.
    destruct Hp as (l & Hfl & Hd & Hst). exists l. rewrite Hlo. auto.
Qed.

Lemma partial_distribution_witness :
  exists r w',
    createRepayment (cash 1 70) 7 (mkWorld two_pending_db mar_1_2024 None)
    = (Ok r, w')
    /\ scheduleItems (db w')
       = [mkItem 2 1 2 feb_1_2024 50 20 PARTIAL None None;
          mkItem 1 1 1 jan_1_2024 50 50 PAID (Some mar_1_2024) None]
    /\ allocations (db w')
       = [mkAlloc (rep_id r) 1 50; mkAlloc (rep_id r) 2 20]
    /\ loans (db w') = [active_loan].
Proof.
  destruct (partial_distribution (cash 1 70) 7%nat
              (mkWorld two_pending_db mar_1_2024 None))
    as (r & w' & Hc & _ & Htwo).
  - reflexivity.
  - simpl. repeat constructor; simpl; intuition discriminate.
  - exists active_loan. repeat split.
  - destruct (Htwo (mkItem 1 1 1 jan_1_2024 50 0 PENDING None None)
                (mkItem 2 1 2 feb_1_2024 50 0 PENDING None None))
      as (Hi & Ha & Hl & _); try reflexivity.
    + apply perm_swap.
    + exists r, w'. repeat split; assumption.
Defined.

(** ** Loan status after a reversal *)

(** C4, as stated, fails: reversing the repayment of a DEFAULTED loan, an
    hour after it was recorded, turns the loan ACTIVE. *)
Lemma reversal_reopens_defaulted_loan :
  map loan_status (loans defaulted_db) = [DEFAULTED]
  /\ (let (o, w') :=
        deleteRepayment 1 ADMIN None
          (mkWorld defaulted_db (mar_1_2024 + hour_ms) None) in
      o = Ok tt /\ map loan_status (loans (db w')) = [ACTIVE]).
Proof. vm_compute. repeat split. Qed.

(** C4, amended. After [deleteRepayment] has reversed the allocations and
    soft-deleted the repayment, it counts the loan's non-deleted schedule
    items that are not PAID. If there is at least one, the loan's status is
    set to ACTIVE and its closedAt cleared, whatever the status was before
    (COMPLETED, DEFAULTED, WRITTEN_OFF, ...); if there is none the loan row
    is left as it is. *)
Theorem reversal_loan_status id role b w r :
  reliable w ->
  NoDup (map item_id (scheduleItems (db w))) ->
  find (fun x => Nat.eqb (rep_id x) id) (repayments (db w)) = Some r ->
  may_delete role b r w = true ->
  has_id loan_id (rep_loanId r) (loans (db w)) = true ->
  exists w',
    deleteRepayment id role b w = (Ok tt, w')
    /\ ((0 < count_notPaid (rep_loanId r) (db w'))%nat ->
        loans (db w')
        = map (fun l => if Nat.eqb (loan_id l) (rep_loanId r)
                        then mkLoan (loan_id l) ACTIVE (loan_branchId l) None
                               (loan_deletedAt l)
                        else l)
            (loans (db w)))
    /\ (count_notPaid (rep_loanId r) (db w') = 0%nat ->
        loans (db w') = loans (db w)).
Proof.
  intros Hr Hnd Hf Hg Hl.
  destruct (deleteRepayment_reliable id role b w r Hr Hnd Hf Hg)
    as (o & Hrun & Ho).
  rewrite (Ho Hl) in Hrun. eexists. split; [exact Hrun|].
  cbn [db set_db]. unfold delete_db, reopen_db.
  set (d1 := set_repayments _ _).
  destruct (Nat.ltb 0 (count_notPaid (rep_loanId r) d1)) eqn:E.
  - split; [intros _; reflexivity|].
    apply Nat.ltb_lt in E. unfold count_notPaid in *. simpl. intros H.
    simpl in E. lia.
  - split; [|intros _; reflexivity].
    apply Nat.ltb_ge in E. intros H. exfalso. lia.
Qed.

Lemma reversal_loan_status_witness :
  exists w',
    deleteRepayment 1 ADMIN None
      (mkWorld defaulted_db (mar_1_2024 + hour_ms) None) = (Ok tt, w')
    /\ ((0 < count_notPaid 1 (db w'))%nat ->
        loans (db w') = [mkLoan 1 ACTIVE 10 None None]).
Proof.
  destruct (reversal_loan_status 1%nat ADMIN None
              (mkWorld defaulted_db (mar_1_2024 + hour_ms) None)
              (mkRepayment 1 1 7 20 mar_1_2024 CASH None None mar_1_2024 None))
    as (w' & Hrun & Hpos & _).
  - reflexivity.
  - simpl. repeat constructor; simpl; intuition.
  - reflexivity.
  - reflexivity.
  - reflexivity.
  - exists w'. split; [exact Hrun|exact Hpos].
Defined.

(** ** Failure of a write in the middle of [createRepayment] *)

Lemma scheduleItem_update_frame id p s c w o w' :
  scheduleItem_update id p s c w = (o, w') ->
  repayments (db w') = repayments (db w).
Proof.
  unfold scheduleItem_update.
  destruct (has_id item_id id (scheduleItems (db w))).
  - intros H. apply commit_run in H.
    destruct H as [(_ & -> & _)|(_ & -> & _)]; reflexivity.
  - intros H. now injection H as _ <-.
Qed.

Lemma allocate_loop_frame rid items :
  forall rem acc w o w',
    allocate_loop rid items rem acc w = (o, w') ->
    repayments (db w') = repayments (db w).
Proof.
  induction items as [|x rest IH]; intros rem acc w o w'; simpl.
  - intros H. now injection H as _ <-.
  - destruct (rem <=? 0); [intros H; now injection H as _ <-|].
    destruct (totalDue x - paidAmount x <=? 0); [apply IH|].
    erewrite bind_ok by apply closedAt_for_run.
    unfold bind at 1.
    destruct (scheduleItem_update _ _ _ _ w) as [o1 w1] eqn:E1.
    apply scheduleItem_update_frame in E1.
    destruct o1 as [[]|e].
    + intros H. apply IH in H. congruence.
    + intros H. injection H as _ <-. exact E1.
Qed.

Lemma allocatePayment_frame rid loanId amount w o w' :
  allocatePayment rid loanId amount w = (o, w') ->
  repayments (db w') = repayments (db w).
Proof.
  unfold allocatePayment. erewrite bind_ok by reflexivity.
  unfold bind at 1.
  destruct (allocate_loop _ _ _ _ w) as [o1 w1] eqn:E1.
  apply allocate_loop_frame in E1.
  destruct o1 as [[|a allocs]|e].
  - intros H. injection H as _ <-. exact E1.
  - unfold allocation_createMany. intros H. apply commit_run in H.
    destruct H as [(_ & -> & _)|(_ & -> & _)]; exact E1.
  - intros H. injection H as _ <-. exact E1.
Qed.

(** C5, as stated, fails: the store accepts three writes (the Repayment
    row and two schedule-item updates) and rejects the fourth, the creation
    of the allocation rows. The call throws, and the store is left with the
    Repayment row and both item updates but without any allocation row. *)
Lemma createRepayment_leaves_partial_state :
  let (o, w') :=
    createRepayment (cash 1 70) 7
      (mkWorld two_pending_db mar_1_2024 (Some 3%nat)) in
  o = Throw "store failure"
  /\ map rep_amount (repayments (db w')) = [70]
  /\ allocations (db w') = []
  /\ map (fun i => (paidAmount i, item_status i)) (scheduleItems (db w'))
     = [(20, PARTIAL); (50, PAID)].
Proof. vm_compute. repeat split. Qed.

(** C5, amended. [createRepayment] issues its writes one after another and
    opens no transaction. When no write fails, the call returns and the
    Repayment row, the allocation rows, the schedule-item updates and the
    loan-status transition are all in the store. When the very first write
    (the Repayment row) is rejected, the call throws and nothing has
    changed. Whenever the first write is accepted, the Repayment row is in
    the store when the call ends, also when a later step has failed and the
    call has thrown: nothing is rolled back. *)
Theorem createRepayment_no_rollback data user w :
  payable (data_loanId data) (db w) ->
  let r := new_repayment data user (clock w) (db w) in
  let (o, w') := createRepayment data user w in
  (reliable w -> o = Ok r /\ db w' = create_db data user (clock w) (db w))
  /\ (faults w = Some O -> o = Throw "store failure" /\ w' = w)
  /\ (faults w <> Some O -> repayments (db w') = repayments (db w) ++ [r]).
Proof.
  intros Hp r.
  destruct (createRepayment data user w) as [o w'] eqn:E.
  split; [|split].
  - intros Hr. rewrite createRepayment_reliable in E by assumption.
    injection E as <- <-. split; reflexivity.
  - intros Hf. destruct Hp as (l & Hfl & Hdel & Hst).
    unfold createRepayment in E.
    erewrite bind_ok in E
      by (unfold loan_findUnique, query; rewrite Hfl; reflexivity).
    cbv beta iota in E. rewrite Hdel, Hst in E.
    cbn [truthy LoanStatus_eqb negb] in E.
    erewrite bind_ok in E by reflexivity.
    erewrite bind_throw in E.
    2:{ unfold repayment_create, commit. rewrite Hf. reflexivity. }
    injection E as <- <-. split; reflexivity.
  - intros Hf. destruct Hp as (l & Hfl & Hdel & Hst).
    unfold createRepayment in E.
    erewrite bind_ok in E
      by (unfold loan_findUnique, query; rewrite Hfl; reflexivity).
    cbv beta iota in E. rewrite Hdel, Hst in E.
    cbn [truthy LoanStatus_eqb negb] in E.
    erewrite bind_ok in E by reflexivity.
    assert (exists w1,
              repayment_create (data_loanId data) user (data_amount data)
                (match data_paidAt data with Some d => d | None => clock w end)
                (data_method data) (data_reference data) (data_notes data) w
              = (Ok r, w1)
              /\ repayments (db w1) = repayments (db w) ++ [r])
      as (w1 & Hc & Hdb).
    { unfold repayment_create, commit. fold r.
      destruct (faults w) as [[|n]|] eqn:Ef.
      - now elim Hf.
      - eexists. split; reflexivity.
      - eexists. split; reflexivity. }
    erewrite bind_ok in E by exact Hc.
    unfold bind in E at 1.
    destruct (allocatePayment _ _ _ w1) as [o2 w2] eqn:E2.
    apply allocatePayment_frame in E2.
    destruct o2 as [[]|e].
    + unfold bind in E at 1.
      destruct (checkLoanCompletion _ w2) as [o3 w3] eqn:E3.
      apply checkLoanCompletion_frame in E3. destruct E3 as (_ & E3 & _).
      destruct o3 as [[]|e]; injection E as _ <-; congruence.
    + injection E as _ <-. congruence.
Qed.

Lemma createRepayment_no_rollback_witness :
  let (o, w') :=
    createRepayment (cash 1 70) 7
      (mkWorld two_pending_db mar_1_2024 (Some 3%nat)) in
  repayments (db w')
  = [mkRepayment 1 1 7 70 mar_1_2024 CASH None None mar_1_2024 None].
Proof.
  assert (payable 1 two_pending_db) as Hp
    by (exists active_loan; repeat split).
  generalize (createRepayment_no_rollback (cash 1 70) 7%nat
                (mkWorld two_pending_db mar_1_2024 (Some 3%nat)) Hp).
  cbv zeta.
  destruct (createRepayment (cash 1 70) 7
              (mkWorld two_pending_db mar_1_2024 (Some 3%nat))) as [o w'].
  intros (_ & _ & H). apply H. discriminate.
Defined.

(** ** Payment followed by its reversal *)

Lemma find_app_first {A} (f : A -> bool) l l' :
  find f (l ++ l')
  = match find f l with Some x => Some x | None => find f l' end.
Proof.
  induction l as [|x l IH]; simpl; [reflexivity|].
  now destruct (f x).
Qed.

Lemma find_map_rows {A B} (f : B -> bool) (g : A -> B) l :
  find f (map g l) = option_map g (find (fun x => f (g x)) l).
Proof.
  induction l as [|x l IH]; simpl; [reflexivity|].
  now destruct (f (g x)).
Qed.

Lemma existsb_find {A} (f : A -> bool) l :
  existsb f l = match find f l with Some _ => true | None => false end.
Proof.
  induction l as [|x l IH]; simpl; [reflexivity|].
  now destruct (f x).
Qed.

Lemma fresh_id_new l x : In x l -> rep_id x <> fresh_id l.
Proof.
  intros Hin. unfold fresh_id.
  assert (rep_id x <= list_max (map rep_id l))%nat; [|lia].
  pose proof (proj1 (list_max_le (map rep_id l) (list_max (map rep_id l)))
                (Nat.le_refl _)) as H.
  rewrite Forall_forall in H. apply H. now apply in_map.
Qed.

Lemma find_fresh_id l :
  find (fun x => Nat.eqb (rep_id x) (fresh_id l)) l = None.
Proof.
  apply (find_key_absent rep_id). intros Hin. apply in_map_iff in Hin.
  destruct Hin as (x & Hid & Hin). now apply (fresh_id_new l x).
Qed.

(** The allocations of the repayment just created are those of its walk. *)
Lemma allocations_of_new data user now d :
  allocations_linked d ->
  allocations_of (fresh_id (repayments d)) (create_db data user now d)
  = map (to_alloc (fresh_id (repayments d)))
      (walk (findMany_outstanding (data_loanId data) d) (data_amount data)).
Proof.
  intros Hfk. unfold allocations_of.
  destruct (create_db_tables data user now d) as (_ & -> & _).
  rewrite filter_app. simpl.
  rewrite filter_none.
  - simpl. set (plan := walk _ _). clearbody plan.
    induction plan as [|p plan IH]; simpl; [reflexivity|].
    rewrite Nat.eqb_refl. now f_equal.
  - intros a Ha. apply Nat.eqb_neq. intros E.
    specialize (Hfk a Ha). apply has_id_true in Hfk.
    destruct Hfk as (x & Hx & Hid).
    apply (fresh_id_new _ x Hx). congruence.
Qed.

Lemma update_row_twice {A} (key : A -> Id) id f g (l : list A) :
  (forall r, key (f r) = key r) ->
  update_row key id g (update_row key id f l)
  = update_row key id (fun r => g (f r)) l.
Proof.
  intros Hf. unfold update_row. rewrite map_map. apply map_ext.
  intros r. destruct (Nat.eqb (key r) id) eqn:E.
  - now rewrite Hf, E.
  - now rewrite E.
Qed.

(** Paying a row and taking the same amount back. *)
Lemma unpay_settle_row rid now loanId d amount x :
  NoDup (map item_id (scheduleItems d)) ->
  In x (scheduleItems d) ->
  let plan := walk (findMany_outstanding loanId d) amount in
  unpay_row (map (to_alloc rid) plan) (settle_row now plan x)
  = if existsb (fun a => Nat.eqb (scheduleItemId a) (item_id x))
         (map (to_alloc rid) plan)
    then restored x else x.
Proof.
  intros Hnd Hx plan.
  assert (NoDup (map (fun p => item_id (fst p)) plan)) as Hplan
    by (apply walk_ids_NoDup, findMany_outstanding_ids_NoDup, Hnd).
  assert (forall y,
            unpay_row (map (to_alloc rid) plan) y
            = match find (fun a => Nat.eqb (scheduleItemId a) (item_id y))
                      (map (to_alloc rid) plan) with
              | Some a =>
                  set_payment (paidAmount y - alloc_amount a)
                    (reversed_status (paidAmount y - alloc_amount a)
                       (totalDue y)) None y
              | None => y
              end) as Hun.
  { intros y. unfold unpay_row.
    apply (keyed_fold_unique scheduleItemId item_id
             (fun a r => set_payment (paidAmount r - alloc_amount a)
                           (reversed_status (paidAmount r - alloc_amount a)
                              (totalDue r)) None r)).
    - reflexivity.
    - rewrite map_map. exact Hplan. }
  rewrite Hun, existsb_find, settle_row_entry by exact Hplan.
  rewrite !find_map_rows. cbn [to_alloc scheduleItemId].
  fold (plan_entry (item_id x) plan).
  destruct (plan_entry (item_id x) plan) as [p|] eqn:Ep.
  - cbn [settle item_id set_payment]. fold (plan_entry (item_id x) plan).
    rewrite Ep. cbn [option_map].
    destruct (plan_entry_row _ _ _ _ _ Hnd Hx Ep) as (Hfst & _ & Hpos & Hle & _).
    unfold restored, settle, set_payment, reversed_status.
    cbn [paidAmount totalDue to_alloc alloc_amount item_id item_loanId
           sequence dueDate item_deletedAt].
    rewrite Hfst.
    replace (paidAmount x + snd p - snd p) with (paidAmount x) by lia.
    rewrite (proj2 (Z.ltb_lt (paidAmount x) (totalDue x))) by lia.
    reflexivity.
  - fold (plan_entry (item_id x) plan). rewrite Ep. reflexivity.
Qed.

Lemma restored_notPaid loanId x :
  outstanding_filter loanId x = true ->
  notPaid_filter loanId (restored x) = true.
Proof.
  unfold outstanding_filter, notPaid_filter, restored. simpl.
  intros H. apply andb_true_iff in H. destruct H as [H Hd].
  apply andb_true_iff in H. destruct H as [Hl _]. rewrite Hl, Hd.
  now destruct (paidAmount x <=? 0).
Qed.

Lemma reopen_db_scheduleItems loanId d :
  scheduleItems (reopen_db loanId d) = scheduleItems d.
Proof. unfold reopen_db. now destruct (Nat.ltb _ _). Qed.

Lemma branch_ok_status role b s c o :
  branch_ok role b (option_map (set_loan_status s c) o) = branch_ok role b o.
Proof. unfold branch_ok. destruct role, b, o; reflexivity. Qed.

(** C1, as stated, fails for an item that was OVERDUE: after a payment of
    20 on an OVERDUE installment of 50 and the immediate reversal of that
    payment, the paid amount is back at 0 but the status is PENDING, not
    OVERDUE. *)
Lemma reversal_loses_overdue :
  map item_status (scheduleItems overdue_db) = [OVERDUE]
  /\ (let (o1, w1) :=
        createRepayment (cash 1 20) 7 (mkWorld overdue_db mar_1_2024 None) in
      let (o2, w2) := deleteRepayment 1 ADMIN None w1 in
      (exists r, o1 = Ok r /\ rep_id r = 1%nat) /\ o2 = Ok tt
      /\ map paidAmount (scheduleItems (db w2)) = [0]
      /\ map item_status (scheduleItems (db w2)) = [PENDING]
      /\ map item_status (scheduleItems (db w2))
         <> map item_status (scheduleItems overdue_db)).
Proof.
  vm_compute. repeat split; try discriminate. eexists. split; reflexivity.
Qed.

(** C1, amended. On a reliable store with unique item identifiers whose
    allocation rows all point to existing repayments, [createRepayment] on an
    ACTIVE loan followed by [deleteRepayment] of the resulting repayment
    (by a permitted caller, within 24 hours, nothing in between) succeeds
    and leaves the schedule-item table as it was except that every item the
    payment touched has its paidAmount back at the exact pre-payment value,
    its status recomputed from that amount alone (PENDING when nothing is
    paid, else PARTIAL) and its closedAt cleared. So the paid amounts of all
    items are restored; a touched item gets its pre-payment status back when
    that status was PENDING with nothing paid or PARTIAL with something
    paid, while a touched item that was OVERDUE comes back as PENDING or
    PARTIAL. When the loan had an unpaid item before the payment, the loan
    row ends with status ACTIVE, as before the payment, and closedAt cleared,
    also when the payment had flipped it to COMPLETED. *)
Theorem payment_then_reversal data user w role b :
  reliable w ->
  NoDup (map item_id (scheduleItems (db w))) ->
  allocations_linked (db w) ->
  payable (data_loanId data) (db w) ->
  Role_eqb role CREDIT_OFFICER = false ->
  branch_ok role b
    (find (fun x => Nat.eqb (loan_id x) (data_loanId data)) (loans (db w)))
  = true ->
  exists r w1,
    createRepayment data user w = (Ok r, w1)
    /\ forall w1',
         db w1' = db w1 -> reliable w1' ->
         clock w1' - createdAt r <= day_ms ->
         exists w2,
           deleteRepayment (rep_id r) role b w1' = (Ok tt, w2)
           /\ scheduleItems (db w2)
              = map (fun x => if touched_by (rep_id r) (db w1) x
                              then restored x else x)
                  (scheduleItems (db w))
           /\ map paidAmount (scheduleItems (db w2))
              = map paidAmount (scheduleItems (db w))
           /\ ((forall x,
                   In x (scheduleItems (db w)) ->
                   outstanding_filter (data_loanId data) x = true ->
                   item_closedAt x = None
                   /\ item_status x
                      = if paidAmount x <=? 0 then PENDING else PARTIAL) ->
               scheduleItems (db w2) = scheduleItems (db w))
           /\ ((0 < count_notPaid (data_loanId data) (db w))%nat ->
               loans (db w2)
               = update_row loan_id (data_loanId data)
                   (set_loan_status ACTIVE None) (loans (db w))).
Proof.
  intros Hr Hnd Hfk Hp Hrole Hb.
  pose proof (createRepayment_reliable data user w Hr Hp) as Hrun.
  set (r := new_repayment data user (clock w) (db w)) in *.
  set (d1 := create_db data user (clock w) (db w)) in *.
  exists r, (set_db w d1). split; [exact Hrun|].
  intros w1' Hdb Hr1 Hclock. cbn [db set_db] in Hdb.
  set (L := data_loanId data) in *.
  set (plan := walk (findMany_outstanding L (db w)) (data_amount data)).
  destruct (create_db_tables data user (clock w) (db w))
    as (Hreps & Hal & Hit & Hlo).
  fold d1 r L plan in Hreps, Hal, Hit, Hlo.
  assert (allocations_of (rep_id r) d1 = map (to_alloc (rep_id r)) plan)
    as Hmine by (apply allocations_of_new; exact Hfk).
  assert (find (fun x => Nat.eqb (rep_id x) (rep_id r)) (repayments d1)
          = Some r) as Hfind.
  { rewrite Hreps, find_app_first.
    change (rep_id r) with (fresh_id (repayments (db w))).
    rewrite find_fresh_id. simpl. now rewrite Nat.eqb_refl. }
  destruct Hp as (l & Hfl & Hdel & Hst).
  assert (exists l1,
            find (fun x => Nat.eqb (loan_id x) L) (loans d1)
            = option_map l1 (Some l)
            /\ forall o, branch_ok role b (option_map l1 o)
                         = branch_ok role b o) as (l1 & Hfl1 & Hb1).
  { rewrite Hlo. destruct (Nat.eqb _ 0).
    - exists (set_loan_status COMPLETED (Some (clock w))). split.
      + rewrite find_update_row by reflexivity. now rewrite Hfl.
      + apply branch_ok_status.
    - exists (fun x => x). split; [now rewrite Hfl|].
      intros o. now destruct o. }
  assert (NoDup (map item_id (scheduleItems d1))) as Hnd1.
  { rewrite Hit, map_map.
    rewrite (map_ext (fun x => item_id (settle_row (clock w) plan x)) item_id).
    - exact Hnd.
    - intros x. unfold settle_row.
      apply (keyed_fold_id (fun p => item_id (fst p)) item_id
               (fun p r => settle (clock w) p r) (settle_id (clock w))). }
  destruct (deleteRepayment_reliable (rep_id r) role b w1' r)
    as (o & Hdelrun & Ho); try assumption.
  { now rewrite Hdb. }
  { now rewrite Hdb. }
  { unfold may_delete. rewrite Hdb. change (rep_loanId r) with L.
    rewrite Hfl1, Hb1, <- Hfl, Hb, Hrole. simpl.
    apply negb_true_iff. change (createdAt r) with (clock w).
    rewrite Z.gtb_ltb. apply Z.ltb_ge. exact Hclock. }
  rewrite Ho in Hdelrun.
  2:{ rewrite Hdb. change (rep_loanId r) with L.
      destruct (find_some_has_id loan_id L (loans d1) (l1 l) Hfl1) as [H _].
      exact H. }
  eexists. split; [exact Hdelrun|]. cbn [db set_db]. rewrite Hdb.
  change (rep_loanId r) with L. unfold delete_db.
  set (d2 := set_repayments _ _).
  assert (scheduleItems d2
          = map (fun x => if touched_by (rep_id r) d1 x then restored x else x)
              (scheduleItems (db w))) as Hrows.
  { unfold d2. cbn [scheduleItems set_repayments set_scheduleItems].
    rewrite reverse_items_rows, Hit, map_map, Hmine.
    apply map_ext_in. intros x Hx. unfold touched_by. rewrite Hmine.
    apply (unpay_settle_row (rep_id r) (clock w) L (db w)
             (data_amount data) x Hnd Hx). }
  assert (forall x, In x (scheduleItems (db w)) ->
                    touched_by (rep_id r) d1 x = true ->
                    outstanding_filter L x = true) as Htouched.
  { intros x Hx Ht. unfold touched_by in Ht. rewrite Hmine in Ht.
    rewrite existsb_find, find_map_rows in Ht.
    cbn [to_alloc scheduleItemId] in Ht.
    destruct (find _ plan) as [p|] eqn:Ep; [|discriminate].
    now destruct (plan_entry_row L (db w) (data_amount data) x p Hnd Hx Ep)
      as (_ & Hf & _). }
  rewrite reopen_db_scheduleItems, Hrows.
  split; [reflexivity|]. split; [|split].
  - rewrite map_map. apply map_ext. intros x.
    now destruct (touched_by (rep_id r) d1 x).
  - intros Hcons. rewrite <- (map_id (scheduleItems (db w))) at 2.
    apply map_ext_in. intros x Hx.
    destruct (touched_by (rep_id r) d1 x) eqn:Ht; [|reflexivity].
    destruct (Hcons x Hx (Htouched x Hx Ht)) as [Hc Hs].
    unfold restored, set_payment. rewrite <- Hs, <- Hc. now destruct x.
  - intros Hcount.
    assert (count_notPaid L d2 = count_notPaid L (db w)) as Hsame.
    { unfold count_notPaid. rewrite Hrows.
      assert (forall tbl,
                 (forall x, In x tbl -> In x (scheduleItems (db w))) ->
                 filter (notPaid_filter L)
                   (map (fun x => if touched_by (rep_id r) d1 x
                                  then restored x else x) tbl)
                 = map (fun x => if touched_by (rep_id r) d1 x
                                 then restored x else x)
                     (filter (notPaid_filter L) tbl)) as Hcomm.
      { induction tbl as [|x tbl IH]; intros Hsub; cbn [map filter];
          [reflexivity|].
        assert (notPaid_filter L
                  (if touched_by (rep_id r) d1 x then restored x else x)
                = notPaid_filter L x) as ->.
        { destruct (touched_by (rep_id r) d1 x) eqn:Ht; [|reflexivity].
          pose proof (Htouched x (Hsub x (or_introl eq_refl)) Ht) as Hf.
          rewrite (restored_notPaid L x Hf).
          now rewrite <- outstanding_is_notPaid. }
        destruct (notPaid_filter L x); cbn [map]; rewrite IH; auto;
          intros y Hy; apply Hsub; now right. }
      rewrite Hcomm by auto. now rewrite length_map. }
    unfold reopen_db. rewrite Hsame.
    rewrite (proj2 (Nat.ltb_lt 0 _) Hcount).
    cbn [loans set_loans]. change (loans d2) with (loans d1).
    rewrite Hlo. destruct (Nat.eqb _ 0).
    + now rewrite update_row_twice by reflexivity.
    + reflexivity.
Qed.

Lemma payment_then_reversal_witness :
  exists r w1,
    createRepayment (cash 1 50) 7 (mkWorld one_pending_db mar_1_2024 None)
    = (Ok r, w1)
    /\ exists w2,
         deleteRepayment (rep_id r) ADMIN None
           (mkWorld (db w1) (mar_1_2024 + hour_ms) None) = (Ok tt, w2)
         /\ scheduleItems (db w2) = scheduleItems one_pending_db
         /\ loans (db w2) = [active_loan].
Proof.
  destruct (payment_then_reversal (cash 1 50) 7%nat
              (mkWorld one_pending_db mar_1_2024 None) ADMIN None)
    as (r & w1 & Hc & Hback).
  - reflexivity.
  - simpl. repeat constructor; simpl; intuition.
  - intros a Ha. contradiction.
  - exists active_loan. repeat split.
  - reflexivity.
  - reflexivity.
  - exists r, w1. split; [exact Hc|].
    assert (createdAt r = mar_1_2024) as Hat.
    { pose proof Hc as Hrun. vm_compute in Hrun.
      injection Hrun as <- _. reflexivity. }
    destruct (Hback (mkWorld (db w1) (mar_1_2024 + hour_ms) None))
      as (w2 & Hd & _ & _ & Hsame & Hloan).
    + reflexivity.
    + reflexivity.
    + cbn [clock]. rewrite Hat. vm_compute. discriminate.
    + exists w2. split; [exact Hd|]. split.
      * apply Hsame. intros x [<-|[]] _. split; reflexivity.
      * apply Hloan. vm_compute. constructor.
Defined.

Lemma createRepayment_nonpositive_amount_witness :
  let (o, w') :=
    createRepayment (cash 1 (-5)) 7 (mkWorld one_pending_db mar_1_2024 None) in
  map rep_amount (repayments (db w')) = [-5]
  /\ allocations (db w') = []
  /\ scheduleItems (db w') = scheduleItems one_pending_db.
Proof.
  assert (payable 1 one_pending_db) as Hp
    by (exists active_loan; repeat split).
  assert (-5 <= 0) as Hle by (vm_compute; discriminate).
  assert (@None nat <> Some O) as Hf by discriminate.
  generalize (createRepayment_nonpositive_amount (cash 1 (-5)) 7%nat
                (mkWorld one_pending_db mar_1_2024 None) Hp Hle Hf).
  cbv zeta.
  destruct (createRepayment (cash 1 (-5)) 7
              (mkWorld one_pending_db mar_1_2024 None)) as [o w'].
  intros (_ & Hreps & Hal & Hit & _).
  rewrite Hreps, Hal, Hit. repeat split.
Defined.

(** ** Conservation *)

Lemma sumZ_app l l' : sumZ (l ++ l') = sumZ l + sumZ l'.
Proof. unfold sumZ. induction l as [|x l IH]; simpl; lia. Qed.

Lemma sum_filter_split {A} (P Q : A -> bool) (v : A -> Z) l :
  sumZ (map v (filter P l))
  = sumZ (map v (filter (fun a => P a && Q a) l))
    + sumZ (map v (filter (fun a => P a && negb (Q a)) l)).
Proof.
  unfold sumZ. induction l as [|x l IH]; simpl; [reflexivity|].
  destruct (P x), (Q x); simpl; lia.
Qed.

Lemma filter_twice {A} (f g : A -> bool) l :
  filter f (filter g l) = filter (fun x => g x && f x) l.
Proof.
  induction l as [|x l IH]; simpl; [reflexivity|].
  destruct (g x); simpl; [|exact IH].
  destruct (f x); now rewrite IH.
Qed.

Lemma sum_filter_nonneg {A} (P : A -> bool) (v : A -> Z) l :
  (forall a, In a l -> 0 <= v a) -> 0 <= sumZ (map v (filter P l)).
Proof.
  unfold sumZ. induction l as [|x l IH]; intros H; simpl; [lia|].
  assert (0 <= fold_right Z.add 0 (map v (filter P l)))
    by (apply IH; intros a Ha; apply H; now right).
  destruct (P x); simpl; [|assumption].
  specialize (H x (or_introl eq_refl)). lia.
Qed.

Lemma active_sum_nonneg d k :
  (forall a, In a (allocations d) -> 0 <= alloc_amount a) ->
  0 <= active_sum d k.
Proof. intros H. unfold active_sum. now apply sum_filter_nonneg. Qed.

(** What the plan gives to the row [k], with unique rows in the plan. *)
Lemma plan_sum_entry rid k plan :
  NoDup (map (fun p => item_id (fst p)) plan) ->
  sumZ (map alloc_amount
          (filter (fun a => Nat.eqb (scheduleItemId a) k)
             (map (to_alloc rid) plan)))
  = match plan_entry k plan with Some p => snd p | None => 0 end.
Proof.
  unfold plan_entry, sumZ.
  induction plan as [|p plan IH]; intros Hnd; simpl; [reflexivity|].
  inversion Hnd as [|? ? Hp Hnd']; subst.
  destruct (Nat.eqb (item_id (fst p)) k) eqn:E.
  - simpl. rewrite IH by assumption.
    apply Nat.eqb_eq in E. subst k.
    rewrite (find_key_absent (fun q => item_id (fst q)) plan _ Hp). lia.
  - now apply IH.
Qed.

Lemma has_id_find {A} (key : A -> Id) id l :
  has_id key id l = true ->
  exists r, find (fun x => Nat.eqb (key x) id) l = Some r.
Proof.
  unfold has_id. rewrite existsb_find.
  destruct (find _ l) as [r|]; [now exists r|discriminate].
Qed.

Lemma has_id_app {A} (key : A -> Id) id l l' :
  has_id key id l = true -> has_id key id (l ++ l') = true.
Proof. unfold has_id. rewrite existsb_app. now intros ->. Qed.

Lemma settle_row_id now plan x : item_id (settle_row now plan x) = item_id x.
Proof.
  unfold settle_row.
  apply (keyed_fold_id (fun p => item_id (fst p)) item_id
           (fun p r => settle now p r) (settle_id now)).
Qed.

(** [createRepayment] keeps the ledger consistent. *)
Lemma create_db_ledger data user now d :
  ledger_ok d -> ledger_ok (create_db data user now d).
Proof.
  intros [Hnd Hfk Hamt Hpaid].
  destruct (create_db_tables data user now d) as (Hreps & Hal & Hit & _).
  set (r := new_repayment data user now d) in *.
  set (plan := walk (findMany_outstanding (data_loanId data) d)
                 (data_amount data)) in *.
  set (d' := create_db data user now d) in *.
  assert (NoDup (map (fun p => item_id (fst p)) plan)) as Hplan
    by (apply walk_ids_NoDup, findMany_outstanding_ids_NoDup, Hnd).
  assert (forall a, In a (allocations d) -> active d' a = active d a) as Hold.
  { intros a Ha. unfold active. rewrite Hreps, find_app_first.
    destruct (has_id_find rep_id _ _ (Hfk a Ha)) as (x & ->). reflexivity. }
  assert (forall a, In a (map (to_alloc (rep_id r)) plan) ->
                    active d' a = true) as Hnew.
  { intros a Ha. apply in_map_iff in Ha. destruct Ha as (p & <- & _).
    unfold active. rewrite Hreps, find_app_first. cbn [to_alloc repaymentId].
    change (rep_id r) with (fresh_id (repayments d)).
    rewrite find_fresh_id. simpl. now rewrite Nat.eqb_refl. }
  constructor.
  - rewrite Hit, map_map.
    rewrite (map_ext _ item_id (settle_row_id now plan)). exact Hnd.
  - intros a Ha. rewrite Hal in Ha. rewrite Hreps.
    apply in_app_or in Ha. destruct Ha as [Ha|Ha].
    + apply has_id_app. now apply Hfk.
    + apply in_map_iff in Ha. destruct Ha as (p & <- & _).
      unfold has_id. rewrite existsb_app. simpl.
      rewrite Nat.eqb_refl. now rewrite orb_true_r.
  - intros a Ha. rewrite Hal in Ha.
    apply in_app_or in Ha. destruct Ha as [Ha|Ha]; [now apply Hamt|].
    apply in_map_iff in Ha. destruct Ha as ([it v] & <- & Hp).
    apply walk_In in Hp. simpl. lia.
  - intros i Hi. rewrite Hit in Hi. apply in_map_iff in Hi.
    destruct Hi as (x & <- & Hx). rewrite settle_row_id.
    assert (active_sum d' (item_id x)
            = active_sum d (item_id x)
              + match plan_entry (item_id x) plan with
                | Some p => snd p
                | None => 0
                end) as Hsum.
    { unfold active_sum. rewrite Hal, filter_app, map_app, sumZ_app.
      f_equal.
      - f_equal. f_equal. apply filter_ext_in. intros a Ha.
        now rewrite (Hold a Ha).
      - rewrite <- (plan_sum_entry (rep_id r)) by exact Hplan.
        f_equal. f_equal. apply filter_ext_in. intros a Ha.
        rewrite (Hnew a Ha). apply andb_true_r. }
    rewrite Hsum, settle_row_entry by exact Hplan.
    specialize (Hpaid x Hx).
    destruct (plan_entry (item_id x) plan) as [p|] eqn:Ep.
    + destruct (plan_entry_row _ _ _ _ _ Hnd Hx Ep)
        as (Hfst & _ & Hpos & Hle & _).
      unfold settle. simpl. rewrite Hfst. lia.
    + lia.
Qed.

Lemma unpay_row_id allocs : forall x, item_id (unpay_row allocs x) = item_id x.
Proof.
  unfold unpay_row.
  induction allocs as [|a allocs IH]; intros x; simpl; [reflexivity|].
  now rewrite IH, unpay_id.
Qed.

Lemma unpay_row_amounts allocs :
  forall x,
    totalDue (unpay_row allocs x) = totalDue x
    /\ paidAmount (unpay_row allocs x)
       = paidAmount x
         - sumZ (map alloc_amount
                   (filter (fun a => Nat.eqb (scheduleItemId a) (item_id x))
                      allocs)).
Proof.
  unfold unpay_row, sumZ.
  induction allocs as [|a allocs IH]; intros x; simpl; [split; lia|].
  destruct (IH (unpay a x)) as [Ht Hp]. rewrite Ht, Hp, unpay_id.
  unfold unpay. rewrite (Nat.eqb_sym (scheduleItemId a) (item_id x)).
  destruct (Nat.eqb (item_id x) (scheduleItemId a)); simpl; split; lia.
Qed.

Lemma find_update_row_any {A} (key : A -> Id) id k f (l : list A) :
  (forall r, key (f r) = key r) ->
  find (fun r => Nat.eqb (key r) k) (update_row key id f l)
  = option_map (fun r => if Nat.eqb (key r) id then f r else r)
      (find (fun r => Nat.eqb (key r) k) l).
Proof.
  intros Hf. induction l as [|x l IH]; simpl; [reflexivity|].
  assert (key (if Nat.eqb (key x) id then f x else x) = key x) as E
    by (destruct (Nat.eqb (key x) id); [apply Hf|reflexivity]).
  rewrite E. destruct (Nat.eqb (key x) k); [reflexivity|exact IH].
Qed.

(** [deleteRepayment] keeps the ledger consistent. *)
Lemma delete_db_ledger id now d r :
  find (fun x => Nat.eqb (rep_id x) id) (repayments d) = Some r ->
  rep_deletedAt r = None ->
  ledger_ok d -> ledger_ok (delete_db id (rep_loanId r) now d).
Proof.
  intros Hf Hlive [Hnd Hfk Hamt Hpaid].
  set (d' := delete_db id (rep_loanId r) now d).
  assert (scheduleItems d'
          = map (unpay_row (allocations_of id d)) (scheduleItems d)
          /\ repayments d'
             = update_row rep_id id (set_rep_deletedAt (Some now))
                 (repayments d)
          /\ allocations d' = allocations d) as (Hit & Hreps & Hal).
  { unfold d', delete_db, reopen_db.
    destruct (Nat.ltb _ _); cbn; rewrite reverse_items_rows; auto. }
  assert (forall a, active d' a
                    = active d a && negb (Nat.eqb (repaymentId a) id)) as Hact.
  { intros a. unfold active. rewrite Hreps.
    rewrite find_update_row_any by reflexivity.
    destruct (find (fun x => Nat.eqb (rep_id x) (repaymentId a))
                (repayments d)) as [x|] eqn:Ex; [|reflexivity].
    apply find_some in Ex. destruct Ex as [_ Ex]. apply Nat.eqb_eq in Ex.
    simpl. rewrite Ex.
    destruct (Nat.eqb (repaymentId a) id); simpl;
      [now rewrite andb_false_r|now rewrite andb_true_r]. }
  assert (forall a, Nat.eqb (repaymentId a) id = true -> active d a = true)
    as Hmine.
  { intros a Ha. apply Nat.eqb_eq in Ha. unfold active.
    now rewrite Ha, Hf, Hlive. }
  constructor.
  - rewrite Hit, map_map.
    rewrite (map_ext _ item_id (unpay_row_id (allocations_of id d))).
    exact Hnd.
  - intros a Ha. rewrite Hal in Ha. rewrite Hreps.
    erewrite has_id_map_key; [now apply Hfk|].
    now apply update_row_ids.
  - intros a Ha. rewrite Hal in Ha. now apply Hamt.
  - intros i Hi. rewrite Hit in Hi. apply in_map_iff in Hi.
    destruct Hi as (x & <- & Hx). rewrite unpay_row_id.
    destruct (unpay_row_amounts (allocations_of id d) x) as [-> ->].
    specialize (Hpaid x Hx).
    set (taken := sumZ (map alloc_amount
                          (filter (fun a => Nat.eqb (scheduleItemId a)
                                              (item_id x))
                             (allocations_of id d)))).
    assert (0 <= taken) as Hnn.
    { unfold taken. apply sum_filter_nonneg. intros a Ha.
      apply Hamt. unfold allocations_of in Ha. now apply filter_In in Ha. }
    assert (active_sum d (item_id x) = taken + active_sum d' (item_id x))
      as Hsplit.
    { unfold active_sum, taken, allocations_of. rewrite Hal.
      rewrite (sum_filter_split _ (fun a => Nat.eqb (repaymentId a) id)).
      f_equal.
      - f_equal. f_equal.
        rewrite filter_twice. apply filter_ext. intros a.
        destruct (Nat.eqb (repaymentId a) id) eqn:E.
        + rewrite (Hmine a E). now rewrite !andb_true_r.
        + now rewrite andb_false_r.
      - f_equal. f_equal. apply filter_ext. intros a.
        rewrite Hact. now rewrite andb_assoc. }
    lia.
Qed.

Lemma after_call_ledger now c d : ledger_ok d -> ledger_ok (after_call now c d).
Proof.
  intros Hok. destruct c as [data user|id role b]; simpl.
  - destruct (payable_dec (data_loanId data) d) as [Hp|Hn].
    + rewrite createRepayment_reliable by (try reflexivity; exact Hp).
      simpl. now apply create_db_ledger.
    + destruct (createRepayment_rejected data user (mkWorld d now None) Hn)
        as (e & -> & _).
      exact Hok.
  - destruct (find (fun x => Nat.eqb (rep_id x) id) (repayments d))
      as [r|] eqn:Hf.
    + destruct (may_delete role b r (mkWorld d now None)) eqn:Hg.
      * destruct (deleteRepayment_reliable id role b (mkWorld d now None) r)
          as (o & -> & _); try assumption; try reflexivity.
        { apply (ledger_ids d Hok). }
        simpl. apply delete_db_ledger; try assumption.
        unfold may_delete in Hg.
        destruct (rep_deletedAt r); [discriminate|reflexivity].
      * destruct (deleteRepayment_refused id role b (mkWorld d now None))
          as (e & ->); [|exact Hok].
        intros r' Hr'. simpl in Hr'. rewrite Hf in Hr'.
        now injection Hr' as <-.
    + destruct (deleteRepayment_refused id role b (mkWorld d now None))
        as (e & ->); [|exact Hok].
      intros r' Hr'. simpl in Hr'. rewrite Hf in Hr'. discriminate.
Qed.

Lemma after_calls_ledger calls :
  forall d, ledger_ok d -> ledger_ok (after_calls calls d).
Proof.
  unfold after_calls.
  induction calls as [|[now c] calls IH]; intros d Hok; simpl; [exact Hok|].
  apply IH. now apply after_call_ledger.
Qed.

(** C6, as stated, fails on a store that can reject a write. A payment of
    50 settles the only installment (totalDue 50). The first
    [deleteRepayment] has its schedule-item update accepted (paidAmount back
    to 0) and its next write, the soft delete of the repayment, rejected: it
    throws and the repayment stays live. The same [deleteRepayment] made
    again, now with every write accepted, subtracts the allocation a second
    time: the installment ends with paidAmount -50. *)
Lemma reversal_retry_goes_negative :
  ledger_ok one_pending_db
  /\ let (o1, w1) :=
       createRepayment (cash 1 50) 7
         (mkWorld one_pending_db mar_1_2024 None) in
     let (o2, w2) :=
       deleteRepayment 1 ADMIN None
         (mkWorld (db w1) (mar_1_2024 + hour_ms) (Some 1%nat)) in
     let (o3, w3) :=
       deleteRepayment 1 ADMIN None
         (mkWorld (db w2) (mar_1_2024 + 2 * hour_ms) None) in
     map (fun i => (paidAmount i, totalDue i)) (scheduleItems (db w1))
     = [(50, 50)]
     /\ o2 = Throw "store failure"
     /\ map (fun i => (paidAmount i, totalDue i)) (scheduleItems (db w2))
        = [(0, 50)]
     /\ map rep_deletedAt (repayments (db w2)) = [None]
     /\ o3 = Ok tt
     /\ map (fun i => (paidAmount i, totalDue i)) (scheduleItems (db w3))
        = [(-50, 50)].
Proof.
  split.
  - constructor.
    + simpl. repeat constructor; simpl; intuition discriminate.
    + intros a Ha. contradiction.
    + intros a Ha. contradiction.
    + intros i [<-|[]]; vm_compute; split; discriminate.
  - vm_compute. repeat split.
Qed.

(** C6, amended. Starting from a consistent ledger (for instance a loan
    that has just been activated), after any sequence of [createRepayment]
    and [deleteRepayment] calls on a store that accepts every write, made at
    any times, with any arguments and whether they return or throw, every
    schedule item satisfies [0 <= paidAmount <= totalDue], and the sum of its
    active allocation amounts does not exceed its totalDue. *)
Theorem conservation calls d i :
  ledger_ok d ->
  In i (scheduleItems (after_calls calls d)) ->
  0 <= paidAmount i <= totalDue i
  /\ active_sum (after_calls calls d) (item_id i) <= totalDue i.
Proof.
  intros Hok Hi.
  pose proof (after_calls_ledger calls d Hok) as [Hnd Hfk Hamt Hpaid].
  specialize (Hpaid i Hi).
  pose proof (active_sum_nonneg (after_calls calls d) (item_id i) Hamt).
  lia.
Qed.

Lemma conservation_witness :
  let d := after_calls
             [(mar_1_2024, RecordPayment (cash 1 70) 7);
              (mar_1_2024 + hour_ms, RecordPayment (cash 1 70) 8);
              (mar_1_2024 + 2 * hour_ms, ReverseRepayment 1 ADMIN None)]
             two_pending_db in
  0 <= 30 <= 50 /\ active_sum d 2 <= 50.
Proof.
  apply (conservation
           [(mar_1_2024, RecordPayment (cash 1 70) 7);
            (mar_1_2024 + hour_ms, RecordPayment (cash 1 70) 8);
            (mar_1_2024 + 2 * hour_ms, ReverseRepayment 1 ADMIN None)]
           two_pending_db
           (mkItem 2 1 2 feb_1_2024 50 30 PARTIAL None None)).
  - constructor.
    + simpl. repeat constructor; simpl; intuition discriminate.
    + intros a Ha. contradiction.
    + intros a Ha. contradiction.
    + intros i [<-|[<-|[]]]; vm_compute; split; discriminate.
  - vm_compute. left. reflexivity.
Defined.

(** ** What a payment distributes *)

Lemma walk_sum items :
  forall rem,
    sumZ (map snd (walk items rem))
    = Z.min (Z.max 0 rem) (total_outstanding items).
Proof.
  induction items as [|x rest IH]; intros rem.
  - unfold total_outstanding, sumZ. simpl. lia.
  - pose proof (total_outstanding_nonneg rest) as Hnn.
    assert (total_outstanding (x :: rest)
            = Z.max 0 (outstanding x) + total_outstanding rest) as ->
      by reflexivity.
    simpl. fold (outstanding x).
    destruct (rem <=? 0) eqn:Er.
    + apply Z.leb_le in Er. unfold sumZ. simpl. lia.
    + apply Z.leb_gt in Er.
      destruct (outstanding x <=? 0) eqn:Eo.
      * apply Z.leb_le in Eo. rewrite IH. lia.
      * apply Z.leb_gt in Eo.
        destruct (rem >=? outstanding x) eqn:Eg.
        -- apply Z.geb_le in Eg.
           change (sumZ (map snd ((x, outstanding x)
                                    :: walk rest (rem - outstanding x))))
             with (outstanding x
                   + sumZ (map snd (walk rest (rem - outstanding x)))).
           rewrite IH. lia.
        -- rewrite Z.geb_leb in Eg. apply Z.leb_gt in Eg.
           change (sumZ (map snd ((x, rem) :: walk rest (rem - rem))))
             with (rem + sumZ (map snd (walk rest (rem - rem)))).
           rewrite IH. lia.
Qed.

Lemma added_allocations_app w w' news :
  allocations (db w') = allocations (db w) ++ news ->
  added_allocations w w' = news.
Proof.
  intros H. unfold added_allocations. rewrite H.
  rewrite skipn_app, skipn_all, Nat.sub_diag. reflexivity.
Qed.

Lemma createRepayment_added data user w :
  reliable w ->
  payable (data_loanId data) (db w) ->
  let r := new_repayment data user (clock w) (db w) in
  let w' := set_db w (create_db data user (clock w) (db w)) in
  createRepayment data user w = (Ok r, w')
  /\ added_allocations w w'
     = map (to_alloc (rep_id r))
         (walk (findMany_outstanding (data_loanId data) (db w))
            (data_amount data))
  /\ allocations (db w') = allocations (db w) ++ added_allocations w w'.
Proof.
  intros Hr Hp r w'.
  split; [now apply createRepayment_reliable|].
  destruct (create_db_tables data user (clock w) (db w)) as (_ & Hal & _).
  assert (added_allocations w w'
          = map (to_alloc (rep_id r))
              (walk (findMany_outstanding (data_loanId data) (db w))
                 (data_amount data))) as E
    by (apply added_allocations_app; exact Hal).
  split; [exact E|]. rewrite E. exact Hal.
Qed.

(** X1. A payment never hands out more than it brings and never more than
    is owed: on a reliable store, the allocation rows appended by
    [createRepayment] all belong to the new repayment, are all strictly
    positive, and add up to the smaller of the amount (zero if the amount is
    negative) and what the loan's eligible items owe together. The rows
    that were in the allocation table stay in front, unchanged. *)
Theorem payment_conservation data user w :
  reliable w ->
  payable (data_loanId data) (db w) ->
  exists r w',
    createRepayment data user w = (Ok r, w')
    /\ allocations (db w') = allocations (db w) ++ added_allocations w w'
    /\ (forall a, In a (added_allocations w w') ->
                  repaymentId a = rep_id r /\ 0 < alloc_amount a)
    /\ sumZ (map alloc_amount (added_allocations w w'))
       = Z.min (Z.max 0 (data_amount data))
           (total_outstanding
              (findMany_outstanding (data_loanId data) (db w))).
Proof.
  intros Hr Hp.
  destruct (createRepayment_added data user w Hr Hp) as (Hrun & Hadd & Hal).
  do 2 eexists. split; [exact Hrun|]. split; [exact Hal|].
  rewrite Hadd. split.
  - intros a Ha. apply in_map_iff in Ha. destruct Ha as ([it v] & <- & Hin).
    apply walk_In in Hin. simpl. split; [reflexivity|lia].
  - rewrite map_map. cbn [to_alloc alloc_amount].
    rewrite <- (map_ext snd _ (fun p => eq_refl)). apply walk_sum.
Qed.

Lemma payment_conservation_witness :
  exists r w',
    createRepayment (cash 1 70) 7 (mkWorld two_pending_db mar_1_2024 None)
    = (Ok r, w')
    /\ sumZ (map alloc_amount
               (added_allocations (mkWorld two_pending_db mar_1_2024 None) w'))
       = 70.
Proof.
  destruct (payment_conservation (cash 1 70) 7%nat
              (mkWorld two_pending_db mar_1_2024 None))
    as (r & w' & Hrun & _ & _ & Hsum).
  - reflexivity.
  - exists active_loan. repeat split.
  - exists r, w'. split; [exact Hrun|]. rewrite Hsum. reflexivity.
Defined.

Lemma Forall2_map_self {A B} (R : A -> B -> Prop) (f : A -> B) l :
  (forall x, In x l -> R x (f x)) -> Forall2 R l (map f l).
Proof.
  induction l as [|x l IH]; intros H; simpl; constructor.
  - apply H. now left.
  - apply IH. intros y Hy. apply H. now right.
Qed.

Lemma given_to_plan rid k plan :
  NoDup (map (fun p => item_id (fst p)) plan) ->
  given_to k (map (to_alloc rid) plan)
  = match plan_entry k plan with Some p => snd p | None => 0 end.
Proof. apply plan_sum_entry. Qed.

(** X2. What a payment does to the schedule items, row by row. On a
    reliable store with unique item identifiers the item table after
    [createRepayment] has the same rows in the same order; identifier,
    loan, sequence, due date, totalDue and deletedAt of every row are as
    before, and its paidAmount has grown by exactly what the new allocation
    rows give to it. A row that is given nothing is unchanged in every
    column. A row that is given something was an eligible item of the
    loan; afterwards it is either PAID with [paidAmount = totalDue] and
    closedAt stamped with the current time, or PARTIAL with
    [paidAmount < totalDue] and closedAt cleared. *)
Theorem payment_effect_on_items data user w :
  reliable w ->
  NoDup (map item_id (scheduleItems (db w))) ->
  payable (data_loanId data) (db w) ->
  exists r w',
    createRepayment data user w = (Ok r, w')
    /\ Forall2
         (fun x y =>
            item_id y = item_id x /\ item_loanId y = item_loanId x
            /\ sequence y = sequence x /\ dueDate y = dueDate x
            /\ totalDue y = totalDue x /\ item_deletedAt y = item_deletedAt x
            /\ paidAmount y
               = paidAmount x + given_to (item_id x) (added_allocations w w')
            /\ (given_to (item_id x) (added_allocations w w') = 0 -> y = x)
            /\ (given_to (item_id x) (added_allocations w w') <> 0 ->
                outstanding_filter (data_loanId data) x = true
                /\ 0 < given_to (item_id x) (added_allocations w w')
                /\ ((item_status y = PAID /\ paidAmount y = totalDue y
                     /\ item_closedAt y = Some (clock w))
                    \/ (item_status y = PARTIAL /\ paidAmount y < totalDue y
                        /\ item_closedAt y = None))))
         (scheduleItems (db w)) (scheduleItems (db w')).
Proof.
  intros Hr Hnd Hp.
  destruct (createRepayment_added data user w Hr Hp) as (Hrun & Hadd & _).
  do 2 eexists. split; [exact Hrun|].
  rewrite Hadd. cbn [db set_db].
  destruct (create_db_tables data user (clock w) (db w)) as (_ & _ & -> & _).
  set (plan := walk (findMany_outstanding (data_loanId data) (db w))
                 (data_amount data)).
  assert (NoDup (map (fun p => item_id (fst p)) plan)) as Hplan
    by (apply walk_ids_NoDup, findMany_outstanding_ids_NoDup, Hnd).
  apply Forall2_map_self. intros x Hx.
  rewrite given_to_plan, settle_row_entry by exact Hplan.
  destruct (plan_entry (item_id x) plan) as [p|] eqn:Ep.
  - destruct (plan_entry_row _ _ _ _ _ Hnd Hx Ep)
      as (Hfst & Hf & Hpos & Hle & _).
    unfold settle. rewrite Hfst. cbn.
    repeat split; try reflexivity; try lia; try assumption.
    unfold paid_status.
    destruct (paidAmount x + snd p >=? totalDue x) eqn:E.
    + left. apply Z.geb_le in E. repeat split; try reflexivity; lia.
    + right. rewrite Z.geb_leb in E. apply Z.leb_gt in E.
      repeat split; try reflexivity; lia.
  - repeat split; try reflexivity; try lia; intros H; now elim H.
Qed.

Lemma payment_effect_on_items_witness :
  exists r w',
    createRepayment (cash 1 70) 7 (mkWorld two_pending_db mar_1_2024 None)
    = (Ok r, w')
    /\ map paidAmount (scheduleItems (db w')) = [20; 50].
Proof.
  destruct (payment_effect_on_items (cash 1 70) 7%nat
              (mkWorld two_pending_db mar_1_2024 None))
    as (r & w' & Hrun & Hrows).
  - reflexivity.
  - simpl. repeat constructor; simpl; intuition discriminate.
  - exists active_loan. repeat split.
  - exists r, w'. split; [exact Hrun|].
    pose proof Hrun as Hc. vm_compute in Hc. injection Hc as _ <-.
    reflexivity.
Defined.

(** ** Oldest obligation first *)

Lemma sorted_prefix_le l1 :
  forall x l2,
    StronglySorted due_le (l1 ++ x :: l2) ->
    forall z, In z l1 -> due_le z x.
Proof.
  induction l1 as [|a l1 IH]; intros x l2 Hs z Hz; [contradiction|].
  simpl in Hs. inversion Hs as [|? ? Hs' Ha]; subst.
  destruct Hz as [->|Hz].
  - rewrite Forall_forall in Ha. apply Ha. apply in_or_app. right. now left.
  - eapply IH; eauto.
Qed.

Lemma sorted_before l x y :
  StronglySorted due_le l -> In x l -> In y l -> dueDate x < dueDate y ->
  exists l1 l2, l = l1 ++ x :: l2 /\ In y l2.
Proof.
  intros Hs Hx Hy Hlt. apply in_split in Hx. destruct Hx as (l1 & l2 & ->).
  exists l1, l2. split; [reflexivity|].
  apply in_app_or in Hy. destruct Hy as [Hy|[->|Hy]].
  - pose proof (sorted_prefix_le l1 x l2 Hs y Hy) as H. unfold due_le in H. lia.
  - lia.
  - exact Hy.
Qed.

(** When the walk reaches an item, every item before it in the list has
    been given all it owed. *)
Lemma walk_earlier_settled l1 :
  forall x l2 rem y b,
    NoDup (map item_id (l1 ++ x :: l2)) ->
    In y l2 ->
    In (y, b) (walk (l1 ++ x :: l2) rem) ->
    outstanding x <= 0 \/ In (x, outstanding x) (walk (l1 ++ x :: l2) rem).
Proof.
  induction l1 as [|z l1 IH]; intros x l2 rem y b Hnd Hy Hin.
  - simpl in *. inversion Hnd as [|? ? Hx Hnd']; subst.
    fold (outstanding x) in *.
    destruct (rem <=? 0) eqn:Er; [contradiction|].
    destruct (outstanding x <=? 0) eqn:Eo; [left; now apply Z.leb_le|].
    right. destruct Hin as [Hin|Hin].
    + injection Hin as -> _. elim Hx. now apply in_map.
    + destruct (rem >=? outstanding x) eqn:Eg; [now left|].
      rewrite Z.sub_diag in Hin. rewrite walk_nonpositive in Hin by lia.
      contradiction.
  - simpl in Hnd. inversion Hnd as [|? ? Hz Hnd']; subst.
    cbn [app walk] in *.
    destruct (rem <=? 0) eqn:Er; [contradiction|].
    destruct (totalDue z - paidAmount z <=? 0) eqn:Eo.
    + eapply IH; eauto.
    + destruct Hin as [Hin|Hin].
      * injection Hin as -> _. elim Hz. apply in_map.
        apply in_or_app. right. now right.
      * destruct (IH x l2 _ y b Hnd' Hy Hin) as [H|H]; [now left|].
        right. now right.
Qed.

(** X3. Oldest obligation first. On a reliable store with unique item
    identifiers, whenever [createRepayment] gives something to an eligible
    item of the loan, every eligible item of that loan with a strictly
    earlier due date has been given all it owed (nothing if it owed
    nothing). *)
Theorem oldest_obligation_first data user w :
  reliable w ->
  NoDup (map item_id (scheduleItems (db w))) ->
  payable (data_loanId data) (db w) ->
  exists r w',
    createRepayment data user w = (Ok r, w')
    /\ forall x y,
         In x (scheduleItems (db w)) -> In y (scheduleItems (db w)) ->
         outstanding_filter (data_loanId data) x = true ->
         outstanding_filter (data_loanId data) y = true ->
         dueDate x < dueDate y ->
         given_to (item_id y) (added_allocations w w') <> 0 ->
         given_to (item_id x) (added_allocations w w')
         = Z.max 0 (outstanding x).
Proof.
  intros Hr Hnd Hp.
  destruct (createRepayment_added data user w Hr Hp) as (Hrun & Hadd & _).
  do 2 eexists. split; [exact Hrun|].
  rewrite Hadd. clear Hadd Hrun.
  set (fetched := findMany_outstanding (data_loanId data) (db w)).
  set (plan := walk fetched (data_amount data)).
  assert (NoDup (map item_id fetched)) as Hfn
    by (apply findMany_outstanding_ids_NoDup, Hnd).
  assert (NoDup (map (fun p => item_id (fst p)) plan)) as Hplan
    by (apply walk_ids_NoDup, Hfn).
  intros x y Hx Hy Hfx Hfy Hlt Hgy.
  rewrite given_to_plan in Hgy |- * by exact Hplan.
  destruct (plan_entry (item_id y) plan) as [q|] eqn:Eq; [|now elim Hgy].
  destruct (plan_entry_row _ _ _ _ _ Hnd Hy Eq) as (Hq & _).
  apply plan_entry_In in Eq. destruct Eq as [Hqin _].
  destruct q as [y' b]. simpl in Hq. subst y'.
  assert (In x fetched) as Hxf by (apply findMany_outstanding_In; auto).
  assert (In y fetched) as Hyf by (apply findMany_outstanding_In; auto).
  destruct (sorted_before fetched x y) as (l1 & l2 & Hsplit & Hy2);
    try assumption.
  { apply orderBy_dueDate_asc_sorted. }
  unfold plan in *. rewrite Hsplit in *.
  destruct (walk_earlier_settled l1 x l2 (data_amount data) y b Hfn Hy2 Hqin)
    as [Hzero|Hfull].
  - destruct (plan_entry (item_id x) _) as [p|] eqn:Ep; [|lia].
    rewrite <- Hsplit in Ep.
    destruct (plan_entry_row _ _ _ _ _ Hnd Hx Ep) as (_ & _ & Hpos & Hle & _).
    unfold outstanding in Hzero. lia.
  - assert (0 < outstanding x) as Hpos.
    { apply walk_In in Hfull. unfold outstanding. lia. }
    destruct (plan_entry (item_id x) _) as [p|] eqn:Ep.
    + apply plan_entry_In in Ep. destruct Ep as [Hpin Hpid].
      assert (p = (x, outstanding x)) as ->.
      { apply (key_unique (fun p => item_id (fst p)) _ p (x, outstanding x)
                 Hplan Hpin Hfull).
        exact Hpid. }
      simpl. lia.
    + unfold plan_entry in Ep.
      pose proof (find_none _ _ Ep _ Hfull) as Hc. simpl in Hc.
      rewrite Nat.eqb_refl in Hc. discriminate.
Qed.

Lemma oldest_obligation_first_witness :
  exists r w',
    createRepayment (cash 1 70) 7 (mkWorld two_pending_db mar_1_2024 None)
    = (Ok r, w')
    /\ given_to 1
         (added_allocations (mkWorld two_pending_db mar_1_2024 None) w')
       = 50.
Proof.
  destruct (oldest_obligation_first (cash 1 70) 7%nat
              (mkWorld two_pending_db mar_1_2024 None))
    as (r & w' & Hrun & Hfirst).
  - reflexivity.
  - simpl. repeat constructor; simpl; intuition discriminate.
  - exists active_loan. repeat split.
  - exists r, w'. split; [exact Hrun|].
    apply (Hfirst (mkItem 1 1 1 jan_1_2024 50 0 PENDING None None)
             (mkItem 2 1 2 feb_1_2024 50 0 PENDING None None)).
    + right. now left.
    + now left.
    + reflexivity.
    + reflexivity.
    + reflexivity.
    + pose proof Hrun as Hc. vm_compute in Hc. injection Hc as _ <-.
      vm_compute. discriminate.
Defined.

(** ** What a payment leaves alone, also when a write fails *)

Lemma only_rows_refl ids t : only_rows ids t t.
Proof. exists (fun x => x). now rewrite map_id. Qed.

Lemma only_rows_trans ids t1 t2 t3 :
  only_rows ids t1 t2 -> only_rows ids t2 t3 -> only_rows ids t1 t3.
Proof.
  intros (g1 & -> & Hid1 & Hout1) (g2 & -> & Hid2 & Hout2).
  exists (fun x => g2 (g1 x)). rewrite map_map. split; [reflexivity|]. split.
  - intros x. now rewrite Hid2, Hid1.
  - intros x Hx. rewrite (Hout1 x Hx). now apply Hout2.
Qed.

Lemma only_rows_weaken ids ids' t t' :
  (forall k, In k ids -> In k ids') -> only_rows ids t t' -> only_rows ids' t t'.
Proof.
  intros Hsub (g & -> & Hid & Hout). exists g. repeat split; auto.
Qed.

Lemma scheduleItem_update_run id p s c w o w' :
  scheduleItem_update id p s c w = (o, w') ->
  loans (db w') = loans (db w)
  /\ repayments (db w') = repayments (db w)
  /\ allocations (db w') = allocations (db w)
  /\ only_rows [id] (scheduleItems (db w)) (scheduleItems (db w')).
Proof.
  unfold scheduleItem_update.
  destruct (has_id item_id id (scheduleItems (db w))).
  - intros H. apply commit_run in H.
    destruct H as [(_ & -> & _)|(_ & -> & _)].
    + repeat split; try reflexivity. simpl.
      exists (fun r => if Nat.eqb (item_id r) id
                       then set_payment p s c r else r).
      split; [reflexivity|]. split.
      * intros x. now destruct (Nat.eqb (item_id x) id).
      * intros x Hx. destruct (Nat.eqb (item_id x) id) eqn:E; [|reflexivity].
        apply Nat.eqb_eq in E. elim Hx. now left.
    + repeat split; try reflexivity. apply only_rows_refl.
  - intros H. injection H as _ <-.
    repeat split; try reflexivity. apply only_rows_refl.
Qed.

Lemma allocate_loop_run rid items :
  forall rem acc w o w',
    allocate_loop rid items rem acc w = (o, w') ->
    loans (db w') = loans (db w)
    /\ repayments (db w') = repayments (db w)
    /\ allocations (db w') = allocations (db w)
    /\ only_rows (map item_id items)
         (scheduleItems (db w)) (scheduleItems (db w')).
Proof.
  induction items as [|x rest IH]; intros rem acc w o w'; simpl.
  - intros H. injection H as _ <-.
    repeat split; try reflexivity. apply only_rows_refl.
  - destruct (rem <=? 0).
    { intros H. injection H as _ <-.
      repeat split; try reflexivity. apply only_rows_refl. }
    destruct (totalDue x - paidAmount x <=? 0).
    { intros H. apply IH in H. destruct H as (H1 & H2 & H3 & H4).
      repeat split; try assumption.
      eapply only_rows_weaken; [|exact H4]. intros k Hk. now right. }
    erewrite bind_ok by apply closedAt_for_run.
    unfold bind at 1.
    destruct (scheduleItem_update _ _ _ _ w) as [o1 w1] eqn:E1.
    apply scheduleItem_update_run in E1.
    destruct E1 as (L1 & R1 & A1 & I1).
    assert (only_rows (item_id x :: map item_id rest)
              (scheduleItems (db w)) (scheduleItems (db w1))) as I1'.
    { eapply only_rows_weaken; [|exact I1].
      intros k [<-|[]]. now left. }
    destruct o1 as [[]|e].
    + intros H. apply IH in H. destruct H as (L2 & R2 & A2 & I2).
      repeat split; try congruence.
      eapply only_rows_trans; [exact I1'|].
      eapply only_rows_weaken; [|exact I2]. intros k Hk. now right.
    + intros H. injection H as _ <-. auto.
Qed.

Lemma allocatePayment_run rid loanId amount w o w' :
  allocatePayment rid loanId amount w = (o, w') ->
  loans (db w') = loans (db w)
  /\ repayments (db w') = repayments (db w)
  /\ (exists news, allocations (db w') = allocations (db w) ++ news)
  /\ only_rows (map item_id (findMany_outstanding loanId (db w)))
       (scheduleItems (db w)) (scheduleItems (db w')).
Proof.
  unfold allocatePayment. erewrite bind_ok by reflexivity.
  unfold bind at 1.
  destruct (allocate_loop _ _ _ _ w) as [o1 w1] eqn:E1.
  apply allocate_loop_run in E1. destruct E1 as (L1 & R1 & A1 & I1).
  destruct o1 as [[|a allocs]|e].
  - intros H. injection H as _ <-. repeat split; try assumption.
    exists []. now rewrite app_nil_r.
  - unfold allocation_createMany. intros H. apply commit_run in H.
    destruct H as [(_ & -> & _)|(_ & -> & _)]; simpl.
    + repeat split; try assumption. eexists. now rewrite A1.
    + repeat split; try assumption. exists []. now rewrite app_nil_r.
  - intros H. injection H as _ <-. repeat split; try assumption.
    exists []. now rewrite app_nil_r.
Qed.

Lemma loan_update_run id s c w o w' :
  loan_update id s c w = (o, w') ->
  loans (db w') = loans (db w)
  \/ loans (db w')
     = update_row loan_id id (set_loan_status s c) (loans (db w)).
Proof.
  unfold loan_update. destruct (has_id loan_id id (loans (db w))).
  - intros H. apply commit_run in H.
    destruct H as [(_ & -> & _)|(_ & -> & _)]; auto.
  - intros H. injection H as _ <-. auto.
Qed.

Lemma checkLoanCompletion_loans loanId w o w' :
  checkLoanCompletion loanId w = (o, w') ->
  loans (db w') = loans (db w)
  \/ loans (db w')
     = update_row loan_id loanId
         (set_loan_status COMPLETED (Some (clock w))) (loans (db w)).
Proof.
  unfold checkLoanCompletion. erewrite bind_ok by reflexivity.
  destruct (Nat.eqb _ 0).
  - erewrite bind_ok by reflexivity. apply loan_update_run.
  - intros H. injection H as _ <-. auto.
Qed.

Lemma repayment_create_run loanId user amount at_ m ref nts w o w' :
  repayment_create loanId user amount at_ m ref nts w = (o, w') ->
  loans (db w') = loans (db w)
  /\ scheduleItems (db w') = scheduleItems (db w)
  /\ allocations (db w') = allocations (db w)
  /\ clock w' = clock w
  /\ (exists news, repayments (db w') = repayments (db w) ++ news).
Proof.
  unfold repayment_create, commit.
  destruct (faults w) as [[|n]|]; intros H; injection H as _ <-; simpl;
    repeat split; try reflexivity;
    solve [eexists; reflexivity | exists []; now rewrite app_nil_r].
Qed.

Lemma frame_other_loans loanId (d d' : Db) :
  NoDup (map item_id (scheduleItems d)) ->
  (loans d' = loans d
   \/ exists f, (forall l, loan_id (f l) = loan_id l)
                /\ loans d' = update_row loan_id loanId f (loans d)) ->
  only_rows (map item_id (findMany_outstanding loanId d))
    (scheduleItems d) (scheduleItems d') ->
  Forall2 (fun l l' => loan_id l' = loan_id l
                       /\ (loan_id l <> loanId -> l' = l))
    (loans d) (loans d')
  /\ Forall2 (fun x y => item_id y = item_id x
                         /\ (item_loanId x <> loanId -> y = x))
       (scheduleItems d) (scheduleItems d').
Proof.
  intros Hnd Hl (g & -> & Hid & Hout). split.
  - destruct Hl as [->|(f & Hf & ->)].
    + rewrite <- (map_id (loans d)) at 2. apply Forall2_map_self. auto.
    + apply Forall2_map_self. intros l _.
      destruct (Nat.eqb (loan_id l) loanId) eqn:E.
      * split; [apply Hf|]. apply Nat.eqb_eq in E. intros H. now elim H.
      * auto.
  - apply Forall2_map_self. intros x Hx.
    split; [apply (f_equal (fun c => fst (fst (fst (fst (fst c))))) (Hid x))|].
    intros Hloan. apply Hout. intros Hin. apply in_map_iff in Hin.
    destruct Hin as (z & Hz & Hzin).
    apply findMany_outstanding_In in Hzin. destruct Hzin as [Hzin Hf].
    assert (z = x) as -> by (eapply key_unique; eauto).
    unfold outstanding_filter in Hf.
    apply andb_true_iff in Hf. destruct Hf as [Hf _].
    apply andb_true_iff in Hf. destruct Hf as [Hf _].
    apply Nat.eqb_eq in Hf. contradiction.
Qed.

Lemma commit_clock f w o w' : commit f w = (o, w') -> clock w' = clock w.
Proof.
  intros H. apply commit_run in H.
  destruct H as [(_ & _ & H)|(_ & -> & _)]; auto.
Qed.

Lemma scheduleItem_update_clock id p s c w o w' :
  scheduleItem_update id p s c w = (o, w') -> clock w' = clock w.
Proof.
  unfold scheduleItem_update.
  destruct (has_id item_id id (scheduleItems (db w)));
    [apply commit_clock|intros H; now injection H as _ <-].
Qed.

Lemma allocate_loop_clock rid items :
  forall rem acc w o w',
    allocate_loop rid items rem acc w = (o, w') -> clock w' = clock w.
Proof.
  induction items as [|x rest IH]; intros rem acc w o w'; simpl.
  - intros H. now injection H as _ <-.
  - destruct (rem <=? 0); [intros H; now injection H as _ <-|].
    destruct (totalDue x - paidAmount x <=? 0); [apply IH|].
    erewrite bind_ok by apply closedAt_for_run.
    unfold bind at 1.
    destruct (scheduleItem_update _ _ _ _ w) as [o1 w1] eqn:E1.
    apply scheduleItem_update_clock in E1.
    destruct o1 as [[]|e].
    + intros H. apply IH in H. congruence.
    + intros H. injection H as _ <-. exact E1.
Qed.

Lemma allocatePayment_clock rid loanId amount w o w' :
  allocatePayment rid loanId amount w = (o, w') -> clock w' = clock w.
Proof.
  unfold allocatePayment. erewrite bind_ok by reflexivity.
  unfold bind at 1.
  destruct (allocate_loop _ _ _ _ w) as [o1 w1] eqn:E1.
  apply allocate_loop_clock in E1.
  destruct o1 as [[|a allocs]|e].
  - intros H. injection H as _ <-. exact E1.
  - unfold allocation_createMany. intros H. apply commit_clock in H.
    congruence.
  - intros H. injection H as _ <-. exact E1.
Qed.

Lemma createRepayment_run data user w o w' :
  createRepayment data user w = (o, w') ->
  (exists news, repayments (db w') = repayments (db w) ++ news)
  /\ (exists news, allocations (db w') = allocations (db w) ++ news)
  /\ (loans (db w') = loans (db w)
      \/ loans (db w')
         = update_row loan_id (data_loanId data)
             (set_loan_status COMPLETED (Some (clock w))) (loans (db w)))
  /\ only_rows (map item_id (findMany_outstanding (data_loanId data) (db w)))
       (scheduleItems (db w)) (scheduleItems (db w')).
Proof.
  intros Hrun.
  assert (exists news : list Repayment,
             repayments (db w) = repayments (db w) ++ news) as Hr0
    by (exists []; now rewrite app_nil_r).
  assert (exists news : list RepaymentAllocation,
             allocations (db w) = allocations (db w) ++ news) as Ha0
    by (exists []; now rewrite app_nil_r).
  unfold createRepayment in Hrun.
  erewrite bind_ok in Hrun by reflexivity.
  destruct (find _ (loans (db w))) as [l|];
    [|injection Hrun as _ <-; auto using only_rows_refl].
  destruct (truthy (loan_deletedAt l));
    [injection Hrun as _ <-; auto using only_rows_refl|].
  destruct (negb (LoanStatus_eqb (loan_status l) ACTIVE));
    [injection Hrun as _ <-; auto using only_rows_refl|].
  erewrite bind_ok in Hrun by reflexivity.
  unfold bind in Hrun at 1.
  destruct (repayment_create _ _ _ _ _ _ _ w) as [o1 w1] eqn:E1.
  apply repayment_create_run in E1.
  destruct E1 as (L1 & I1 & A1 & C1 & HR1).
  destruct o1 as [r1|e].
  2:{ injection Hrun as _ <-. repeat split; auto.
      - now rewrite A1.
      - rewrite I1. apply only_rows_refl. }
  unfold bind in Hrun at 1.
  destruct (allocatePayment _ _ _ w1) as [o2 w2] eqn:E2.
  pose proof (allocatePayment_clock _ _ _ _ _ _ E2) as C2.
  apply allocatePayment_run in E2.
  destruct E2 as (L2 & R2 & (n2 & A2) & I2).
  assert (only_rows (map item_id
                       (findMany_outstanding (data_loanId data) (db w)))
            (scheduleItems (db w)) (scheduleItems (db w2))) as I2'.
  { unfold findMany_outstanding in *. now rewrite I1 in I2. }
  destruct o2 as [[]|e].
  2:{ injection Hrun as _ <-. repeat split; auto.
      - now rewrite R2.
      - exists n2. now rewrite A2, A1.
      - left. congruence. }
  unfold bind in Hrun at 1.
  destruct (checkLoanCompletion _ w2) as [o3 w3] eqn:E3.
  pose proof (checkLoanCompletion_frame _ _ _ _ E3) as (I3 & R3 & A3).
  pose proof (checkLoanCompletion_loans _ _ _ _ E3) as L3.
  assert (db w' = db w3) as ->
    by (destruct o3 as [[]|e]; injection Hrun as _ <-; reflexivity).
  repeat split.
  - now rewrite R3, R2.
  - exists n2. now rewrite A3, A2, A1.
  - rewrite C2, C1 in L3. destruct L3 as [L3|L3].
    + left. congruence.
    + right. rewrite L3, L2, L1. reflexivity.
  - now rewrite I3.
Qed.

(** X4. What a payment never touches, whether the store serves every
    write or rejects one, and whether the call returns or throws: with
    unique item identifiers, [createRepayment] keeps every repayment row and
    every allocation row that was there (new rows only come after them),
    leaves every loan other than the one paid on as it was, keeps every
    schedule item in its place under its identifier, and leaves the items of
    all other loans unchanged. *)
Theorem payment_frame data user w o w' :
  NoDup (map item_id (scheduleItems (db w))) ->
  createRepayment data user w = (o, w') ->
  (exists news, repayments (db w') = repayments (db w) ++ news)
  /\ (exists news, allocations (db w') = allocations (db w) ++ news)
  /\ Forall2 (fun l l' => loan_id l' = loan_id l
                          /\ (loan_id l <> data_loanId data -> l' = l))
       (loans (db w)) (loans (db w'))
  /\ Forall2 (fun x y => item_id y = item_id x
                         /\ (item_loanId x <> data_loanId data -> y = x))
       (scheduleItems (db w)) (scheduleItems (db w')).
Proof.
  intros Hnd Hrun.
  destruct (createRepayment_run data user w o w' Hrun) as (HR & HA & HL & HI).
  split; [exact HR|]. split; [exact HA|].
  apply frame_other_loans; try assumption.
  destruct HL as [HL|HL]; [now left|].
  right. eexists. split; [|exact HL]. reflexivity.
Qed.

Lemma payment_frame_witness :
  let w := mkWorld two_pending_db mar_1_2024 (Some 3%nat) in
  exists news,
    allocations (db (snd (createRepayment (cash 1 70) 7 w)))
    = allocations (db w) ++ news.
Proof.
  intros w.
  destruct (payment_frame (cash 1 70) 7%nat w
              (fst (createRepayment (cash 1 70) 7 w))
              (snd (createRepayment (cash 1 70) 7 w)))
    as (_ & Hal & _).
  - simpl. repeat constructor; simpl; intuition discriminate.
  - now destruct (createRepayment (cash 1 70) 7 w).
  - exact Hal.
Defined.

(** ** What a reversal leaves alone, also when a write fails *)

Lemma reverse_loop_run allocs :
  forall w o w',
    reverse_loop allocs w = (o, w') ->
    loans (db w') = loans (db w)
    /\ repayments (db w') = repayments (db w)
    /\ allocations (db w') = allocations (db w)
    /\ clock w' = clock w
    /\ only_rows (map scheduleItemId allocs)
         (scheduleItems (db w)) (scheduleItems (db w')).
Proof.
  induction allocs as [|a allocs IH]; intros w o w'; simpl.
  - intros H. injection H as _ <-.
    repeat split; try reflexivity. apply only_rows_refl.
  - erewrite bind_ok by reflexivity.
    destruct (find _ (scheduleItems (db w))) as [it|].
    + unfold bind at 1.
      destruct (scheduleItem_update _ _ _ _ w) as [o1 w1] eqn:E1.
      pose proof (scheduleItem_update_clock _ _ _ _ _ _ _ E1) as C1.
      apply scheduleItem_update_run in E1.
      destruct E1 as (L1 & R1 & A1 & I1).
      assert (only_rows (scheduleItemId a :: map scheduleItemId allocs)
                (scheduleItems (db w)) (scheduleItems (db w1))) as I1'.
      { eapply only_rows_weaken; [|exact I1]. intros k [<-|[]]. now left. }
      destruct o1 as [[]|e].
      * intros H. apply IH in H. destruct H as (L2 & R2 & A2 & C2 & I2).
        repeat split; try congruence.
        eapply only_rows_trans; [exact I1'|].
        eapply only_rows_weaken; [|exact I2]. intros k Hk. now right.
      * intros H. injection H as _ <-. auto.
    + intros H. apply IH in H. destruct H as (L2 & R2 & A2 & C2 & I2).
      repeat split; try assumption.
      eapply only_rows_weaken; [|exact I2]. intros k Hk. now right.
Qed.

Lemma repayment_softDelete_run id at_ w o w' :
  repayment_softDelete id at_ w = (o, w') ->
  loans (db w') = loans (db w)
  /\ scheduleItems (db w') = scheduleItems (db w)
  /\ allocations (db w') = allocations (db w)
  /\ (repayments (db w') = repayments (db w)
      \/ repayments (db w')
         = update_row rep_id id (set_rep_deletedAt (Some at_))
             (repayments (db w))).
Proof.
  unfold repayment_softDelete.
  destruct (has_id rep_id id (repayments (db w))).
  - intros H. apply commit_run in H.
    destruct H as [(_ & -> & _)|(_ & -> & _)]; simpl; auto.
  - intros H. injection H as _ <-. auto.
Qed.

Lemma branch_guard_frame role b loan w o w' :
  branch_guard role b loan w = (o, w') -> w' = w.
Proof.
  rewrite branch_guard_run. destruct (branch_ok role b loan);
    intros H; now injection H as _ <-.
Qed.

Lemma deleteRepayment_run id role b w o w' :
  deleteRepayment id role b w = (o, w') ->
  w' = w
  \/ exists r,
       find (fun x => Nat.eqb (rep_id x) id) (repayments (db w)) = Some r
       /\ may_delete role b r w = true
       /\ allocations (db w') = allocations (db w)
       /\ (repayments (db w') = repayments (db w)
           \/ repayments (db w')
              = update_row rep_id id (set_rep_deletedAt (Some (clock w)))
                  (repayments (db w)))
       /\ (loans (db w') = loans (db w)
           \/ loans (db w')
              = update_row loan_id (rep_loanId r)
                  (set_loan_status ACTIVE None) (loans (db w)))
       /\ only_rows (map scheduleItemId (allocations_of id (db w)))
            (scheduleItems (db w)) (scheduleItems (db w')).
Proof.
  intros Hrun. unfold deleteRepayment in Hrun.
  erewrite bind_ok in Hrun by reflexivity.
  destruct (find _ (repayments (db w))) as [r|] eqn:Hf;
    [|left; now injection Hrun as _ <-].
  destruct (truthy (rep_deletedAt r)) eqn:Hd;
    [left; now injection Hrun as _ <-|].
  erewrite bind_ok in Hrun by reflexivity.
  erewrite bind_ok in Hrun by reflexivity.
  destruct (Role_eqb role CREDIT_OFFICER) eqn:Hc;
    [left; now injection Hrun as _ <-|].
  unfold bind in Hrun at 1. rewrite branch_guard_run in Hrun.
  destruct (branch_ok role b _) eqn:Hb;
    [|left; now injection Hrun as _ <-].
  erewrite bind_ok in Hrun by reflexivity.
  destruct (clock w - createdAt r >? day_ms) eqn:Ht;
    [left; now injection Hrun as _ <-|].
  right. exists r. split; [reflexivity|]. split.
  { unfold may_delete. now rewrite Hd, Hc, Hb, Ht. }
  unfold bind in Hrun at 1.
  destruct (reverse_loop _ w) as [o1 w1] eqn:E1.
  apply reverse_loop_run in E1. destruct E1 as (L1 & R1 & A1 & C1 & I1).
  destruct o1 as [[]|e].
  2:{ injection Hrun as _ <-.
      split; [exact A1|]. split; [now left|]. split; [now left|exact I1]. }
  erewrite bind_ok in Hrun by reflexivity.
  unfold bind in Hrun at 1.
  destruct (repayment_softDelete _ _ w1) as [o2 w2] eqn:E2.
  apply repayment_softDelete_run in E2. destruct E2 as (L2 & I2 & A2 & R2).
  rewrite C1, R1 in R2. rewrite <- I2 in I1.
  destruct o2 as [[]|e].
  2:{ injection Hrun as _ <-.
      split; [congruence|]. split; [exact R2|].
      split; [left; congruence|exact I1]. }
  erewrite bind_ok in Hrun by reflexivity.
  destruct (Nat.ltb 0 _).
  - pose proof (loan_update_frame _ _ _ _ _ _ Hrun) as (I3 & R3 & A3).
    apply loan_update_run in Hrun. rewrite L2, L1 in Hrun.
    rewrite <- R3 in R2. rewrite <- I3 in I1.
    split; [congruence|]. split; [exact R2|]. split; [exact Hrun|exact I1].
  - injection Hrun as _ <-.
    split; [congruence|]. split; [exact R2|].
    split; [left; congruence|exact I1].
Qed.

(** X5. The engine never re-plans the schedule. Whatever the arguments,
    on any store (reliable or not) and whether the call returns or throws,
    [createRepayment] and [deleteRepayment] leave the schedule-item table
    with the same rows in the same order, each with its identifier, loan,
    sequence number, due date, totalDue and deletedAt as before: only
    paidAmount, status and closedAt of an item are ever written, and no item
    is created or removed. *)
Theorem schedule_is_fixed w :
  (forall data user,
      map fixed_columns (scheduleItems (db (snd (createRepayment data user w))))
      = map fixed_columns (scheduleItems (db w)))
  /\ (forall id role b,
         map fixed_columns
           (scheduleItems (db (snd (deleteRepayment id role b w))))
         = map fixed_columns (scheduleItems (db w))).
Proof.
  assert (forall ids t t', only_rows ids t t' ->
                           map fixed_columns t' = map fixed_columns t) as Hfix.
  { intros ids t t' (g & -> & Hg & _). rewrite map_map.
    apply map_ext. exact Hg. }
  split.
  - intros data user.
    destruct (createRepayment data user w) as [o w'] eqn:E.
    apply createRepayment_run in E. destruct E as (_ & _ & _ & HI).
    eapply Hfix. exact HI.
  - intros id role b.
    destruct (deleteRepayment id role b w) as [o w'] eqn:E.
    apply deleteRepayment_run in E.
    destruct E as [->|(r & _ & _ & _ & _ & _ & HI)]; [reflexivity|].
    eapply Hfix. exact HI.
Qed.

(** X6. A reversal is a soft delete. On any store and whether the call
    returns or throws, [deleteRepayment] leaves the allocation table exactly
    as it was, keeps every repayment row in its place (at most, the row with
    the given identifier gets its deletedAt stamped with the current time;
    amount, loan, payer and dates of every row stay), and changes no loan
    other than the repayment's own, which it can only set to ACTIVE with
    closedAt cleared. *)
Theorem reversal_is_soft id role b w :
  let w' := snd (deleteRepayment id role b w) in
  allocations (db w') = allocations (db w)
  /\ Forall2 (fun r r' =>
                r' = r
                \/ (rep_id r = id
                    /\ r' = set_rep_deletedAt (Some (clock w)) r))
       (repayments (db w)) (repayments (db w'))
  /\ Forall2 (fun l l' =>
                l' = l
                \/ (l' = set_loan_status ACTIVE None l
                    /\ exists r,
                         find (fun x => Nat.eqb (rep_id x) id)
                           (repayments (db w)) = Some r
                         /\ loan_id l = rep_loanId r))
       (loans (db w)) (loans (db w')).
Proof.
  intros w'. unfold w'. clear w'.
  assert (forall d, Forall2 (fun r r' : Repayment =>
                               r' = r
                               \/ (rep_id r = id
                                   /\ r' = set_rep_deletedAt
                                             (Some (clock w)) r))
                      (repayments d) (repayments d)) as Hr0.
  { intros d. rewrite <- (map_id (repayments d)) at 2.
    apply Forall2_map_self. auto. }
  assert (forall P : Loan -> Loan -> Prop,
             (forall l, P l l) -> forall d, Forall2 P (loans d) (loans d))
    as Hl0.
  { intros P HP d. rewrite <- (map_id (loans d)) at 2.
    apply Forall2_map_self. auto. }
  destruct (deleteRepayment id role b w) as [o w'] eqn:E. simpl.
  apply deleteRepayment_run in E.
  destruct E as [->|(r & Hf & _ & HA & HR & HL & _)].
  - split; [reflexivity|]. split; [apply Hr0|]. apply Hl0. auto.
  - split; [exact HA|]. split.
    + destruct HR as [->| ->]; [apply Hr0|].
      apply Forall2_map_self. intros x _.
      destruct (Nat.eqb (rep_id x) id) eqn:Ex; [|now left].
      right. apply Nat.eqb_eq in Ex. auto.
    + destruct HL as [->| ->]; [apply Hl0; auto|].
      apply Forall2_map_self. intros l _.
      destruct (Nat.eqb (loan_id l) (rep_loanId r)) eqn:El; [|now left].
      right. apply Nat.eqb_eq in El. split; [reflexivity|].
      exists r. auto.
Qed.

(** ** Refused reversals *)



(** X8. A repayment is reversed at most once. On a reliable store with
    unique item identifiers, once [deleteRepayment] has passed its checks
    for a repayment, every later [deleteRepayment] of the same identifier,
    by any caller, at any time and on any store holding the resulting
    tables, throws "Repayment not found" and changes nothing. *)
Theorem reversal_only_once id role b w r :
  reliable w ->
  NoDup (map item_id (scheduleItems (db w))) ->
  find (fun x => Nat.eqb (rep_id x) id) (repayments (db w)) = Some r ->
  may_delete role b r w = true ->
  forall role' b' w2,
    db w2 = db (snd (deleteRepayment id role b w)) ->
    deleteRepayment id role' b' w2 = (Throw "Repayment not found", w2).
Proof.
  intros Hr Hnd Hf Hg role' b' w2 Hdb.
  destruct (deleteRepayment_reliable id role b w r Hr Hnd Hf Hg)
    as (o & Hrun & _).
  rewrite Hrun in Hdb. cbn [snd db set_db] in Hdb.
  assert (find (fun x => Nat.eqb (rep_id x) id) (repayments (db w2))
          = Some (set_rep_deletedAt (Some (clock w)) r)) as Hf2.
  { rewrite Hdb. unfold delete_db, reopen_db.
    destruct (Nat.ltb _ _); cbn [repayments set_loans set_repayments];
      rewrite find_update_row by reflexivity; now rewrite Hf. }
  unfold deleteRepayment. erewrite bind_ok by reflexivity.
  now rewrite Hf2.
Qed.

Lemma reversal_only_once_witness :
  let w := mkWorld defaulted_db (mar_1_2024 + hour_ms) None in
  deleteRepayment 1 ADMIN None (snd (deleteRepayment 1 ADMIN None w))
  = (Throw "Repayment not found", snd (deleteRepayment 1 ADMIN None w)).
Proof.
  intros w.
  apply (reversal_only_once 1%nat ADMIN None w
           (mkRepayment 1 1 7 20 mar_1_2024 CASH None None mar_1_2024 None)).
  - reflexivity.
  - simpl. repeat constructor; simpl; intuition.
  - reflexivity.
  - reflexivity.
  - reflexivity.
Defined.

(** ** What a reversal takes back *)

Lemma unpay_totalDue a x : totalDue (unpay a x) = totalDue x.
Proof. unfold unpay. now destruct (Nat.eqb _ _). Qed.

Lemma unpay_fixed a x : fixed_columns (unpay a x) = fixed_columns x.
Proof. unfold unpay. now destruct (Nat.eqb _ _). Qed.

Lemma unpay_row_fixed allocs :
  forall x, fixed_columns (unpay_row allocs x) = fixed_columns x.
Proof.
  induction allocs as [|a allocs IH]; intros x; [reflexivity|].
  change (unpay_row (a :: allocs) x) with (unpay_row allocs (unpay a x)).
  now rewrite IH, unpay_fixed.
Qed.

Lemma unpay_row_status allocs :
  forall x,
    (existsb (fun a => Nat.eqb (scheduleItemId a) (item_id x)) allocs = false ->
     unpay_row allocs x = x)
    /\ (existsb (fun a => Nat.eqb (scheduleItemId a) (item_id x)) allocs = true ->
        item_status (unpay_row allocs x)
        = reversed_status (paidAmount (unpay_row allocs x)) (totalDue x)
        /\ item_closedAt (unpay_row allocs x) = None).
Proof.
  induction allocs as [|a allocs IH]; intros x.
  - split; [reflexivity|discriminate].
  - change (unpay_row (a :: allocs) x) with (unpay_row allocs (unpay a x)).
    destruct (IH (unpay a x)) as [IHn IHy].
    rewrite unpay_id, unpay_totalDue in *.
    cbn [existsb].
    destruct (Nat.eqb (scheduleItemId a) (item_id x)) eqn:E; cbn [orb].
    + split; [discriminate|]. intros _.
      destruct (existsb (fun a0 => Nat.eqb (scheduleItemId a0) (item_id x))
                  allocs) eqn:Ex.
      * now apply IHy.
      * rewrite IHn by reflexivity. unfold unpay.
        rewrite Nat.eqb_sym, E. split; reflexivity.
    + assert (unpay a x = x) as Hx
        by (unfold unpay; now rewrite Nat.eqb_sym, E).
      rewrite Hx in *. split; assumption.
Qed.

Lemma reversed_status_not_overdue p t : reversed_status p t <> OVERDUE.
Proof.
  unfold reversed_status.
  destruct (p <=? 0); [discriminate|]. destruct (p <? t); discriminate.
Qed.

(** X9. What a reversal takes back. On a reliable store with unique item
    identifiers, when [deleteRepayment] has passed its checks, the item
    table keeps its rows in place and every item's paidAmount has gone down
    by exactly what the allocations of that repayment had given to it. An
    item holding no allocation of the repayment is unchanged in every
    column. An item holding one has its closedAt cleared and its status
    recomputed from the new paid amount: PENDING when nothing is left,
    PARTIAL below totalDue, PAID otherwise, and never OVERDUE. *)
Theorem reversal_effect_on_items id role b w r :
  reliable w ->
  NoDup (map item_id (scheduleItems (db w))) ->
  find (fun x => Nat.eqb (rep_id x) id) (repayments (db w)) = Some r ->
  may_delete role b r w = true ->
  Forall2
    (fun x y =>
       fixed_columns y = fixed_columns x
       /\ paidAmount y
          = paidAmount x - given_to (item_id x) (allocations_of id (db w))
       /\ (touched_by id (db w) x = false -> y = x)
       /\ (touched_by id (db w) x = true ->
           item_closedAt y = None
           /\ item_status y <> OVERDUE
           /\ (item_status y = PENDING <-> paidAmount y <= 0)
           /\ (item_status y = PAID <->
               0 < paidAmount y /\ totalDue y <= paidAmount y)))
    (scheduleItems (db w))
    (scheduleItems (db (snd (deleteRepayment id role b w)))).
Proof.
  intros Hr Hnd Hf Hg.
  destruct (deleteRepayment_reliable id role b w r Hr Hnd Hf Hg)
    as (o & -> & _).
  cbn [snd db set_db]. unfold delete_db.
  rewrite reopen_db_scheduleItems.
  cbn [scheduleItems set_repayments set_scheduleItems].
  rewrite reverse_items_rows. apply Forall2_map_self. intros x Hx.
  destruct (unpay_row_amounts (allocations_of id (db w)) x) as [Ht Hp].
  destruct (unpay_row_status (allocations_of id (db w)) x) as [Hn Hy].
  pose proof (unpay_row_fixed (allocations_of id (db w)) x) as Hfix.
  split; [exact Hfix|]. split; [exact Hp|]. unfold touched_by.
  split; [exact Hn|]. intros Ht'. destruct (Hy Ht') as [Hs Hc].
  split; [exact Hc|]. rewrite Hs.
  assert (totalDue (unpay_row (allocations_of id (db w)) x) = totalDue x)
    as -> by exact Ht.
  split; [apply reversed_status_not_overdue|].
  unfold reversed_status.
  destruct (_ <=? 0) eqn:E1.
  - apply Z.leb_le in E1. split; split; try tauto; try discriminate; lia.
  - apply Z.leb_gt in E1. destruct (_ <? totalDue x) eqn:E2.
    + apply Z.ltb_lt in E2. split; split; try discriminate; lia.
    + apply Z.ltb_ge in E2. split; split; try discriminate; try lia; auto.
Qed.

Lemma reversal_effect_on_items_witness :
  map paidAmount
    (scheduleItems
       (db (snd (deleteRepayment 1 ADMIN None
                   (mkWorld defaulted_db (mar_1_2024 + hour_ms) None)))))
  = [0].
Proof.
  pose proof (reversal_effect_on_items 1%nat ADMIN None
                (mkWorld defaulted_db (mar_1_2024 + hour_ms) None)
                (mkRepayment 1 1 7 20 mar_1_2024 CASH None None mar_1_2024 None)
                eq_refl) as H.
  assert (NoDup (map item_id (scheduleItems defaulted_db))) as Hnd
    by (simpl; repeat constructor; simpl; intuition).
  specialize (H Hnd eq_refl eq_refl).
  remember (scheduleItems
              (db (snd (deleteRepayment 1 ADMIN None
                          (mkWorld defaulted_db (mar_1_2024 + hour_ms)
                             None))))) as t' eqn:Et.
  cbn [scheduleItems db defaulted_db] in H.
  inversion H as [|x y l l' (_ & Hp & _) Hrest Hl Hl']. subst.
  inversion Hrest. subst. cbn [map]. rewrite Hp. reflexivity.
Defined.

(** ** A completed loan takes no further payment *)

(** X10. After a payment on a reliable store, the loan accepts a further
    payment exactly when an unpaid item is left. If the payment has left no
    non-deleted item unpaid (the loan is COMPLETED), every later
    [createRepayment] on that loan, whatever its amount and on any store
    holding the resulting tables, throws "Can only make payments on active
    loans" and changes nothing; if an unpaid item is left, the loan is
    still payable. *)
Theorem completed_loan_takes_no_payment data user w :
  reliable w ->
  payable (data_loanId data) (db w) ->
  let w1 := snd (createRepayment data user w) in
  (count_notPaid (data_loanId data) (db w1) = 0%nat ->
   forall data' user' w2,
     data_loanId data' = data_loanId data -> db w2 = db w1 ->
     createRepayment data' user' w2
     = (Throw "Can only make payments on active loans", w2))
  /\ (count_notPaid (data_loanId data) (db w1) <> 0%nat ->
      payable (data_loanId data) (db w1)).
Proof.
  intros Hr Hp w1. unfold w1. clear w1.
  rewrite createRepayment_reliable by assumption. cbn [snd db set_db].
  destruct Hp as (l & Hf & Hdel & Hst).
  unfold create_db. set (d1 := allocate_db _ _ _ _ _).
  assert (loans d1 = loans (db w)) as Hl by reflexivity.
  assert (count_notPaid (data_loanId data)
            (complete_db (data_loanId data) (clock w) d1)
          = count_notPaid (data_loanId data) d1) as ->.
  { unfold complete_db, count_notPaid. now destruct (Nat.eqb _ 0). }
  unfold complete_db. split.
  - intros Hc data' user' w2 HL Hdb. rewrite Hc in Hdb.
    cbn [Nat.eqb] in Hdb.
    unfold createRepayment. erewrite bind_ok by reflexivity.
    unfold loan_findUnique, query. cbn [fst].
    rewrite Hdb, HL. cbn [loans set_loans].
    rewrite find_update_row by reflexivity. rewrite Hl, Hf.
    cbn [option_map set_loan_status loan_deletedAt loan_status].
    rewrite Hdel. reflexivity.
  - intros Hc. apply Nat.eqb_neq in Hc. rewrite Hc.
    exists l. rewrite Hl. auto.
Qed.

Lemma completed_loan_takes_no_payment_witness :
  let w1 := snd (createRepayment (cash 1 80) 7
                   (mkWorld one_pending_db mar_1_2024 None)) in
  createRepayment (cash 1 10) 7 w1
  = (Throw "Can only make payments on active loans", w1).
Proof.
  intros w1.
  apply (proj1 (completed_loan_takes_no_payment (cash 1 80) 7%nat
                  (mkWorld one_pending_db mar_1_2024 None) eq_refl
                  (ex_intro _ active_loan
                     (conj eq_refl (conj eq_refl eq_refl))))).
  - reflexivity.
  - reflexivity.
  - reflexivity.
Defined.

(** ** Exact books *)

Lemma create_db_active_sum data user now d k :
  allocations_linked d ->
  active_sum (create_db data user now d) k
  = active_sum d k
    + given_to k
        (map (to_alloc (fresh_id (repayments d)))
           (walk (findMany_outstanding (data_loanId data) d)
              (data_amount data))).
Proof.
  intros Hfk.
  destruct (create_db_tables data user now d) as (Hreps & Hal & _).
  set (r := new_repayment data user now d) in *.
  set (plan := walk _ _) in *.
  set (d' := create_db data user now d) in *.
  change (fresh_id (repayments d)) with (rep_id r).
  assert (forall a, In a (allocations d) -> active d' a = active d a) as Hold.
  { intros a Ha. unfold active. rewrite Hreps, find_app_first.
    destruct (has_id_find rep_id _ _ (Hfk a Ha)) as (x & ->). reflexivity. }
  assert (forall a, In a (map (to_alloc (rep_id r)) plan) ->
                    active d' a = true) as Hnew.
  { intros a Ha. apply in_map_iff in Ha. destruct Ha as (p & <- & _).
    unfold active. rewrite Hreps, find_app_first. cbn [to_alloc repaymentId].
    change (rep_id r) with (fresh_id (repayments d)).
    rewrite find_fresh_id. simpl. now rewrite Nat.eqb_refl. }
  unfold active_sum, given_to. rewrite Hal, filter_app, map_app, sumZ_app.
  f_equal.
  - f_equal. f_equal. apply filter_ext_in. intros a Ha.
    now rewrite (Hold a Ha).
  - f_equal. f_equal. apply filter_ext_in. intros a Ha.
    rewrite (Hnew a Ha). apply andb_true_r.
Qed.

Lemma delete_db_active_sum id now d r k :
  find (fun x => Nat.eqb (rep_id x) id) (repayments d) = Some r ->
  rep_deletedAt r = None ->
  active_sum (delete_db id (rep_loanId r) now d) k
  = active_sum d k - given_to k (allocations_of id d).
Proof.
  intros Hf Hlive.
  set (d' := delete_db id (rep_loanId r) now d).
  assert (repayments d'
          = update_row rep_id id (set_rep_deletedAt (Some now)) (repayments d)
          /\ allocations d' = allocations d) as (Hreps & Hal).
  { unfold d', delete_db, reopen_db. destruct (Nat.ltb _ _); cbn; auto. }
  assert (forall a, active d' a
                    = active d a && negb (Nat.eqb (repaymentId a) id)) as Hact.
  { intros a. unfold active. rewrite Hreps.
    rewrite find_update_row_any by reflexivity.
    destruct (find (fun x => Nat.eqb (rep_id x) (repaymentId a))
                (repayments d)) as [x|] eqn:Ex; [|reflexivity].
    apply find_some in Ex. destruct Ex as [_ Ex]. apply Nat.eqb_eq in Ex.
    simpl. rewrite Ex.
    destruct (Nat.eqb (repaymentId a) id); simpl;
      [now rewrite andb_false_r|now rewrite andb_true_r]. }
  assert (forall a, Nat.eqb (repaymentId a) id = true -> active d a = true)
    as Hmine.
  { intros a Ha. apply Nat.eqb_eq in Ha. unfold active.
    now rewrite Ha, Hf, Hlive. }
  assert (active_sum d k = given_to k (allocations_of id d) + active_sum d' k);
    [|lia].
  unfold active_sum, given_to, allocations_of. rewrite Hal.
  rewrite (sum_filter_split _ (fun a => Nat.eqb (repaymentId a) id)).
  f_equal.
  - f_equal. f_equal.
    rewrite filter_twice. apply filter_ext. intros a.
    destruct (Nat.eqb (repaymentId a) id) eqn:E.
    + rewrite (Hmine a E). now rewrite !andb_true_r.
    + now rewrite andb_false_r.
  - f_equal. f_equal. apply filter_ext. intros a.
    rewrite Hact. now rewrite andb_assoc.
Qed.

Lemma after_call_books now c d :
  ledger_ok d -> books_exact d -> books_exact (after_call now c d).
Proof.
  intros Hok Hex. pose proof (ledger_ids d Hok) as Hnd.
  destruct c as [data user|id role b]; simpl.
  - destruct (payable_dec (data_loanId data) d) as [Hp|Hn].
    + rewrite createRepayment_reliable by (try reflexivity; exact Hp).
      cbn [snd db set_db clock]. intros i Hi.
      destruct (create_db_tables data user now d) as (_ & _ & Hit & _).
      rewrite Hit in Hi. apply in_map_iff in Hi.
      destruct Hi as (x & <- & Hx). rewrite settle_row_id.
      rewrite create_db_active_sum by apply (ledger_linked d Hok).
      set (plan := walk _ _).
      assert (NoDup (map (fun p => item_id (fst p)) plan)) as Hplan
        by (apply walk_ids_NoDup, findMany_outstanding_ids_NoDup, Hnd).
      rewrite given_to_plan, settle_row_entry by exact Hplan.
      specialize (Hex x Hx).
      destruct (plan_entry (item_id x) plan) as [p|] eqn:Ep.
      * destruct (plan_entry_row _ _ _ _ _ Hnd Hx Ep) as (Hfst & _).
        unfold settle. simpl. rewrite Hfst. lia.
      * lia.
    + destruct (createRepayment_rejected data user (mkWorld d now None) Hn)
        as (e & -> & _).
      exact Hex.
  - destruct (find (fun x => Nat.eqb (rep_id x) id) (repayments d))
      as [r|] eqn:Hf.
    + destruct (may_delete role b r (mkWorld d now None)) eqn:Hg.
      * destruct (deleteRepayment_reliable id role b (mkWorld d now None) r)
          as (o & -> & _); try assumption; try reflexivity.
        cbn [snd db set_db clock]. intros i Hi.
        assert (rep_deletedAt r = None) as Hlive.
        { unfold may_delete in Hg.
          destruct (rep_deletedAt r); [discriminate|reflexivity]. }
        rewrite delete_db_active_sum by assumption.
        unfold delete_db in Hi. rewrite reopen_db_scheduleItems in Hi.
        cbn [scheduleItems set_repayments set_scheduleItems] in Hi.
        rewrite reverse_items_rows in Hi. apply in_map_iff in Hi.
        destruct Hi as (x & <- & Hx). rewrite unpay_row_id.
        destruct (unpay_row_amounts (allocations_of id d) x) as [_ ->].
        fold (given_to (item_id x) (allocations_of id d)).
        specialize (Hex x Hx). lia.
      * destruct (deleteRepayment_refused id role b (mkWorld d now None))
          as (e & ->); [|exact Hex].
        intros r' Hr'. simpl in Hr'. rewrite Hf in Hr'.
        now injection Hr' as <-.
    + destruct (deleteRepayment_refused id role b (mkWorld d now None))
        as (e & ->); [|exact Hex].
      intros r' Hr'. simpl in Hr'. rewrite Hf in Hr'. discriminate.
Qed.

(** X11. Exact books. Starting from a consistent ledger in which every
    item's paidAmount equals the sum of its active allocations (for
    instance a freshly activated loan), after any sequence of
    [createRepayment] and [deleteRepayment] calls on a reliable store the
    paidAmount of every schedule item is still exactly the sum of the
    amounts of its allocations whose repayment is not soft-deleted. *)
Theorem books_stay_exact calls d i :
  ledger_ok d ->
  books_exact d ->
  In i (scheduleItems (after_calls calls d)) ->
  paidAmount i = active_sum (after_calls calls d) (item_id i).
Proof.
  intros Hok Hex. revert i. change (books_exact (after_calls calls d)).
  revert d Hok Hex. unfold after_calls.
  induction calls as [|[now c] calls IH]; intros d Hok Hex; simpl;
    [exact Hex|].
  apply IH; [now apply after_call_ledger|now apply after_call_books].
Qed.

Lemma books_stay_exact_witness :
  let d := after_calls
             [(mar_1_2024, RecordPayment (cash 1 70) 7);
              (mar_1_2024 + hour_ms, RecordPayment (cash 1 70) 8);
              (mar_1_2024 + 2 * hour_ms, ReverseRepayment 1 ADMIN None)]
             two_pending_db in
  30 = active_sum d 2.
Proof.
  apply (books_stay_exact
           [(mar_1_2024, RecordPayment (cash 1 70) 7);
            (mar_1_2024 + hour_ms, RecordPayment (cash 1 70) 8);
            (mar_1_2024 + 2 * hour_ms, ReverseRepayment 1 ADMIN None)]
           two_pending_db
           (mkItem 2 1 2 feb_1_2024 50 30 PARTIAL None None)).
  - constructor.
    + simpl. repeat constructor; simpl; intuition discriminate.
    + intros a Ha. contradiction.
    + intros a Ha. contradiction.
    + intros i [<-|[<-|[]]]; vm_compute; split; discriminate.
  - intros i [<-|[<-|[]]]; reflexivity.
  - vm_compute. left. reflexivity.
Defined.

(** ** Status and paid amount agree *)

Lemma only_rows_ids ids t t' :
  only_rows ids t t' -> map item_id t' = map item_id t.
Proof.
  intros (g & -> & Hg & _). rewrite map_map. apply map_ext. intros x.
  apply (f_equal (fun c => fst (fst (fst (fst (fst c))))) (Hg x)).
Qed.

Lemma after_call_ids now c d :
  map item_id (scheduleItems (after_call now c d))
  = map item_id (scheduleItems d).
Proof.
  destruct c as [data user|id role b]; simpl.
  - destruct (createRepayment data user (mkWorld d now None)) as [o w'] eqn:E.
    apply createRepayment_run in E. destruct E as (_ & _ & _ & HI).
    eapply only_rows_ids. exact HI.
  - destruct (deleteRepayment id role b (mkWorld d now None)) as [o w'] eqn:E.
    apply deleteRepayment_run in E.
    destruct E as [->|(r & _ & _ & _ & _ & _ & HI)]; [reflexivity|].
    eapply only_rows_ids. exact HI.
Qed.

Lemma reversed_status_sound p t :
  0 < t -> (reversed_status p t = PAID <-> t <= p).
Proof.
  intros Ht. unfold reversed_status.
  destruct (p <=? 0) eqn:E1.
  - apply Z.leb_le in E1. split; [discriminate|lia].
  - apply Z.leb_gt in E1. destruct (p <? t) eqn:E2.
    + apply Z.ltb_lt in E2. split; [discriminate|lia].
    + apply Z.ltb_ge in E2. split; auto.
Qed.

Lemma after_call_status now c d :
  NoDup (map item_id (scheduleItems d)) ->
  (forall i, In i (scheduleItems d) -> status_sound i) ->
  forall i, In i (scheduleItems (after_call now c d)) -> status_sound i.
Proof.
  intros Hnd Hs. destruct c as [data user|id role b]; simpl.
  - destruct (payable_dec (data_loanId data) d) as [Hp|Hn].
    + rewrite createRepayment_reliable by (try reflexivity; exact Hp).
      cbn [snd db set_db clock]. intros i Hi.
      destruct (create_db_tables data user now d) as (_ & _ & Hit & _).
      rewrite Hit in Hi. apply in_map_iff in Hi.
      destruct Hi as (x & <- & Hx).
      set (plan := walk _ _).
      rewrite settle_row_entry
        by (apply walk_ids_NoDup, findMany_outstanding_ids_NoDup, Hnd).
      destruct (plan_entry (item_id x) plan) as [p|] eqn:Ep; [|now apply Hs].
      destruct (plan_entry_row _ _ _ _ _ Hnd Hx Ep) as (Hfst & _).
      unfold status_sound, settle, paid_status. rewrite Hfst. simpl.
      intros _. destruct (paidAmount x + snd p >=? totalDue x) eqn:E.
      * apply Z.geb_le in E. split; auto.
      * rewrite Z.geb_leb in E. apply Z.leb_gt in E.
        split; [discriminate|lia].
    + destruct (createRepayment_rejected data user (mkWorld d now None) Hn)
        as (e & -> & _).
      exact Hs.
  - destruct (deleteRepayment id role b (mkWorld d now None)) as [o w'] eqn:E.
    destruct (find (fun x => Nat.eqb (rep_id x) id) (repayments d))
      as [r|] eqn:Hf.
    + destruct (may_delete role b r (mkWorld d now None)) eqn:Hg.
      * destruct (deleteRepayment_reliable id role b (mkWorld d now None) r)
          as (o' & E' & _); try assumption; try reflexivity.
        rewrite E in E'. injection E' as _ ->.
        cbn [snd db set_db clock]. intros i Hi.
        unfold delete_db in Hi. rewrite reopen_db_scheduleItems in Hi.
        cbn [scheduleItems set_repayments set_scheduleItems] in Hi.
        rewrite reverse_items_rows in Hi. apply in_map_iff in Hi.
        destruct Hi as (x & <- & Hx).
        destruct (unpay_row_amounts (allocations_of id d) x) as [Ht _].
        destruct (unpay_row_status (allocations_of id d) x) as [Hn Hy].
        destruct (existsb _ (allocations_of id d)) eqn:Ex.
        -- destruct (Hy eq_refl) as [Hst _].
           unfold status_sound. rewrite Hst, Ht.
           apply reversed_status_sound.
        -- rewrite Hn by reflexivity. now apply Hs.
      * destruct (deleteRepayment_refused id role b (mkWorld d now None))
          as (e & E'); [|rewrite E in E'; injection E' as _ ->; exact Hs].
        intros r' Hr'. simpl in Hr'. rewrite Hf in Hr'.
        now injection Hr' as <-.
    + destruct (deleteRepayment_refused id role b (mkWorld d now None))
        as (e & E'); [|rewrite E in E'; injection E' as _ ->; exact Hs].
      intros r' Hr'. simpl in Hr'. rewrite Hf in Hr'. discriminate.
Qed.

(** X12. Status and paid amount agree. Take a store with unique item
    identifiers in which every item with a positive totalDue is PAID exactly
    when its paidAmount has reached its totalDue. After any sequence of
    [createRepayment] and [deleteRepayment] calls on a reliable store this
    still holds of every item: no call leaves an item marked PAID that is
    not fully paid, or a fully paid item with another status. *)
Theorem status_stays_sound calls d i :
  NoDup (map item_id (scheduleItems d)) ->
  (forall x, In x (scheduleItems d) -> status_sound x) ->
  In i (scheduleItems (after_calls calls d)) ->
  status_sound i.
Proof.
  intros Hnd Hs. revert i. revert d Hnd Hs. unfold after_calls.
  induction calls as [|[now c] calls IH]; intros d Hnd Hs; simpl;
    [exact Hs|].
  apply IH.
  - now rewrite after_call_ids.
  - now apply after_call_status.
Qed.

Lemma status_stays_sound_witness :
  status_sound (mkItem 2 1 2 feb_1_2024 50 30 PARTIAL None None).
Proof.
  apply (status_stays_sound
           [(mar_1_2024, RecordPayment (cash 1 70) 7);
            (mar_1_2024 + hour_ms, RecordPayment (cash 1 70) 8);
            (mar_1_2024 + 2 * hour_ms, ReverseRepayment 1 ADMIN None)]
           two_pending_db).
  - simpl. repeat constructor; simpl; intuition discriminate.
  - intros x [<-|[<-|[]]] _; simpl;
      (split; [discriminate|intros H; vm_compute in H; now elim H]).
  - vm_compute. left. reflexivity.
Defined.

(** ** Editing the metadata of a repayment *)

Lemma officer_guard_frame staff role u loan w o w' :
  officer_guard staff role u loan w = (o, w') -> w' = w.
Proof.
  unfold officer_guard. destruct role; try (intros H; now injection H as _ <-).
  destruct loan as [l|]; [|intros H; now injection H as _ <-].
  destruct (negb _); intros H; now injection H as _ <-.
Qed.

Lemma manager_guard_frame role b loan w o w' :
  manager_guard role b loan w = (o, w') -> w' = w.
Proof.
  unfold manager_guard.
  destruct role, b as [b|]; try (intros H; now injection H as _ <-).
  destruct loan as [l|]; [|intros H; now injection H as _ <-].
  destruct (negb _); intros H; now injection H as _ <-.
Qed.

Lemma updateRepayment_run staff id data role b u w o w' :
  updateRepayment staff id data role b u w = (o, w') ->
  (w' = w /\ exists e, o = Throw e)
  \/ exists r,
       find (fun x => Nat.eqb (rep_id x) id) (repayments (db w)) = Some r
       /\ rep_deletedAt r = None
       /\ clock w - createdAt r <= day_ms
       /\ o = Ok (set_metadata data r)
       /\ db w' = set_repayments (db w)
                    (update_row rep_id id (set_metadata data)
                       (repayments (db w))).
Proof.
  intros Hrun. unfold updateRepayment in Hrun.
  erewrite bind_ok in Hrun by reflexivity.
  destruct (find _ (repayments (db w))) as [r|] eqn:Hf;
    [|left; injection Hrun as <- <-; eauto].
  destruct (rep_deletedAt r) as [t|] eqn:Hd;
    [left; injection Hrun as <- <-; eauto|].
  cbn [truthy] in Hrun.
  erewrite bind_ok in Hrun by reflexivity.
  unfold bind in Hrun at 1.
  destruct (officer_guard _ _ _ _ w) as [o1 w1] eqn:E1.
  pose proof (officer_guard_frame _ _ _ _ _ _ _ E1) as ->.
  destruct o1 as [[]|e]; [|left; injection Hrun as <- <-; eauto].
  unfold bind in Hrun at 1.
  destruct (manager_guard _ _ _ w) as [o2 w2] eqn:E2.
  pose proof (manager_guard_frame _ _ _ _ _ _ E2) as ->.
  destruct o2 as [[]|e]; [|left; injection Hrun as <- <-; eauto].
  erewrite bind_ok in Hrun by reflexivity.
  destruct (clock w - createdAt r >? day_ms) eqn:Ht;
    [left; injection Hrun as <- <-; eauto|].
  unfold repayment_update in Hrun.
  rewrite (proj1 (find_some_has_id rep_id _ _ _ Hf)) in Hrun.
  destruct (commit _ w) as [o3 w3] eqn:E3.
  apply commit_run in E3.
  destruct E3 as [(-> & Hdb & _)|(_ & -> & ->)].
  - right. exists r. injection Hrun as <- <-.
    repeat split; try assumption.
    rewrite Z.gtb_ltb in Ht. now apply Z.ltb_ge.
  - left. injection Hrun as <- <-. eauto.
Qed.

(** X13. An edit touches the metadata only. On any store and whether the
    call returns or throws, [updateRepayment] leaves the loans, the schedule
    items and the allocations exactly as they were and keeps every repayment
    row in its place with its identifier, loan, payer, amount, paidAt,
    createdAt and deletedAt; rows other than the one addressed are
    unchanged, and in the addressed row an absent field of the data leaves
    its column as it was. *)
Theorem edit_touches_metadata_only staff id data role b u w :
  let w' := snd (updateRepayment staff id data role b u w) in
  loans (db w') = loans (db w)
  /\ scheduleItems (db w') = scheduleItems (db w)
  /\ allocations (db w') = allocations (db w)
  /\ Forall2
       (fun r r' =>
          rep_id r' = rep_id r /\ rep_loanId r' = rep_loanId r
          /\ receivedByUserId r' = receivedByUserId r
          /\ rep_amount r' = rep_amount r /\ paidAt r' = paidAt r
          /\ createdAt r' = createdAt r /\ rep_deletedAt r' = rep_deletedAt r
          /\ (rep_id r <> id -> r' = r)
          /\ (upd_method data = None -> method r' = method r)
          /\ (upd_reference data = None -> reference r' = reference r)
          /\ (upd_notes data = None -> notes r' = notes r))
       (repayments (db w)) (repayments (db w')).
Proof.
  intros w'. unfold w'. clear w'.
  destruct (updateRepayment staff id data role b u w) as [o w'] eqn:E.
  cbn [snd]. apply updateRepayment_run in E.
  destruct E as [(-> & _)|(r & _ & _ & _ & _ & ->)].
  - repeat split; try reflexivity.
    rewrite <- (map_id (repayments (db w))) at 2.
    apply Forall2_map_self. intros x _. repeat split; reflexivity.
  - cbn [loans scheduleItems allocations repayments set_repayments].
    repeat split; try reflexivity.
    apply Forall2_map_self. intros x _.
    destruct (Nat.eqb (rep_id x) id) eqn:Ex.
    + repeat split; try reflexivity.
      * intros H. apply Nat.eqb_eq in Ex. contradiction.
      * intros H. cbn. now rewrite H.
      * intros H. cbn. now rewrite H.
      * intros H. cbn. now rewrite H.
    + repeat split; reflexivity.
Qed.

(** The checks [updateRepayment] makes before it writes. *)
Lemma updateRepayment_passes staff id data role b u w r :
  reliable w ->
  find (fun x => Nat.eqb (rep_id x) id) (repayments (db w)) = Some r ->
  rep_deletedAt r = None ->
  (role = CREDIT_OFFICER ->
   exists l, loan_of (db w) r = Some l
             /\ same_user (assignedOfficerId (staff (loan_id l))) u = true) ->
  (role = BRANCH_MANAGER -> forall br, b = Some br ->
   exists l, loan_of (db w) r = Some l /\ loan_branchId l = br) ->
  clock w - createdAt r <= day_ms ->
  updateRepayment staff id data role b u w
  = (Ok (set_metadata data r),
     set_db w (set_repayments (db w)
                 (update_row rep_id id (set_metadata data)
                    (repayments (db w))))).
Proof.
  intros Hr Hf Hd Hco Hbm Ht. unfold updateRepayment.
  erewrite bind_ok by reflexivity. rewrite Hf, Hd. cbn [truthy].
  erewrite bind_ok by reflexivity.
  erewrite bind_ok.
  2:{ unfold officer_guard, loan_findUnique, query. cbn [fst].
      destruct role; try reflexivity.
      destruct (Hco eq_refl) as (l & Hl & Hsame).
      unfold loan_of in Hl. rewrite Hl, Hsame. reflexivity. }
  erewrite bind_ok.
  2:{ unfold manager_guard. destruct role; try reflexivity.
      destruct b as [br|]; [|reflexivity].
      destruct (Hbm eq_refl br eq_refl) as (l & Hl & Hbr).
      unfold loan_of in Hl. rewrite Hl, Hbr, Nat.eqb_refl. reflexivity. }
  erewrite bind_ok by reflexivity.
  rewrite Z.gtb_ltb, (proj2 (Z.ltb_ge _ _) Ht).
  unfold repayment_update.
  rewrite (proj1 (find_some_has_id rep_id _ _ _ Hf)).
  now rewrite commit_reliable.
Qed.

(** X14. Who may edit, and until when. On any store [updateRepayment]
    throws and changes nothing when the repayment is unknown or soft-deleted
    ("Repayment not found"), when the caller is a CREDIT_OFFICER who is not
    the officer the loan is assigned to, when the caller is a BRANCH_MANAGER
    whose branch is given and is not the loan's, and when more than 24 hours
    have passed since the repayment was created. On a reliable store a
    CREDIT_OFFICER to whom the loan is assigned succeeds within the 24
    hours, although [deleteRepayment] refuses every CREDIT_OFFICER. *)
Theorem edit_permissions staff id data role b u w :
  (find (fun x => Nat.eqb (rep_id x) id) (repayments (db w)) = None ->
   updateRepayment staff id data role b u w = (Throw "Repayment not found", w))
  /\ forall r,
  find (fun x => Nat.eqb (rep_id x) id) (repayments (db w)) = Some r ->
  (rep_deletedAt r <> None ->
   updateRepayment staff id data role b u w = (Throw "Repayment not found", w))
  /\ (day_ms < clock w - createdAt r ->
      exists e, updateRepayment staff id data role b u w = (Throw e, w))
  /\ (forall l,
         rep_deletedAt r = None -> loan_of (db w) r = Some l ->
         (role = CREDIT_OFFICER ->
          same_user (assignedOfficerId (staff (loan_id l))) u = false ->
          updateRepayment staff id data role b u w
          = (Throw "You do not have permission to update this repayment", w))
         /\ (forall br,
                role = BRANCH_MANAGER -> b = Some br -> loan_branchId l <> br ->
                updateRepayment staff id data role b u w
                = (Throw "You do not have permission to update this repayment",
                   w))
         /\ (role = ADMIN -> day_ms < clock w - createdAt r ->
             updateRepayment staff id data role b u w
             = (Throw "Cannot update repayment after 24 hours", w))
         /\ (role = CREDIT_OFFICER -> reliable w ->
             same_user (assignedOfficerId (staff (loan_id l))) u = true ->
             clock w - createdAt r <= day_ms ->
             (exists w', updateRepayment staff id data role b u w
                         = (Ok (set_metadata data r), w'))
             /\ deleteRepayment id role b w
                = (Throw "Credit officers cannot delete repayments", w))).
Proof.
  split.
  { intros Hf. unfold updateRepayment. erewrite bind_ok by reflexivity.
    now rewrite Hf. }
  intros r Hf. split; [|split].
  - intros Hd. unfold updateRepayment. erewrite bind_ok by reflexivity.
    rewrite Hf. destruct (rep_deletedAt r); [reflexivity|now elim Hd].
  - intros Hlate.
    destruct (updateRepayment staff id data role b u w) as [o w'] eqn:E.
    pose proof (updateRepayment_run _ _ _ _ _ _ _ _ _ E)
      as [(-> & e & ->)|(r' & Hf' & _ & Ht & _)]; [now exists e|].
    rewrite Hf in Hf'. injection Hf' as <-. lia.
  - intros l Hd Hl. unfold loan_of in Hl.
    assert (loan_findUnique (rep_loanId r) w = (Ok (Some l), w)) as Hloan
      by (unfold loan_findUnique, query; now rewrite Hl).
    split; [|split; [|split]].
    + intros -> Hs. unfold updateRepayment.
      erewrite bind_ok by reflexivity. rewrite Hf, Hd. cbn [truthy].
      erewrite bind_ok by exact Hloan.
      unfold bind at 1. unfold officer_guard. now rewrite Hs.
    + intros br -> -> Hne. unfold updateRepayment.
      erewrite bind_ok by reflexivity. rewrite Hf, Hd. cbn [truthy].
      erewrite bind_ok by exact Hloan.
      erewrite bind_ok by reflexivity.
      unfold bind at 1. unfold manager_guard.
      now rewrite (proj2 (Nat.eqb_neq _ _) Hne).
    + intros -> Hlate. unfold updateRepayment.
      erewrite bind_ok by reflexivity. rewrite Hf, Hd. cbn [truthy].
      erewrite bind_ok by exact Hloan.
      erewrite bind_ok by reflexivity. erewrite bind_ok by reflexivity.
      erewrite bind_ok by reflexivity.
      now rewrite (proj2 (Z.gtb_lt _ _) Hlate).
    + intros -> Hr Hs Ht. split.
      * eexists. apply updateRepayment_passes; try assumption.
        -- intros _. exists l. auto.
        -- discriminate.
      * unfold deleteRepayment. erewrite bind_ok by reflexivity.
        rewrite Hf, Hd. reflexivity.
Qed.

Lemma edit_permissions_witness :
  (exists e,
      updateRepayment (fun _ => mkStaff (Some 7%nat) (Some 7%nat)) 1
        (mkUpdate (Some POS) None None) ADMIN None (Some 7%nat)
        (mkWorld defaulted_db (mar_1_2024 + 25 * hour_ms) None)
      = (Throw e, mkWorld defaulted_db (mar_1_2024 + 25 * hour_ms) None))
  /\ updateRepayment (fun _ => mkStaff (Some 7%nat) (Some 7%nat)) 2
       (mkUpdate (Some POS) None None) ADMIN None (Some 7%nat)
       (mkWorld defaulted_db mar_1_2024 None)
     = (Throw "Repayment not found", mkWorld defaulted_db mar_1_2024 None).
Proof.
  split.
  - apply (proj1 (proj2 (proj2 (edit_permissions
                                  (fun _ => mkStaff (Some 7%nat) (Some 7%nat))
                                  1%nat (mkUpdate (Some POS) None None) ADMIN
                                  None (Some 7%nat)
                                  (mkWorld defaulted_db
                                     (mar_1_2024 + 25 * hour_ms) None))
                           (mkRepayment 1 1 7 20 mar_1_2024 CASH None None
                              mar_1_2024 None)
                           eq_refl))).
    reflexivity.
  - apply (proj1 (edit_permissions
                    (fun _ => mkStaff (Some 7%nat) (Some 7%nat)) 2%nat
                    (mkUpdate (Some POS) None None) ADMIN None (Some 7%nat)
                    (mkWorld defaulted_db mar_1_2024 None))).
    reflexivity.
Defined.

(** X15. An edit does not change what a reversal does. On a reliable
    store with unique item identifiers, reversing a repayment after
    [updateRepayment] was called on it (whether the edit succeeded or was
    refused) leaves the same schedule items, the same loans, the same
    allocations and the same deletion marks as reversing it without the
    edit, for every caller of the reversal and every time of the reversal. *)
Theorem edit_does_not_affect_reversal staff id data role b u w role2 b2 t :
  reliable w ->
  NoDup (map item_id (scheduleItems (db w))) ->
  let w1 := snd (updateRepayment staff id data role b u w) in
  let wa := snd (deleteRepayment id role2 b2 (mkWorld (db w) t None)) in
  let wb := snd (deleteRepayment id role2 b2 (mkWorld (db w1) t None)) in
  scheduleItems (db wb) = scheduleItems (db wa)
  /\ loans (db wb) = loans (db wa)
  /\ allocations (db wb) = allocations (db wa)
  /\ map rep_deletedAt (repayments (db wb))
     = map rep_deletedAt (repayments (db wa)).
Proof.
  intros Hr Hnd w1 wa wb. unfold wa, wb, w1. clear wa wb w1.
  destruct (updateRepayment staff id data role b u w) as [o w1] eqn:E.
  cbn [snd]. apply updateRepayment_run in E.
  destruct E as [(-> & _)|(r & Hf & Hd & _ & _ & Hdb)]; [auto|].
  set (d := db w) in *. set (d1 := db w1) in *.
  assert (find (fun x => Nat.eqb (rep_id x) id) (repayments d1)
          = Some (set_metadata data r)) as Hf1.
  { rewrite Hdb. cbn [repayments set_repayments].
    rewrite find_update_row by reflexivity. now rewrite Hf. }
  assert (may_delete role2 b2 (set_metadata data r) (mkWorld d1 t None)
          = may_delete role2 b2 r (mkWorld d t None)) as Hsame.
  { unfold may_delete. rewrite Hdb. reflexivity. }
  destruct (may_delete role2 b2 r (mkWorld d t None)) eqn:Hg.
  - destruct (deleteRepayment_reliable id role2 b2 (mkWorld d t None) r)
      as (oa & -> & _); try assumption; try reflexivity.
    destruct (deleteRepayment_reliable id role2 b2 (mkWorld d1 t None)
                (set_metadata data r))
      as (ob & -> & _); try assumption; try reflexivity.
    { cbn [db]. now rewrite Hdb. }
    cbn [snd db set_db clock]. change (rep_loanId (set_metadata data r))
                                 with (rep_loanId r).
    unfold delete_db, reopen_db, count_notPaid, allocations_of.
    rewrite Hdb.
    cbn [loans scheduleItems allocations repayments set_repayments
           set_scheduleItems].
    destruct (Nat.ltb _ _);
      cbn [loans scheduleItems allocations repayments set_repayments
             set_scheduleItems set_loans];
      repeat split; try reflexivity;
      rewrite update_row_twice by reflexivity;
      unfold update_row; rewrite !map_map; apply map_ext; intros x;
      now destruct (Nat.eqb (rep_id x) id).
  - destruct (deleteRepayment_refused id role2 b2 (mkWorld d t None))
      as (ea & ->).
    { intros r' Hr'. cbn [db] in Hr'. rewrite Hf in Hr'.
      now injection Hr' as <-. }
    destruct (deleteRepayment_refused id role2 b2 (mkWorld d1 t None))
      as (eb & ->).
    { intros r' Hr'. cbn [db] in Hr'. rewrite Hf1 in Hr'.
      injection Hr' as <-. exact Hsame. }
    cbn [snd db]. rewrite Hdb. cbn. repeat split; try reflexivity.
    unfold update_row. rewrite map_map. apply map_ext. intros x.
    now destruct (Nat.eqb (rep_id x) id).
Qed.

Lemma edit_does_not_affect_reversal_witness :
  let w := mkWorld defaulted_db (mar_1_2024 + hour_ms) None in
  let w1 := snd (updateRepayment (fun _ => mkStaff None None) 1
                   (mkUpdate (Some POS) None None) ADMIN None None w) in
  scheduleItems
    (db (snd (deleteRepayment 1 ADMIN None
                (mkWorld (db w1) (mar_1_2024 + hour_ms) None))))
  = scheduleItems
      (db (snd (deleteRepayment 1 ADMIN None
                  (mkWorld (db w) (mar_1_2024 + hour_ms) None)))).
Proof.
  intros w w1.
  apply (edit_does_not_affect_reversal (fun _ => mkStaff None None) 1%nat
           (mkUpdate (Some POS) None None) ADMIN None None w ADMIN None
           (mar_1_2024 + hour_ms)).
  - reflexivity.
  - simpl. repeat constructor; simpl; intuition.
Defined.

(** ** Listing and viewing repayments *)

Lemma insert_by_paidAt_perm x l : Permutation (insert_by_paidAt x l) (x :: l).
Proof.
  induction l as [|y l IH]; simpl; [reflexivity|].
  destruct (paidAt y <=? paidAt x); [reflexivity|].
  rewrite IH. apply perm_swap.
Qed.

Lemma orderBy_paidAt_desc_perm l : Permutation (orderBy_paidAt_desc l) l.
Proof.
  induction l as [|x l IH]; simpl; [reflexivity|].
  rewrite insert_by_paidAt_perm. now constructor.
Qed.

Lemma insert_by_paidAt_sorted x l :
  StronglySorted paidAt_ge l -> StronglySorted paidAt_ge (insert_by_paidAt x l).
Proof.
  induction 1 as [|y l Hs IH Hy]; simpl.
  - repeat constructor.
  - destruct (paidAt y <=? paidAt x) eqn:E.
    + apply Z.leb_le in E. constructor; [now constructor|].
      constructor; [exact E|].
      eapply Forall_impl; [|exact Hy]. unfold paidAt_ge. intros; lia.
    + apply Z.leb_gt in E. constructor; [exact IH|].
      eapply Permutation_Forall;
        [apply Permutation_sym, insert_by_paidAt_perm|].
      constructor; [unfold paidAt_ge; lia|exact Hy].
Qed.

Lemma orderBy_paidAt_desc_sorted l :
  StronglySorted paidAt_ge (orderBy_paidAt_desc l).
Proof.
  induction l as [|x l IH]; simpl; [constructor|].
  now apply insert_by_paidAt_sorted.
Qed.

Lemma in_firstn_list {A} n (l : list A) x : In x (firstn n l) -> In x l.
Proof.
  intros H. rewrite <- (firstn_skipn n l). apply in_or_app. now left.
Qed.

Lemma in_skipn_list {A} n (l : list A) x : In x (skipn n l) -> In x l.
Proof.
  intros H. rewrite <- (firstn_skipn n l). apply in_or_app. now right.
Qed.

Lemma getRepayments_run staff filters role b u w :
  getRepayments staff filters role b u w
  = (Ok (mkPage
           (firstn (or_default (filter_limit filters) 20)
              (skipn ((or_default (filter_page filters) 1 - 1)
                      * or_default (filter_limit filters) 20)
                 (orderBy_paidAt_desc
                    (filter (list_where staff filters role b u (db w))
                       (repayments (db w))))))
           (List.length (filter (list_where staff filters role b u (db w))
                           (repayments (db w))))
           (or_default (filter_page filters) 1)
           (or_default (filter_limit filters) 20)),
     w).
Proof. reflexivity. Qed.

Lemma listed_matches staff filters role b u w pg r :
  getRepayments staff filters role b u w = (Ok pg, w) ->
  In r (page_repayments pg) ->
  In r (repayments (db w)) /\ list_where staff filters role b u (db w) r = true.
Proof.
  rewrite getRepayments_run. intros H Hin. injection H as <-.
  cbn [page_repayments] in Hin.
  apply in_firstn_list, in_skipn_list in Hin.
  apply (Permutation_in _ (orderBy_paidAt_desc_perm _)) in Hin.
  now apply filter_In in Hin.
Qed.

(** X16. Whatever is listed can be opened. On a store with unique
    repayment identifiers in which every repayment points to an existing
    loan, every repayment that [getRepayments] returns to a caller, for any
    filters and any page, is returned to the same caller by
    [getRepaymentById], together with its loan and its allocations. Neither
    call changes the store. *)
Theorem listed_can_be_viewed staff filters role b u w :
  NoDup (map rep_id (repayments (db w))) ->
  repayments_linked (db w) ->
  exists pg,
    getRepayments staff filters role b u w = (Ok pg, w)
    /\ forall r,
         In r (page_repayments pg) ->
         exists l,
           loan_of (db w) r = Some l
           /\ getRepaymentById staff (rep_id r) role b (Some u) w
              = (Ok (mkView r l (allocations_of (rep_id r) (db w))), w).
Proof.
  intros Hnd Hlk. eexists. split; [apply getRepayments_run|].
  intros r Hin.
  destruct (listed_matches staff filters role b u w _ r
              (getRepayments_run staff filters role b u w) Hin)
    as [Hr Hw].
  unfold list_where in Hw. repeat rewrite andb_true_iff in Hw.
  destruct Hw as (((((Hlive & Hscope) & _) & _) & _) & _).
  destruct (loan_of (db w) r) as [l|] eqn:Hl; [|now elim (Hlk r Hr)].
  exists l. split; [reflexivity|].
  assert (find (fun x => Nat.eqb (rep_id x) (rep_id r)
                         && negb (truthy (rep_deletedAt x)))
            (repayments (db w)) = Some r) as Hf.
  { destruct (find _ (repayments (db w))) as [x|] eqn:Ex.
    - apply find_some in Ex. destruct Ex as [Hx Hxid].
      apply andb_true_iff in Hxid. destruct Hxid as [Hxid _].
      apply Nat.eqb_eq in Hxid. f_equal.
      eapply key_unique; eauto.
    - pose proof (find_none _ _ Ex r Hr) as Hc. cbv beta in Hc.
      now rewrite Nat.eqb_refl, Hlive in Hc. }
  unfold getRepaymentById. erewrite bind_ok by reflexivity. rewrite Hf.
  erewrite bind_ok by reflexivity. erewrite bind_ok by reflexivity.
  unfold loan_of in Hl. rewrite Hl.
  unfold list_scope, loan_of in Hscope. rewrite Hl in Hscope.
  destruct role, b as [br|]; try reflexivity; try discriminate.
  - apply andb_true_iff in Hscope. destruct Hscope as [Hbr _].
    now rewrite Hbr.
  - apply andb_true_iff in Hscope. destruct Hscope as [Hs _].
    apply orb_true_iff in Hs.
    destruct Hs as [-> | ->]; cbn; [reflexivity|].
    now rewrite andb_false_r.
  - apply andb_true_iff in Hscope. destruct Hscope as [Hs _].
    apply orb_true_iff in Hs.
    destruct Hs as [-> | ->]; cbn; [reflexivity|].
    now rewrite andb_false_r.
Qed.

Lemma listed_can_be_viewed_witness :
  exists pg,
    getRepayments (fun _ => mkStaff None None)
      (mkFilters None None None None None None None) ADMIN None 7
      (mkWorld defaulted_db mar_1_2024 None)
    = (Ok pg, mkWorld defaulted_db mar_1_2024 None)
    /\ List.length (page_repayments pg) = 1%nat.
Proof.
  destruct (listed_can_be_viewed (fun _ => mkStaff None None)
              (mkFilters None None None None None None None) ADMIN None 7%nat
              (mkWorld defaulted_db mar_1_2024 None))
    as (pg & Hrun & _).
  - simpl. repeat constructor; simpl; intuition.
  - intros r [<-|[]]. discriminate.
  - exists pg. split; [exact Hrun|].
    pose proof Hrun as Hc. vm_compute in Hc. injection Hc as <-. reflexivity.
Defined.

Lemma StronglySorted_firstn {A} (R : A -> A -> Prop) n :
  forall l, StronglySorted R l -> StronglySorted R (firstn n l).
Proof.
  induction n as [|n IH]; intros l Hs; [constructor|].
  destruct l as [|x l]; [constructor|].
  inversion Hs as [|? ? Hs' Hx]; subst. simpl. constructor; [now apply IH|].
  rewrite Forall_forall in *. intros y Hy. apply Hx.
  eapply in_firstn_list. exact Hy.
Qed.

Lemma StronglySorted_skipn {A} (R : A -> A -> Prop) n :
  forall l, StronglySorted R l -> StronglySorted R (skipn n l).
Proof.
  induction n as [|n IH]; intros l Hs; [exact Hs|].
  destruct l as [|x l]; [constructor|].
  inversion Hs; subst. simpl. now apply IH.
Qed.




(** ** The repayment summary *)

Lemma group_of_amount m (g : list Repayment) :
  sumZ (map group_sum
          match g with
          | [] => []
          | r :: l => [mkGroup m (sumZ (map rep_amount (r :: l)))
                         (List.length (r :: l))]
          end)
  = sumZ (map rep_amount g).
Proof. destruct g; [reflexivity|]. unfold sumZ. cbn [map fold_right group_sum]. lia. Qed.

Lemma group_of_count m (g : list Repayment) :
  list_sum (map group_count
              match g with
              | [] => []
              | r :: l => [mkGroup m (sumZ (map rep_amount (r :: l)))
                             (List.length (r :: l))]
              end)
  = List.length g.
Proof.
  destruct g; [reflexivity|]. unfold list_sum.
  cbn [map fold_right group_count]. lia.
Qed.

Lemma by_method_amount rows :
  sumZ (map rep_amount (filter (fun r => RepaymentMethod_eqb (method r) CASH) rows))
  + (sumZ (map rep_amount (filter (fun r => RepaymentMethod_eqb (method r) TRANSFER) rows))
  + (sumZ (map rep_amount (filter (fun r => RepaymentMethod_eqb (method r) POS) rows))
  + (sumZ (map rep_amount (filter (fun r => RepaymentMethod_eqb (method r) MOBILE) rows))
  + (sumZ (map rep_amount (filter (fun r => RepaymentMethod_eqb (method r) USSD) rows))
  + (sumZ (map rep_amount (filter (fun r => RepaymentMethod_eqb (method r) OTHER) rows))
  + 0)))))
  = sumZ (map rep_amount rows).
Proof.
  unfold sumZ in *. induction rows as [|r rows IH]; [reflexivity|].
  cbn [filter]. destruct (method r); cbn [RepaymentMethod_eqb map fold_right];
    lia.
Qed.

Lemma by_method_count rows :
  (List.length (filter (fun r => RepaymentMethod_eqb (method r) CASH) rows)
  + (List.length (filter (fun r => RepaymentMethod_eqb (method r) TRANSFER) rows)
  + (List.length (filter (fun r => RepaymentMethod_eqb (method r) POS) rows)
  + (List.length (filter (fun r => RepaymentMethod_eqb (method r) MOBILE) rows)
  + (List.length (filter (fun r => RepaymentMethod_eqb (method r) USSD) rows)
  + (List.length (filter (fun r => RepaymentMethod_eqb (method r) OTHER) rows)
  + 0))))))%nat
  = List.length rows.
Proof.
  induction rows as [|r rows IH]; [reflexivity|].
  cbn [filter]. destruct (method r); cbn [RepaymentMethod_eqb List.length]; lia.
Qed.

Lemma groupBy_method_amount rows :
  sumZ (map group_sum (groupBy_method rows)) = sumZ (map rep_amount rows).
Proof.
  unfold groupBy_method, all_methods. cbn [flat_map].
  repeat rewrite map_app. repeat rewrite sumZ_app.
  repeat rewrite group_of_amount. change (sumZ (map group_sum [])) with 0.
  apply by_method_amount.
Qed.

Lemma groupBy_method_count rows :
  list_sum (map group_count (groupBy_method rows)) = List.length rows.
Proof.
  unfold groupBy_method, all_methods. cbn [flat_map].
  repeat rewrite map_app. repeat rewrite list_sum_app.
  repeat rewrite group_of_count. change (list_sum (map group_count [])) with 0%nat.
  apply by_method_count.
Qed.

Lemma groupBy_method_groups rows g :
  In g (groupBy_method rows) ->
  let members :=
    filter (fun r => RepaymentMethod_eqb (method r) (group_method g)) rows in
  members <> []
  /\ group_sum g = sumZ (map rep_amount members)
  /\ group_count g = List.length members.
Proof.
  unfold groupBy_method. intros Hin.
  apply in_flat_map in Hin. destruct Hin as (m & _ & Hin).
  destruct (filter (fun r => RepaymentMethod_eqb (method r) m) rows)
    as [|x t] eqn:E; [destruct Hin|].
  destruct Hin as [<-|[]]. cbn [group_method group_sum group_count].
  rewrite E. repeat split. discriminate.
Qed.

Lemma groupBy_method_NoDup rows :
  NoDup (map group_method (groupBy_method rows)).
Proof.
  unfold groupBy_method, all_methods. cbn [flat_map].
  destruct (filter (fun r => RepaymentMethod_eqb (method r) CASH) rows);
  destruct (filter (fun r => RepaymentMethod_eqb (method r) TRANSFER) rows);
  destruct (filter (fun r => RepaymentMethod_eqb (method r) POS) rows);
  destruct (filter (fun r => RepaymentMethod_eqb (method r) MOBILE) rows);
  destruct (filter (fun r => RepaymentMethod_eqb (method r) USSD) rows);
  destruct (filter (fun r => RepaymentMethod_eqb (method r) OTHER) rows);
  cbn [app map group_method];
  repeat (constructor; [cbn [In]; intuition discriminate|]); constructor.
Qed.

Lemma groupBy_method_complete rows r :
  In r rows -> In (method r) (map group_method (groupBy_method rows)).
Proof.
  intros Hin. unfold groupBy_method.
  apply in_map_iff.
  assert (In r (filter (fun r' => RepaymentMethod_eqb (method r') (method r))
                  rows)) as Hf.
  { apply filter_In. split; [exact Hin|]. now destruct (method r). }
  destruct (filter (fun r' => RepaymentMethod_eqb (method r') (method r)) rows)
    as [|x t] eqn:E; [destruct Hf|].
  exists (mkGroup (method r) (sumZ (map rep_amount (x :: t)))
            (List.length (x :: t))).
  split; [reflexivity|].
  apply in_flat_map. exists (method r). split.
  - unfold all_methods. destruct (method r); cbn [In]; auto 10.
  - rewrite E. now left.
Qed.

(** X18. The figures of [getRepaymentSummary] agree with each other. The
    call never fails and never changes the store. The groups of the method
    breakdown name each payment method at most once and exactly the methods
    of the repayments counted; each group holds the number and the total
    amount of the counted repayments of its method, so the group amounts
    add up to [totalAmount] and the group counts to [totalRepayments]. The
    recent repayments are the at most five latest of the repayments counted
    (all of them when no more than five are counted), in descending order
    of paidAt; soft-deleted repayments are never counted. *)
Theorem summary_is_consistent staff filters role b u w :
  let counted :=
    filter (summary_where staff filters role b u (db w)) (repayments (db w)) in
  exists s,
    getRepaymentSummary staff filters role b u w = (Ok s, w)
    /\ totalRepayments s = List.length counted
    /\ totalAmount s = sumZ (map rep_amount counted)
    /\ sumZ (map group_sum (methodBreakdown s)) = totalAmount s
    /\ list_sum (map group_count (methodBreakdown s)) = totalRepayments s
    /\ NoDup (map group_method (methodBreakdown s))
    /\ (forall m, In m (map group_method (methodBreakdown s))
                  <-> exists r, In r counted /\ method r = m)
    /\ (forall g, In g (methodBreakdown s) ->
          let members :=
            filter (fun r => RepaymentMethod_eqb (method r) (group_method g))
              counted in
          group_sum g = sumZ (map rep_amount members)
          /\ group_count g = List.length members)
    /\ recentRepayments s = firstn 5 (orderBy_paidAt_desc counted)
    /\ List.length (recentRepayments s) = Nat.min 5 (totalRepayments s)
    /\ StronglySorted paidAt_ge (recentRepayments s)
    /\ (forall r, In r counted -> rep_deletedAt r = None).
Proof.
  intros counted. eexists. split; [reflexivity|].
  cbn [totalRepayments totalAmount methodBreakdown recentRepayments].
  fold counted.
  split; [reflexivity|]. split; [reflexivity|].
  split; [apply groupBy_method_amount|].
  split; [apply groupBy_method_count|].
  split; [apply groupBy_method_NoDup|].
  split.
  { intros m. split.
    - intros Hin. apply in_map_iff in Hin. destruct Hin as (g & <- & Hg).
      destruct (groupBy_method_groups _ _ Hg) as (Hne & _ & _).
      destruct (filter _ counted) as [|r t] eqn:E; [now elim Hne|].
      assert (In r (filter (fun r0 => RepaymentMethod_eqb (method r0)
                                        (group_method g)) counted)) as Hr
        by (rewrite E; now left).
      apply filter_In in Hr. destruct Hr as [Hr Hm].
      exists r. split; [exact Hr|].
      destruct (method r), (group_method g); (reflexivity || discriminate).
    - intros (r & Hr & <-). now apply groupBy_method_complete. }
  split.
  { intros g Hg. destruct (groupBy_method_groups _ _ Hg) as (_ & Hs & Hc).
    split; assumption. }
  split; [reflexivity|].
  split.
  { rewrite length_firstn.
    now rewrite (Permutation_length (orderBy_paidAt_desc_perm counted)). }
  split; [apply StronglySorted_firstn, orderBy_paidAt_desc_sorted|].
  intros r Hr. apply filter_In in Hr. destruct Hr as [_ Hw].
  unfold summary_where in Hw. repeat rewrite andb_true_iff in Hw.
  destruct Hw as (((Hlive & _) & _) & _).
  destruct (rep_deletedAt r); [discriminate|reflexivity].
Qed.

(** ** A branch manager without a branch *)

(** X19. What a BRANCH_MANAGER whose branch is not set gets, function by
    function. [getRepayments] shows nothing (no rows, total 0) and
    [getRepaymentById] never returns a repayment. [getRepaymentSummary],
    [updateRepayment] and [deleteRepayment] put no branch restriction on
    such a caller: each behaves exactly as it does for an ADMIN, on every
    store and for every argument. *)
Theorem manager_without_branch staff w :
  (forall filters u,
      getRepayments staff filters BRANCH_MANAGER None u w
      = (Ok (mkPage [] 0 (or_default (filter_page filters) 1)
               (or_default (filter_limit filters) 20)), w))
  /\ (forall id u v w',
         getRepaymentById staff id BRANCH_MANAGER None u w <> (Ok v, w'))
  /\ (forall filters u,
         getRepaymentSummary staff filters BRANCH_MANAGER None u w
         = getRepaymentSummary staff filters ADMIN None u w)
  /\ (forall id data u,
         updateRepayment staff id data BRANCH_MANAGER None u w
         = updateRepayment staff id data ADMIN None u w)
  /\ (forall id,
         deleteRepayment id BRANCH_MANAGER None w
         = deleteRepayment id ADMIN None w).
Proof.
  split.
  { intros filters u. rewrite getRepayments_run.
    rewrite (filter_none (list_where staff filters BRANCH_MANAGER None u (db w))).
    - cbn [orderBy_paidAt_desc fold_right List.length].
      now rewrite skipn_nil, firstn_nil.
    - intros r _. unfold list_where, list_scope.
      now rewrite andb_false_r. }
  split.
  { intros id u v w' H. unfold getRepaymentById, bind, query, loan_findUnique in H.
    cbn beta iota in H.
    destruct (find _ (repayments (db w))) as [r|]; [|discriminate H].
    unfold query, throw in H. cbn beta iota in H.
    destruct (find _ (loans (db w))) as [l|]; discriminate H. }
  split; [reflexivity|]. split; reflexivity.
Qed.

(** ** Repayment schedules *)

Lemma insert_by_sequence_perm x l :
  Permutation (insert_by_sequence x l) (x :: l).
Proof.
  induction l as [|y l IH]; simpl; [reflexivity|].
  destruct (sequence x <=? sequence y)%nat; [reflexivity|].
  rewrite IH. apply perm_swap.
Qed.

Lemma orderBy_sequence_asc_perm l : Permutation (orderBy_sequence_asc l) l.
Proof.
  induction l as [|x l IH]; simpl; [reflexivity|].
  rewrite insert_by_sequence_perm. now constructor.
Qed.

Lemma insert_by_sequence_sorted x l :
  StronglySorted sequence_le l ->
  StronglySorted sequence_le (insert_by_sequence x l).
Proof.
  induction 1 as [|y l Hs IH Hy]; simpl.
  - repeat constructor.
  - destruct (sequence x <=? sequence y)%nat eqn:E.
    + apply Nat.leb_le in E. constructor; [now constructor|].
      constructor; [exact E|].
      eapply Forall_impl; [|exact Hy]. unfold sequence_le. intros; lia.
    + apply Nat.leb_gt in E. constructor; [exact IH|].
      eapply Permutation_Forall;
        [apply Permutation_sym, insert_by_sequence_perm|].
      constructor; [unfold sequence_le; lia|exact Hy].
Qed.

Lemma orderBy_sequence_asc_sorted l :
  StronglySorted sequence_le (orderBy_sequence_asc l).
Proof.
  induction l as [|x l IH]; simpl; [constructor|].
  now apply insert_by_sequence_sorted.
Qed.

Lemma view_item_with_allocations d l :
  map view_item (map (with_allocations d) l) = l.
Proof.
  rewrite map_map. cbn [with_allocations view_item]. apply map_id.
Qed.

Lemma getRepaymentScheduleByLoan_run staff loanId role b u w :
  getRepaymentScheduleByLoan staff loanId role b u w
  = match find (fun l => Nat.eqb (loan_id l) loanId) (loans (db w)) with
    | None => (Throw "Loan not found", w)
    | Some l =>
        if schedule_allowed staff role b u l
        then (Ok (mkLoanSchedule l
                    (map (with_allocations (db w))
                       (orderBy_sequence_asc
                          (filter (schedule_of_loan loanId)
                             (scheduleItems (db w)))))), w)
        else (Throw (if truthy (loan_deletedAt l) then "Loan not found"
                     else "You do not have permission to view this loan's schedule"),
              w)
    end.
Proof.
  unfold getRepaymentScheduleByLoan, schedule_allowed, loan_findUnique, bind,
    query.
  destruct (find _ (loans (db w))) as [l|]; [|reflexivity].
  destruct (truthy (loan_deletedAt l)); [reflexivity|].
  cbn [negb andb].
  destruct (Role_eqb role BRANCH_MANAGER && _); [reflexivity|].
  cbn [negb andb].
  destruct (Role_eqb role CREDIT_OFFICER && _); reflexivity.
Qed.

Lemma same_user_true column userId :
  same_user column userId = true <->
  exists uid, column = Some uid /\ userId = Some uid.
Proof.
  unfold same_user. destruct column as [a|], userId as [c|]; split;
    try discriminate; try (intros (uid & H1 & H2); discriminate).
  - intros H. apply Nat.eqb_eq in H. subst. now exists c.
  - intros (uid & H1 & H2). injection H1 as ->. injection H2 as ->.
    apply Nat.eqb_refl.
Qed.

(** X20. The schedule of one loan. [getRepaymentScheduleByLoan] never
    changes the store. It answers exactly when the loan exists, is not
    deleted, and the caller is an ADMIN, a BRANCH_MANAGER with no branch or
    with the loan's branch, or the CREDIT_OFFICER the loan is assigned to;
    otherwise it throws "Loan not found" or the permission error. The answer
    holds the loan and every non-deleted schedule item of that loan exactly
    once, in ascending order of sequence number, each with all allocation
    rows that point to it. *)
Theorem loan_schedule_view staff loanId role b u w :
  let run := getRepaymentScheduleByLoan staff loanId role b u w in
  let found := find (fun l => Nat.eqb (loan_id l) loanId) (loans (db w)) in
  snd run = w
  /\ (forall s, fst run = Ok s ->
        found = Some (schedule_loan s)
        /\ loan_id (schedule_loan s) = loanId
        /\ loan_deletedAt (schedule_loan s) = None
        /\ (role = BRANCH_MANAGER ->
            forall br, b = Some br -> loan_branchId (schedule_loan s) = br)
        /\ (role = CREDIT_OFFICER ->
            exists uid, u = Some uid
                        /\ assignedOfficerId (staff loanId) = Some uid)
        /\ StronglySorted sequence_le (map view_item (schedule s))
        /\ Permutation (map view_item (schedule s))
             (filter (schedule_of_loan loanId) (scheduleItems (db w)))
        /\ (forall v, In v (schedule s) ->
              view_item_allocations v
              = filter (fun a => Nat.eqb (scheduleItemId a)
                                   (item_id (view_item v)))
                  (allocations (db w))))
  /\ (forall l, found = Some l -> loan_deletedAt l = None ->
        role = ADMIN
        \/ (role = BRANCH_MANAGER /\ (b = None \/ b = Some (loan_branchId l)))
        \/ (role = CREDIT_OFFICER
            /\ exists uid, u = Some uid
                           /\ assignedOfficerId (staff loanId) = Some uid) ->
        exists s, run = (Ok s, w) /\ schedule_loan s = l)
  /\ (forall e, fst run = Throw e ->
        e = "Loan not found"%string
        \/ e = "You do not have permission to view this loan's schedule"%string).
Proof.
  intros run found. subst run. rewrite getRepaymentScheduleByLoan_run.
  fold found. destruct found as [l|] eqn:Hf.
  2:{ split; [reflexivity|]. split; [discriminate|].
      split; [discriminate|]. intros e H. injection H as <-. now left. }
  assert (loan_id l = loanId) as Hid.
  { apply find_some in Hf. now apply Nat.eqb_eq. }
  destruct (schedule_allowed staff role b u l) eqn:Ha.
  - cbn [fst snd]. split; [reflexivity|]. split.
    + intros s H. injection H as <-. cbn [schedule_loan schedule].
      unfold schedule_allowed in Ha. repeat rewrite andb_true_iff in Ha.
      destruct Ha as ((Hd & Hb) & Hu).
      split; [reflexivity|]. split; [exact Hid|].
      split; [destruct (loan_deletedAt l); [discriminate|reflexivity]|].
      split.
      { intros -> br ->. cbn [Role_eqb andb] in Hb.
        rewrite Bool.negb_involutive in Hb. now apply Nat.eqb_eq. }
      split.
      { intros ->. cbn [Role_eqb andb] in Hu.
        rewrite Bool.negb_involutive, Hid in Hu.
        apply same_user_true in Hu. destruct Hu as (uid & H1 & H2).
        now exists uid. }
      rewrite view_item_with_allocations.
      split; [apply orderBy_sequence_asc_sorted|].
      split; [apply orderBy_sequence_asc_perm|].
      intros v Hv. apply in_map_iff in Hv. destruct Hv as (i & <- & _).
      reflexivity.
    + split; [|discriminate].
      intros l' H. injection H as <-. intros _ _. eexists. split; reflexivity.
  - cbn [fst snd]. split; [reflexivity|]. split; [discriminate|]. split.
    + intros l' H. injection H as <-. intros Hd Hrole. exfalso.
      unfold schedule_allowed in Ha. rewrite Hd in Ha. cbn [truthy negb andb] in Ha.
      destruct Hrole as [->|[(-> & Hb)|(-> & uid & -> & Hu)]].
      * discriminate Ha.
      * cbn [Role_eqb andb negb] in Ha. rewrite andb_true_r in Ha.
        destruct Hb as [->| ->]; [discriminate Ha|].
        now rewrite Nat.eqb_refl in Ha.
      * cbn [Role_eqb andb negb] in Ha. rewrite Hid, Hu in Ha.
        cbn [same_user] in Ha. now rewrite Nat.eqb_refl in Ha.
    + intros e H. injection H as <-.
      destruct (truthy (loan_deletedAt l)); auto.
Qed.

Lemma find_also {A} (f g : A -> bool) l r :
  find f l = Some r -> g r = true -> find (fun x => f x && g x) l = Some r.
Proof.
  induction l as [|x l IH]; [discriminate|].
  cbn [find]. destruct (f x) eqn:E.
  - intros H. injection H as ->. intros ->. reflexivity.
  - cbn [andb]. exact IH.
Qed.

(** X21. The officer who created a loan but is not the officer it is
    assigned to. As a CREDIT_OFFICER that user is shown every non-deleted
    repayment of the (non-deleted) loan by [getRepaymentById] and, with no
    filters set, by [getRepayments]; but [getRepaymentSummary] does not
    count these repayments, [getRepaymentScheduleByLoan] refuses the loan's
    schedule and [updateRepayment] refuses the edit. *)
Theorem creator_is_not_assignee staff id b u w r l :
  find (fun x => Nat.eqb (rep_id x) id) (repayments (db w)) = Some r ->
  rep_deletedAt r = None ->
  loan_of (db w) r = Some l ->
  loan_deletedAt l = None ->
  createdByUserId (staff (loan_id l)) = Some u ->
  assignedOfficerId (staff (loan_id l)) <> Some u ->
  getRepaymentById staff id CREDIT_OFFICER b (Some u) w
  = (Ok (mkView r l (allocations_of id (db w))), w)
  /\ In r (filter (list_where staff
                     (mkFilters None None None None None None None)
                     CREDIT_OFFICER b u (db w))
             (repayments (db w)))
  /\ (forall filters,
        ~ In r (filter (summary_where staff filters CREDIT_OFFICER b u (db w))
                  (repayments (db w))))
  /\ getRepaymentScheduleByLoan staff (rep_loanId r) CREDIT_OFFICER b (Some u) w
     = (Throw "You do not have permission to view this loan's schedule", w)
  /\ (forall data,
        updateRepayment staff id data CREDIT_OFFICER b (Some u) w
        = (Throw "You do not have permission to update this repayment", w)).
Proof.
  intros Hf Hlive Hl Hld Hc Ha.
  assert (same_user (assignedOfficerId (staff (loan_id l))) (Some u) = false)
    as Hna.
  { destruct (same_user _ _) eqn:E; [|reflexivity].
    apply same_user_true in E. destruct E as (uid & H1 & H2).
    injection H2 as <-. now elim Ha. }
  assert (same_user (createdByUserId (staff (loan_id l))) (Some u) = true)
    as Hcr by (rewrite Hc; cbn [same_user]; apply Nat.eqb_refl).
  pose proof Hl as Hl'. unfold loan_of in Hl'.
  assert (loan_findUnique (rep_loanId r) w = (Ok (Some l), w)) as Hloan
    by (unfold loan_findUnique, query; now rewrite Hl').
  split.
  { unfold getRepaymentById. erewrite bind_ok by reflexivity.
    rewrite (find_also _ (fun x => negb (truthy (rep_deletedAt x))) _ _ Hf)
      by now rewrite Hlive.
    erewrite bind_ok by exact Hloan.
    erewrite bind_ok by reflexivity.
    rewrite Hna, Hcr. reflexivity. }
  split.
  { apply filter_In. split; [now apply find_some in Hf|].
    unfold list_where, list_scope. rewrite Hlive, Hl, Hna, Hcr, Hld.
    reflexivity. }
  split.
  { intros filters Hin. apply filter_In in Hin. destruct Hin as [_ Hw].
    unfold summary_where in Hw. rewrite Hl, Hna in Hw.
    now rewrite andb_false_r in Hw. }
  split.
  { rewrite getRepaymentScheduleByLoan_run, Hl'.
    unfold schedule_allowed. rewrite Hld, Hna. reflexivity. }
  intros data. unfold updateRepayment. erewrite bind_ok by reflexivity.
  rewrite Hf, Hlive. cbn [truthy].
  erewrite bind_ok by exact Hloan.
  unfold officer_guard. rewrite Hna. reflexivity.
Qed.

Lemma creator_is_not_assignee_witness :
  getRepaymentById (fun _ => mkStaff (Some 8%nat) (Some 7%nat)) 1
    CREDIT_OFFICER None (Some 7%nat) (mkWorld last_partial_db mar_1_2024 None)
  = (Ok (mkView (mkRepayment 1 1 7 160 jan_1_2024 CASH None None jan_1_2024 None)
           active_loan [mkAlloc 1 1 100; mkAlloc 1 2 60]),
     mkWorld last_partial_db mar_1_2024 None)
  /\ getRepaymentScheduleByLoan (fun _ => mkStaff (Some 8%nat) (Some 7%nat)) 1
       CREDIT_OFFICER None (Some 7%nat) (mkWorld last_partial_db mar_1_2024 None)
     = (Throw "You do not have permission to view this loan's schedule",
        mkWorld last_partial_db mar_1_2024 None).
Proof.
  destruct (creator_is_not_assignee (fun _ => mkStaff (Some 8%nat) (Some 7%nat))
              1%nat None 7%nat (mkWorld last_partial_db mar_1_2024 None)
              (mkRepayment 1 1 7 160 jan_1_2024 CASH None None jan_1_2024 None)
              active_loan)
    as (Hview & _ & _ & Hsched & _);
    try reflexivity; try discriminate.
  split; [exact Hview|exact Hsched].
Defined.

Lemma getRepaymentSchedules_run filters role b u w :
  getRepaymentSchedules filters role b u w
  = if Nat.eqb (sched_page filters) 0 && Nat.ltb 0 (sched_limit filters)
    then (Throw "Invalid value for skip argument: Value can only be positive",
          w)
    else (Ok (mkSchedulePage
                (map (with_allocations (db w))
                   (firstn (sched_limit filters)
                      (skipn ((sched_page filters - 1) * sched_limit filters)
                         (orderBy_dueDate_asc
                            (filter (schedules_where filters)
                               (scheduleItems (db w)))))))
                (List.length (filter (schedules_where filters)
                                (scheduleItems (db w))))
                (sched_page filters) (sched_limit filters)),
          w).
Proof.
  unfold getRepaymentSchedules, bind, query.
  destruct (Nat.eqb (sched_page filters) 0 && Nat.ltb 0 (sched_limit filters));
    reflexivity.
Qed.

(** X22. Pages of [getRepaymentSchedules]. The call never changes the store
    and its answer does not depend on the caller's role, branch or user.
    Page 0 with a positive limit is rejected; every other request is
    answered. The total is the number of all matching items whatever the
    page and limit; a page holds at most [limit] items, in ascending order
    of due date, each a non-deleted schedule item that passes the loan,
    status and due-date filters given, with all allocation rows that point
    to it. *)
Theorem schedule_pages filters role b u w :
  let run := getRepaymentSchedules filters role b u w in
  let matching := filter (schedules_where filters) (scheduleItems (db w)) in
  snd run = w
  /\ (forall role' b' u', getRepaymentSchedules filters role' b' u' w = run)
  /\ ((exists e, fst run = Throw e)
      <-> sched_page filters = 0%nat /\ (0 < sched_limit filters)%nat)
  /\ (forall pg, fst run = Ok pg ->
        schedules_total pg = List.length matching
        /\ schedules_page pg = sched_page filters
        /\ schedules_limit pg = sched_limit filters
        /\ (List.length (page_schedules pg) <= sched_limit filters)%nat
        /\ StronglySorted due_le (map view_item (page_schedules pg))
        /\ (forall v, In v (page_schedules pg) ->
              In (view_item v) (scheduleItems (db w))
              /\ item_deletedAt (view_item v) = None
              /\ passes Nat.eqb (sched_loanId filters)
                   (item_loanId (view_item v)) = true
              /\ passes ScheduleStatus_eqb (sched_status filters)
                   (item_status (view_item v)) = true
              /\ in_range (sched_dateFrom filters) (sched_dateTo filters)
                   (dueDate (view_item v)) = true
              /\ view_item_allocations v
                 = filter (fun a => Nat.eqb (scheduleItemId a)
                                      (item_id (view_item v)))
                     (allocations (db w)))).
Proof.
  intros run matching. subst run.
  split.
  { rewrite getRepaymentSchedules_run. now destruct (_ && _). }
  split; [reflexivity|].
  rewrite getRepaymentSchedules_run. fold matching.
  destruct (Nat.eqb (sched_page filters) 0 && Nat.ltb 0 (sched_limit filters))
    eqn:E; cbn [fst].
  - apply andb_true_iff in E. destruct E as [E1 E2].
    apply Nat.eqb_eq in E1. apply Nat.ltb_lt in E2.
    split; [split; [auto|intros _; eexists; reflexivity]|discriminate].
  - split.
    { split; [intros (e & H); discriminate|].
      intros [E1 E2]. apply Nat.eqb_eq in E1. apply Nat.ltb_lt in E2.
      now rewrite E1, E2 in E. }
    intros pg H. injection H as <-.
    cbn [schedules_total schedules_page schedules_limit page_schedules].
    split; [reflexivity|]. split; [reflexivity|]. split; [reflexivity|].
    split; [rewrite length_map; apply firstn_le_length|].
    rewrite view_item_with_allocations.
    split.
    { apply StronglySorted_firstn, StronglySorted_skipn,
        orderBy_dueDate_asc_sorted. }
    intros v Hv. apply in_map_iff in Hv. destruct Hv as (i & <- & Hi).
    cbn [with_allocations view_item view_item_allocations].
    apply in_firstn_list, in_skipn_list in Hi.
    apply (Permutation_in _ (orderBy_dueDate_asc_perm _)) in Hi.
    apply filter_In in Hi. destruct Hi as [Hi Hw].
    unfold schedules_where in Hw. repeat rewrite andb_true_iff in Hw.
    destruct Hw as (((Hlive & H1) & H2) & H3).
    repeat split; try assumption.
    destruct (item_deletedAt i); [discriminate|reflexivity].
Qed.

(** X23. The schedule listing makes no access check. Whenever a loan has a
    schedule (the one [getRepaymentScheduleByLoan] returns to an ADMIN),
    every caller, whatever the role, branch and user, is given the same
    schedule items with the same allocations by [getRepaymentSchedules] on
    page 1 with the loan as filter and a limit that covers them, also a
    caller whom [getRepaymentScheduleByLoan] refuses. *)
Theorem schedule_listing_has_no_access_check staff loanId role b u limit w s :
  getRepaymentScheduleByLoan staff loanId ADMIN None None w = (Ok s, w) ->
  (List.length (schedule s) <= limit)%nat ->
  exists pg,
    getRepaymentSchedules (mkScheduleFilters 1 limit (Some loanId) None None None)
      role b u w = (Ok pg, w)
    /\ schedules_total pg = List.length (schedule s)
    /\ Permutation (page_schedules pg) (schedule s).
Proof.
  intros Hrun Hlen. rewrite getRepaymentScheduleByLoan_run in Hrun.
  destruct (find _ (loans (db w))) as [l|]; [|discriminate].
  destruct (schedule_allowed staff ADMIN None None l); [|discriminate].
  injection Hrun as <-. cbn [schedule] in *.
  rewrite length_map in Hlen.
  rewrite (Permutation_length (orderBy_sequence_asc_perm _)) in Hlen.
  assert (forall i, schedules_where
                      (mkScheduleFilters 1 limit (Some loanId) None None None) i
                    = schedule_of_loan loanId i) as Hsame.
  { intros i. unfold schedules_where, schedule_of_loan, in_range.
    cbn [sched_loanId sched_status sched_dateFrom sched_dateTo passes].
    rewrite !andb_true_r. apply andb_comm. }
  rewrite getRepaymentSchedules_run.
  cbn [sched_page sched_limit Nat.eqb andb Nat.sub Nat.mul skipn].
  rewrite (filter_ext _ _ Hsame).
  eexists. split; [reflexivity|].
  cbn [schedules_total page_schedules].
  rewrite length_map.
  rewrite (Permutation_length (orderBy_sequence_asc_perm _)).
  split; [reflexivity|].
  apply Permutation_map.
  rewrite firstn_all2
    by now rewrite (Permutation_length (orderBy_dueDate_asc_perm _)).
  rewrite orderBy_dueDate_asc_perm. symmetry. apply orderBy_sequence_asc_perm.
Qed.

Lemma schedule_listing_has_no_access_check_witness :
  getRepaymentScheduleByLoan (fun _ => mkStaff None None) 1 CREDIT_OFFICER None
    (Some 7%nat) (mkWorld last_partial_db mar_1_2024 None)
  = (Throw "You do not have permission to view this loan's schedule",
     mkWorld last_partial_db mar_1_2024 None)
  /\ exists pg,
       getRepaymentSchedules (mkScheduleFilters 1 2 (Some 1%nat) None None None)
         CREDIT_OFFICER None (Some 7%nat)
         (mkWorld last_partial_db mar_1_2024 None)
       = (Ok pg, mkWorld last_partial_db mar_1_2024 None)
       /\ schedules_total pg = 2%nat.
Proof.
  split; [reflexivity|].
  destruct (schedule_listing_has_no_access_check (fun _ => mkStaff None None)
              1%nat CREDIT_OFFICER None (Some 7%nat) 2%nat
              (mkWorld last_partial_db mar_1_2024 None)
              (mkLoanSchedule active_loan
                 (map (with_allocations last_partial_db)
                    (scheduleItems last_partial_db))))
    as (pg & Hpg & Htotal & _).
  - reflexivity.
  - cbn. lia.
  - exists pg. split; [exact Hpg|exact Htotal].
Defined.

(** ** The role guard of the routes *)

Lemma existsb_Role_eqb role roles :
  existsb (Role_eqb role) roles = true <-> In role roles.
Proof.
  rewrite existsb_exists. split.
  - intros (x & Hx & E). destruct role, x; (discriminate || exact Hx).
  - intros H. exists role. split; [exact H|now destruct role].
Qed.

Lemma commit_throws f w e w' :
  commit f w = (Throw e, w') -> e = "store failure"%string.
Proof.
  intros H. apply commit_run in H.
  destruct H as [(H & _)|(_ & _ & H)]; [discriminate|now injection H].
Qed.

Lemma scheduleItem_update_throws id p s c w e w' :
  scheduleItem_update id p s c w = (Throw e, w') ->
  e <> "Credit officers cannot delete repayments"%string.
Proof.
  unfold scheduleItem_update. destruct (has_id _ _ _).
  - intros H. apply commit_throws in H. subst e. discriminate.
  - intros H. injection H as <- _. discriminate.
Qed.

Lemma reverse_loop_throws allocs :
  forall w e w',
    reverse_loop allocs w = (Throw e, w') ->
    e <> "Credit officers cannot delete repayments"%string.
Proof.
  induction allocs as [|a allocs IH]; intros w e w'; cbn [reverse_loop].
  - discriminate.
  - unfold bind at 1. unfold scheduleItem_findUnique, query.
    destruct (find _ (scheduleItems (db w))) as [it|]; [|apply IH].
    unfold bind.
    destruct (scheduleItem_update _ _ _ _ w) as [[[]|e1] w1] eqn:E1.
    + apply IH.
    + intros H. injection H as <- _.
      eapply scheduleItem_update_throws. exact E1.
Qed.

Lemma deleteRepayment_officer_error id role b w w' :
  deleteRepayment id role b w
  = (Throw "Credit officers cannot delete repayments", w') ->
  role = CREDIT_OFFICER.
Proof.
  intros Hrun. unfold deleteRepayment in Hrun.
  erewrite bind_ok in Hrun by reflexivity.
  destruct (find _ (repayments (db w))) as [r|]; [|discriminate Hrun].
  destruct (truthy (rep_deletedAt r)); [discriminate Hrun|].
  erewrite bind_ok in Hrun by reflexivity.
  erewrite bind_ok in Hrun by reflexivity.
  destruct (Role_eqb role CREDIT_OFFICER) eqn:Hc;
    [now destruct role|exfalso].
  unfold bind in Hrun at 1. rewrite branch_guard_run in Hrun.
  destruct (branch_ok role b _).
  2:{ destruct (find _ (loans (db w))); discriminate Hrun. }
  erewrite bind_ok in Hrun by reflexivity.
  destruct (clock w - createdAt r >? day_ms); [discriminate Hrun|].
  unfold bind in Hrun at 1.
  destruct (reverse_loop _ w) as [[[]|e1] w1] eqn:E1.
  2:{ injection Hrun as -> _. now apply reverse_loop_throws in E1. }
  erewrite bind_ok in Hrun by reflexivity.
  unfold bind in Hrun at 1.
  destruct (repayment_softDelete _ _ w1) as [[[]|e2] w2] eqn:E2.
  2:{ injection Hrun as -> _. unfold repayment_softDelete in E2.
      destruct (has_id _ _ _); [|discriminate E2].
      apply commit_throws in E2. discriminate E2. }
  erewrite bind_ok in Hrun by reflexivity.
  destruct (Nat.ltb 0 _); [|discriminate Hrun].
  unfold loan_update in Hrun.
  destruct (has_id _ _ _); [|discriminate Hrun].
  apply commit_throws in Hrun. discriminate Hrun.
Qed.

(** X24. The role guard of the routes. [requireRole] hands a request on
    exactly when it has a user whose role is among the roles given; without
    a user it answers 401 "Unauthorized", otherwise 403 "Forbidden:
    Insufficient permissions". [requireStaff] hands on every request with a
    user. [requireBranchManager], the guard of the DELETE route, hands on
    exactly the users who are not a CREDIT_OFFICER, and for each role it
    hands on [deleteRepayment] never throws "Credit officers cannot delete
    repayments", on any store and for any argument. *)
Theorem route_role_guard (roles : list Role) (user : option Role) :
  (requireRole roles user = Next
   <-> exists role, user = Some role /\ In role roles)
  /\ (user = None -> requireRole roles user = Respond 401 "Unauthorized")
  /\ (forall role, user = Some role -> ~ In role roles ->
        requireRole roles user
        = Respond 403 "Forbidden: Insufficient permissions")
  /\ (requireStaff user = Next <-> user <> None)
  /\ (requireBranchManager user = Next
      <-> exists role, user = Some role /\ role <> CREDIT_OFFICER)
  /\ (forall role id b w w',
        user = Some role -> requireBranchManager user = Next ->
        deleteRepayment id role b w
        <> (Throw "Credit officers cannot delete repayments", w')).
Proof.
  split.
  { unfold requireRole. destruct user as [role|].
    - destruct (existsb (Role_eqb role) roles) eqn:E; cbn [negb].
      + apply existsb_Role_eqb in E. split; [|reflexivity].
        intros _. now exists role.
      + split; [discriminate|]. intros (x & Hx & Hin). injection Hx as <-.
        apply existsb_Role_eqb in Hin. now rewrite Hin in E.
    - split; [discriminate|]. intros (x & Hx & _). discriminate. }
  split; [now intros ->|].
  split.
  { intros role -> Hin. unfold requireRole.
    destruct (existsb (Role_eqb role) roles) eqn:E; [|reflexivity].
    apply existsb_Role_eqb in E. now elim Hin. }
  split.
  { destruct user as [[]|]; cbn; split; congruence. }
  split.
  { destruct user as [[]|]; cbn; split;
      try discriminate; try reflexivity;
      try (intros _; eexists; split; [reflexivity|discriminate]);
      try (intros (x & Hx & Hne); congruence). }
  intros role id b w w' -> Hg Hrun.
  apply deleteRepayment_officer_error in Hrun. subst role. discriminate Hg.
Qed.

(** ** The repayment routes *)

(** X25. Two routes that are never reached first. The router gives a
    request to the first registered route whose method and path match, and
    GET /:id is registered before GET /schedules and GET /summary. So every
    GET request with a one-part path, /schedules and /summary included, is
    given to the route of [getRepaymentById]; no request at all is given
    first to the route of [getRepaymentSchedules] or of
    [getRepaymentSummary], although both are registered. A GET request for
    /schedules/:loanId does reach [getRepaymentScheduleByLoan]. *)
Theorem shadowed_routes :
  (forall s,
      option_map route_handler (dispatch repayment_routes GET [s])
      = Some RepaymentController.getRepaymentById)
  /\ (forall verb path r,
         dispatch repayment_routes verb path = Some r ->
         route_handler r <> RepaymentController.getRepaymentSchedules
         /\ route_handler r <> RepaymentController.getRepaymentSummary)
  /\ (exists r1 r2,
         In r1 repayment_routes /\ In r2 repayment_routes
         /\ route_handler r1 = RepaymentController.getRepaymentSchedules
         /\ route_handler r2 = RepaymentController.getRepaymentSummary)
  /\ (forall x,
         option_map route_handler
           (dispatch repayment_routes GET ["schedules"%string; x])
         = Some RepaymentController.getRepaymentScheduleByLoan).
Proof.
  split; [reflexivity|]. split.
  { intros verb path r H. unfold dispatch, repayment_routes in H.
    destruct verb; destruct path as [|s1 [|s2 [|s3 rest]]];
      cbn [find Verb_eqb route_verb route_path path_matches segment_matches
             andb] in H;
      repeat match type of H with
             | context [String.eqb ?a ?b] => destruct (String.eqb a b)
             end;
      cbn [andb] in H;
      try discriminate H;
      injection H as <-; split; discriminate. }
  split.
  { eexists _, _. cbn [In repayment_routes].
    split; [do 5 right; left; reflexivity|].
    split; [do 7 right; left; reflexivity|].
    split; reflexivity. }
  intros x. reflexivity.
Qed.

(** ** Reading back what was written *)

Lemma find_none_also {A} (f g : A -> bool) l :
  find f l = None -> find (fun x => f x && g x) l = None.
Proof.
  induction l as [|x l IH]; [reflexivity|].
  cbn [find]. destruct (f x); [discriminate|]. exact IH.
Qed.

Lemma sumZ_snoc l x : sumZ (l ++ [x]) = sumZ l + x.
Proof. rewrite sumZ_app. unfold sumZ. cbn [fold_right]. lia. Qed.

(** X26. A recorded payment can be read back. On a reliable store whose
    allocation rows all point to existing repayments, after a successful
    [createRepayment] an ADMIN gets from [getRepaymentById] the repayment
    just returned, with the loan it was paid on and exactly the allocation
    rows the call appended; [getRepayments] without filters matches it; and
    the unfiltered [getRepaymentSummary] counts one repayment more and its
    total amount grows by the full amount of the payment, also by the part
    of an overpayment that no schedule item received. *)
Theorem recorded_repayment_can_be_read staff data user w :
  reliable w ->
  payable (data_loanId data) (db w) ->
  allocations_linked (db w) ->
  exists r w' l',
    createRepayment data user w = (Ok r, w')
    /\ loan_id l' = data_loanId data
    /\ (forall b u,
          getRepaymentById staff (rep_id r) ADMIN b u w'
          = (Ok (mkView r l' (added_allocations w w')), w'))
    /\ (forall b u,
          In r (filter (list_where staff
                          (mkFilters None None None None None None None)
                          ADMIN b u (db w'))
                  (repayments (db w'))))
    /\ (forall b u s s',
          getRepaymentSummary staff (mkSummaryFilters None None None)
            ADMIN b u w = (Ok s, w) ->
          getRepaymentSummary staff (mkSummaryFilters None None None)
            ADMIN b u w' = (Ok s', w') ->
          totalRepayments s' = S (totalRepayments s)
          /\ totalAmount s' = totalAmount s + data_amount data).
Proof.
  intros Hr Hp Hlk.
  destruct (createRepayment_added data user w Hr Hp) as (Hrun & Hadd & _).
  destruct (create_db_tables data user (clock w) (db w))
    as (Hreps & _ & _ & Hloans).
  set (r := new_repayment data user (clock w) (db w)) in *.
  set (w' := set_db w (create_db data user (clock w) (db w))) in *.
  destruct Hp as (l & Hl & Hld & Hls).
  assert (exists l', find (fun x => Nat.eqb (loan_id x) (data_loanId data))
                       (loans (db w')) = Some l'
                     /\ loan_id l' = data_loanId data) as (l' & Hl' & Hid').
  { unfold w'. cbn [db set_db]. rewrite Hloans.
    destruct (Nat.eqb _ 0).
    - rewrite find_update_row by reflexivity. rewrite Hl. cbn [option_map].
      eexists. split; [reflexivity|].
      apply find_some in Hl. destruct Hl as [_ Hl].
      now apply Nat.eqb_eq in Hl.
    - exists l. split; [exact Hl|].
      apply find_some in Hl. destruct Hl as [_ Hl].
      now apply Nat.eqb_eq in Hl. }
  assert (rep_deletedAt r = None) as Hlive by reflexivity.
  assert (repayments (db w') = repayments (db w) ++ [r]) as Hreps'
    by exact Hreps.
  exists r, w', l'. split; [exact Hrun|]. split; [exact Hid'|].
  split.
  { intros b u. unfold getRepaymentById. erewrite bind_ok by reflexivity.
    rewrite Hreps', find_app_first.
    change (rep_id r) with (fresh_id (repayments (db w))).
    rewrite (find_none_also _ (fun x => negb (truthy (rep_deletedAt x))) _
               (find_fresh_id (repayments (db w)))).
    cbn [find]. change (rep_id r) with (fresh_id (repayments (db w))).
    rewrite Nat.eqb_refl. cbn [andb negb truthy rep_deletedAt r new_repayment].
    erewrite bind_ok
      by (unfold loan_findUnique, query;
          change (rep_loanId r) with (data_loanId data); rewrite Hl';
          reflexivity).
    erewrite bind_ok by reflexivity.
    rewrite Hadd. unfold w'. cbn [db set_db].
    rewrite (allocations_of_new data user (clock w) (db w) Hlk).
    reflexivity. }
  split.
  { intros b u. apply filter_In. split.
    - rewrite Hreps'. apply in_or_app. right. now left.
    - reflexivity. }
  intros b u s s' Hs Hs'. clearbody w'.
  unfold getRepaymentSummary, bind, query, ret in Hs, Hs'.
  injection Hs as <-. injection Hs' as <-.
  cbn [totalRepayments totalAmount].
  rewrite Hreps', !filter_app. cbn [filter].
  assert (summary_where staff (mkSummaryFilters None None None) ADMIN b u
            (db w') r = true) as ->
    by (unfold summary_where; rewrite Hlive; reflexivity).
  rewrite (filter_ext
             (summary_where staff (mkSummaryFilters None None None) ADMIN b u
                (db w'))
             (summary_where staff (mkSummaryFilters None None None) ADMIN b u
                (db w)))
    by reflexivity.
  split.
  - rewrite length_app. cbn [List.length]. lia.
  - rewrite map_app. cbn [map]. now rewrite sumZ_snoc.
Qed.

Lemma recorded_repayment_can_be_read_witness :
  exists r w',
    createRepayment (cash 1 80) 7 (mkWorld two_pending_db mar_1_2024 None)
    = (Ok r, w')
    /\ getRepaymentById (fun _ => mkStaff None None) (rep_id r) ADMIN None None w'
       = (Ok (mkView r active_loan [mkAlloc 1 1 50; mkAlloc 1 2 30]), w').
Proof.
  destruct (recorded_repayment_can_be_read (fun _ => mkStaff None None)
              (cash 1 80) 7%nat (mkWorld two_pending_db mar_1_2024 None))
    as (r & w' & l' & Hrun & Hid & Hview & _).
  - reflexivity.
  - exists active_loan. repeat split.
  - intros a [].
  - exists r, w'. split; [exact Hrun|].
    pose proof Hrun as Hc. vm_compute in Hc. injection Hc as <- <-.
    reflexivity.
Defined.

Lemma getRepaymentSummary_run staff filters role b u w :
  getRepaymentSummary staff filters role b u w
  = (Ok (mkSummary
           (List.length (filter (summary_where staff filters role b u (db w))
                           (repayments (db w))))
           (sumZ (map rep_amount
                    (filter (summary_where staff filters role b u (db w))
                       (repayments (db w)))))
           (groupBy_method
              (filter (summary_where staff filters role b u (db w))
                 (repayments (db w))))
           (firstn 5 (orderBy_paidAt_desc
                        (filter (summary_where staff filters role b u (db w))
                           (repayments (db w)))))),
     w).
Proof. reflexivity. Qed.

Lemma repayment_softDelete_ok id at_ w w' :
  repayment_softDelete id at_ w = (Ok tt, w') ->
  repayments (db w')
  = update_row rep_id id (set_rep_deletedAt (Some at_)) (repayments (db w)).
Proof.
  unfold repayment_softDelete.
  destruct (has_id rep_id id (repayments (db w))); [|discriminate].
  intros H. apply commit_run in H.
  destruct H as [(_ & -> & _)|(_ & _ & H)]; [reflexivity|discriminate H].
Qed.

Lemma deleteRepayment_ok id role b w w' :
  deleteRepayment id role b w = (Ok tt, w') ->
  repayments (db w')
  = update_row rep_id id (set_rep_deletedAt (Some (clock w)))
      (repayments (db w))
  /\ allocations (db w') = allocations (db w).
Proof.
  intros Hrun.
  pose proof (deleteRepayment_run _ _ _ _ _ _ Hrun) as Hframe.
  unfold deleteRepayment in Hrun.
  erewrite bind_ok in Hrun by reflexivity.
  destruct (find _ (repayments (db w))) as [r|]; [|discriminate Hrun].
  destruct (truthy (rep_deletedAt r)); [discriminate Hrun|].
  erewrite bind_ok in Hrun by reflexivity.
  erewrite bind_ok in Hrun by reflexivity.
  destruct (Role_eqb role CREDIT_OFFICER); [discriminate Hrun|].
  unfold bind in Hrun at 1. rewrite branch_guard_run in Hrun.
  destruct (branch_ok role b _); [|discriminate Hrun].
  erewrite bind_ok in Hrun by reflexivity.
  destruct (clock w - createdAt r >? day_ms); [discriminate Hrun|].
  unfold bind in Hrun at 1.
  destruct (reverse_loop _ w) as [[[]|e1] w1] eqn:E1; [|discriminate Hrun].
  apply reverse_loop_run in E1. destruct E1 as (_ & R1 & A1 & C1 & _).
  erewrite bind_ok in Hrun by reflexivity.
  unfold bind in Hrun at 1.
  destruct (repayment_softDelete _ _ w1) as [[[]|e2] w2] eqn:E2;
    [|discriminate Hrun].
  pose proof (repayment_softDelete_run _ _ _ _ _ E2) as (_ & _ & A2 & _).
  apply repayment_softDelete_ok in E2. rewrite C1, R1 in E2.
  erewrite bind_ok in Hrun by reflexivity.
  destruct (Nat.ltb 0 _).
  - apply loan_update_frame in Hrun. destruct Hrun as (_ & R3 & A3).
    split; congruence.
  - injection Hrun as <-. split; congruence.
Qed.

Lemma updated_row_deleted id at_ l r :
  In r (update_row rep_id id (set_rep_deletedAt (Some at_)) l) ->
  rep_id r = id -> rep_deletedAt r = Some at_.
Proof.
  unfold update_row. intros Hin Hid. apply in_map_iff in Hin.
  destruct Hin as (x & Hx & _).
  destruct (Nat.eqb (rep_id x) id) eqn:E.
  - now subst r.
  - subst r. apply Nat.eqb_neq in E. now elim E.
Qed.

(** X27. A reversed payment leaves the reads of repayments but not the
    schedule views. On any store, after [deleteRepayment] has returned, for
    every caller [getRepaymentById] of that repayment throws "Repayment not
    found", no page of [getRepayments] holds it and [getRepaymentSummary]
    neither counts it nor lists it as recent; but its allocation rows are
    all still in the store, so [getRepaymentScheduleByLoan] and
    [getRepaymentSchedules] go on showing them under the schedule items. *)
Theorem reversed_repayment_in_reads staff id role b w w' :
  deleteRepayment id role b w = (Ok tt, w') ->
  (forall role' b' u',
      getRepaymentById staff id role' b' u' w'
      = (Throw "Repayment not found", w'))
  /\ (forall filters role' b' u' pg r,
         getRepayments staff filters role' b' u' w' = (Ok pg, w') ->
         In r (page_repayments pg) -> rep_id r <> id)
  /\ (forall filters role' b' u' s,
         getRepaymentSummary staff filters role' b' u' w' = (Ok s, w') ->
         (forall r, In r (recentRepayments s) -> rep_id r <> id)
         /\ totalRepayments s
            = List.length
                (filter (fun r => negb (Nat.eqb (rep_id r) id))
                   (filter (summary_where staff filters role' b' u' (db w'))
                      (repayments (db w')))))
  /\ allocations_of id (db w') = allocations_of id (db w)
  /\ (forall i, with_allocations (db w') i = with_allocations (db w) i).
Proof.
  intros Hrun. apply deleteRepayment_ok in Hrun. destruct Hrun as [Hreps Hal].
  assert (forall r, In r (repayments (db w')) -> rep_id r = id ->
                    rep_deletedAt r <> None) as Hgone.
  { intros r Hin Hid. rewrite Hreps in Hin.
    now rewrite (updated_row_deleted _ _ _ _ Hin Hid). }
  split.
  { intros role' b' u'. unfold getRepaymentById.
    erewrite bind_ok by reflexivity.
    destruct (find _ (repayments (db w'))) as [r|] eqn:Hf; [|reflexivity].
    exfalso. apply find_some in Hf. destruct Hf as [Hin Hc].
    apply andb_true_iff in Hc. destruct Hc as [Hid Hlive].
    apply Nat.eqb_eq in Hid. apply (Hgone r Hin Hid).
    destruct (rep_deletedAt r); [discriminate Hlive|reflexivity]. }
  split.
  { intros filters role' b' u' pg r Hpg Hin Hid.
    destruct (listed_matches _ _ _ _ _ _ _ _ Hpg Hin) as [Hr Hw].
    apply (Hgone r Hr Hid).
    unfold list_where in Hw. repeat rewrite andb_true_iff in Hw.
    destruct Hw as (((((Hlive & _) & _) & _) & _) & _).
    destruct (rep_deletedAt r); [discriminate Hlive|reflexivity]. }
  split.
  { intros filters role' b' u' s Hs.
    rewrite getRepaymentSummary_run in Hs. injection Hs as <-.
    cbn [recentRepayments totalRepayments].
    assert (forall r, In r (filter (summary_where staff filters role' b' u'
                                      (db w')) (repayments (db w'))) ->
                      rep_id r <> id) as Hnot.
    { intros r Hin Hid. apply filter_In in Hin. destruct Hin as [Hr Hw].
      apply (Hgone r Hr Hid).
      unfold summary_where in Hw. repeat rewrite andb_true_iff in Hw.
      destruct Hw as (((Hlive & _) & _) & _).
      destruct (rep_deletedAt r); [discriminate Hlive|reflexivity]. }
    split.
    - intros r Hin. apply Hnot.
      change (In r (firstn 5 (orderBy_paidAt_desc
                                (filter (summary_where staff filters role' b' u'
                                           (db w'))
                                   (repayments (db w')))))) in Hin.
      apply in_firstn_list in Hin.
      now apply (Permutation_in _ (orderBy_paidAt_desc_perm _)) in Hin.
    - f_equal. symmetry. apply forallb_filter_id.
      apply forallb_forall. intros r Hin. apply negb_true_iff.
      apply Nat.eqb_neq. now apply Hnot. }
  split.
  { unfold allocations_of. now rewrite Hal. }
  intros i. unfold with_allocations. now rewrite Hal.
Qed.

Lemma reversed_repayment_in_reads_witness :
  let w := mkWorld defaulted_db (mar_1_2024 + hour_ms) None in
  let w' := snd (deleteRepayment 1 ADMIN None w) in
  getRepaymentById (fun _ => mkStaff None None) 1 ADMIN None None w'
  = (Throw "Repayment not found", w')
  /\ allocations_of 1 (db w') = allocations_of 1 (db w).
Proof.
  intros w w'.
  destruct (reversed_repayment_in_reads (fun _ => mkStaff None None) 1%nat
              ADMIN None w w')
    as (Hview & _ & _ & Hal & _).
  - reflexivity.
  - split; [apply Hview|exact Hal].
Defined.
